(** * The Astro plugin: daylight phases, actuation and the sleep schedule

    A shallow embedding of [src/astro/main.py] (class [Astro]) and the
    properties of its phase evaluation, its actuation step and its
    coordinate configuration.

    Conventions of the embedding.
    - A [datetime] is the number of microseconds since 1970-01-01T00:00:00,
      a [timedelta] a number of microseconds.  Python's
      [timedelta.total_seconds()] returns a float; here a duration stays an
      exact count of microseconds, so [total_seconds] is the identity and
      [int(...)] truncates to a whole number of seconds.
    - The plugin is Python 2 code: ordering a [datetime] against [None]
      raises [TypeError], reading a local variable that was never assigned
      raises [UnboundLocalError], and every exception raised inside the
      [try] of [run] ends in its [except Exception] handler.
    - The logger is not modelled; the calls to
      [webinterface.do_basic_action] are recorded in the order they are made
      and are taken to return. *)

From Stdlib Require Import ZArith List String Ascii Bool Lia.
Import ListNotations.
Local Open Scope Z_scope.

(** ** Dates and durations *)

Module Datetime.

Definition datetime := Z.
Definition timedelta := Z.

Definition second : Z := 1000000.
Definition minute : Z := 60 * second.
Definition day : Z := 24 * 60 * 60 * second.

(** [datetime.min] is 0001-01-01T00:00:00 (ordinal 1; 1970-01-01 has ordinal
    719163) and [datetime.max] is 9999-12-31T23:59:59.999999 (ordinal
    3652059). *)
Definition datetime_min : datetime := - (719162 * day).
Definition datetime_max : datetime := 2932897 * day - 1.

Definition representable (d : Z) : bool :=
  (datetime_min <=? d) && (d <=? datetime_max).

(** [date.year == 1970]: 1970 has 365 days. *)
Definition year_is_1970 (d : datetime) : bool :=
  (0 <=? d) && (d <? 365 * day).

(** [int(x)] of a number of seconds: truncation towards zero. *)
Definition int (d : timedelta) : timedelta := Z.quot d second * second.

(** [timedelta(minutes=m)] *)
Definition minutes (m : Z) : timedelta := m * minute.

End Datetime.
Import Datetime.

(** ** Exceptions and the local variables of [run] *)

Inductive exn : Type :=
| UnboundLocalError (name : string)
| AttributeError (name : string)
| TypeError
| ValueError
| OverflowError
| RequestException.

(** [bright_beg] and [bright_end] are the two locals of [run] that one
    iteration of its loop may read without having assigned them; as locals of
    the function they keep the value an earlier iteration gave them. *)
Record Locals : Type := {
  bright_beg : option datetime;
  bright_end : option datetime
}.

Definition unbound : Locals := {| bright_beg := None; bright_end := None |}.

(** A computation reads and writes the locals and either returns or raises;
    what it assigned before raising stays assigned. *)
Definition M (A : Type) : Type := Locals -> Locals * (exn + A).

Definition ret {A} (a : A) : M A := fun l => (l, inr a).
Definition raise {A} (e : exn) : M A := fun l => (l, inl e).
Definition bind {A B} (m : M A) (k : A -> M B) : M B :=
  fun l =>
    match m l with
    | (l', inr a) => k a l'
    | (l', inl e) => (l', inl e)
    end.

Declare Scope py_scope.
Delimit Scope py_scope with py.
Notation "x <- m ;; k" := (bind m (fun x => k))
  (at level 61, m at next level, right associativity) : py_scope.
Notation "m ;; k" := (bind m (fun _ => k))
  (at level 61, right associativity) : py_scope.
Local Open Scope py_scope.

(** The outcome of a computation that does not touch the locals. *)
Definition lift {A} (r : exn + A) : M A := fun l => (l, r).

Definition assign_bright_beg (v : datetime) : M unit :=
  fun l => ({| bright_beg := Some v; bright_end := bright_end l |}, inr tt).
Definition assign_bright_end (v : datetime) : M unit :=
  fun l => ({| bright_beg := bright_beg l; bright_end := Some v |}, inr tt).

Definition read_bright_beg : M datetime :=
  fun l =>
    match bright_beg l with
    | Some v => (l, inr v)
    | None => (l, inl (UnboundLocalError "bright_beg"))
    end.
Definition read_bright_end : M datetime :=
  fun l =>
    match bright_end l with
    | Some v => (l, inr v)
    | None => (l, inl (UnboundLocalError "bright_end"))
    end.

(** [a < b] on values that may be [None]: Python 2's [datetime] refuses to be
    ordered against [None]. *)
Definition lt (a b : option datetime) : M bool :=
  match a, b with
  | Some x, Some y => ret (x <? y)
  | _, _ => raise TypeError
  end.

(** [a < now < b]: the second comparison is made only when the first holds. *)
Definition between (a : option datetime) (now : datetime) (b : option datetime)
  : M bool :=
  c <- lt a (Some now) ;;
  if c then lt (Some now) b else ret false.

(** [(a - b).total_seconds()] *)
Definition seconds_between (a b : option datetime) : M timedelta :=
  match a, b with
  | Some x, Some y => ret (x - y)
  | _, _ => raise TypeError
  end.

(** [datetime + timedelta], which raises when the sum leaves
    [datetime.min .. datetime.max].  ([timedelta(minutes=m)] itself raises
    [OverflowError] beyond 999999999 days; added to a representable datetime
    such a delta leaves the range anyway, so this one check covers both.) *)
Definition datetime_add (d : datetime) (t : timedelta) : M datetime :=
  if representable (d + t) then ret (d + t) else raise OverflowError.

(** ** The answer of the sunrise-sunset service *)

Module Api.

(** A timestamp string of the answer: the instant it denotes, in whole
    seconds since 1970-01-01T00:00:00+00:00, or a string that is not of the
    form [%Y-%m-%dT%H:%M:%S+00:00]. *)
Inductive dt_string : Type :=
| Timestamp (secs : Z)
| Malformed.

Record results : Type := {
  sunrise : dt_string;
  sunset : dt_string;
  civil_twilight_begin : dt_string;
  civil_twilight_end : dt_string;
  nautical_twilight_begin : dt_string;
  nautical_twilight_end : dt_string;
  astronomical_twilight_begin : dt_string;
  astronomical_twilight_end : dt_string
}.

Record response : Type := {
  status : string;
  body : results
}.

End Api.

(** [datetime.strptime(dt_string, '%Y-%m-%dT%H:%M:%S+00:00')]: a static
    computation, which returns or raises [ValueError]. *)
Definition strptime (s : Api.dt_string) : exn + datetime :=
  match s with
  | Api.Timestamp secs =>
      if representable (secs * second) then inr (secs * second)
      else inl ValueError
  | Api.Malformed => inl ValueError
  end.

(** [Astro._convert] *)
Definition _convert (dt_string : Api.dt_string) : exn + option datetime :=
  match strptime dt_string with
  | inl e => inl e
  | inr date => if year_is_1970 date then inr None else inr (Some date)
  end.

(** [Astro._seconds_to_tomorrow], at the local wall-clock reading
    [local_now]; the result is a whole number of seconds. *)
Definition _seconds_to_tomorrow (local_now : datetime) : timedelta :=
  let local_tomorrow := local_now / day * day + day in
  int (local_tomorrow - local_now).

(** ** The plugin instance *)

(** The attributes of an [Astro] instance that [run] and [_read_config] use.
    [sunrise_data] is not set by [__init__]: it exists once a request has
    succeeded. *)
Record Astro : Type := {
  _bright_bit : Z;
  _horizon_bit : Z;
  _civil_bit : Z;
  _nautical_bit : Z;
  _astronomical_bit : Z;
  _bright_offset : Z;
  _group_action : Z;
  _previous_bits : list (option bool);
  _enabled : bool;
  _latitude : option string;
  _longitude : option string;
  sunrise_data : option Api.response;
  _sleep_until : Z
}.

Definition set_previous_bits (self : Astro) (v : list (option bool)) : Astro :=
  {| _bright_bit := _bright_bit self; _horizon_bit := _horizon_bit self;
     _civil_bit := _civil_bit self; _nautical_bit := _nautical_bit self;
     _astronomical_bit := _astronomical_bit self;
     _bright_offset := _bright_offset self;
     _group_action := _group_action self;
     _previous_bits := v; _enabled := _enabled self;
     _latitude := _latitude self; _longitude := _longitude self;
     sunrise_data := sunrise_data self; _sleep_until := _sleep_until self |}.

Definition set_enabled (self : Astro) (v : bool) : Astro :=
  {| _bright_bit := _bright_bit self; _horizon_bit := _horizon_bit self;
     _civil_bit := _civil_bit self; _nautical_bit := _nautical_bit self;
     _astronomical_bit := _astronomical_bit self;
     _bright_offset := _bright_offset self;
     _group_action := _group_action self;
     _previous_bits := _previous_bits self; _enabled := v;
     _latitude := _latitude self; _longitude := _longitude self;
     sunrise_data := sunrise_data self; _sleep_until := _sleep_until self |}.

Definition set_coordinates (self : Astro) (lat lng : string) : Astro :=
  {| _bright_bit := _bright_bit self; _horizon_bit := _horizon_bit self;
     _civil_bit := _civil_bit self; _nautical_bit := _nautical_bit self;
     _astronomical_bit := _astronomical_bit self;
     _bright_offset := _bright_offset self;
     _group_action := _group_action self;
     _previous_bits := _previous_bits self; _enabled := _enabled self;
     _latitude := Some lat; _longitude := Some lng;
     sunrise_data := sunrise_data self; _sleep_until := _sleep_until self |}.

Definition set_sunrise_data (self : Astro) (v : Api.response) : Astro :=
  {| _bright_bit := _bright_bit self; _horizon_bit := _horizon_bit self;
     _civil_bit := _civil_bit self; _nautical_bit := _nautical_bit self;
     _astronomical_bit := _astronomical_bit self;
     _bright_offset := _bright_offset self;
     _group_action := _group_action self;
     _previous_bits := _previous_bits self; _enabled := _enabled self;
     _latitude := _latitude self; _longitude := _longitude self;
     sunrise_data := Some v; _sleep_until := _sleep_until self |}.

(** [Astro._sleep(timestamp)] records the deadline; the wait itself, which
    the [_sleep_manager] thread ends, is outside the model. *)
Definition _sleep (self : Astro) (timestamp : Z) : Astro :=
  {| _bright_bit := _bright_bit self; _horizon_bit := _horizon_bit self;
     _civil_bit := _civil_bit self; _nautical_bit := _nautical_bit self;
     _astronomical_bit := _astronomical_bit self;
     _bright_offset := _bright_offset self;
     _group_action := _group_action self;
     _previous_bits := _previous_bits self; _enabled := _enabled self;
     _latitude := _latitude self; _longitude := _longitude self;
     sunrise_data := sunrise_data self; _sleep_until := timestamp |}.

Definition no_previous_bits : list (option bool) :=
  [None; None; None; None; None].

(** ** Loading the data (lines 208-236 of [run]) *)

Record Loaded : Type := {
  sunrise : option datetime;
  sunset : option datetime;
  has_sun : bool;
  has_bright : bool;
  civil_beg : option datetime;
  civil_end : option datetime;
  has_civil : bool;
  nautical_beg : option datetime;
  nautical_end : option datetime;
  has_nautical : bool;
  astronomical_beg : option datetime;
  astronomical_end : option datetime;
  has_astronomical : bool
}.

Definition is_not_None {A} (o : option A) : bool :=
  match o with Some _ => true | None => false end.

(** Lines 211-216: the bright window is assigned only when the sun both
    rises and sets. *)
Definition load_bright (offset : Z) (sunrise sunset : option datetime)
  : M bool :=
  match sunrise, sunset with
  | Some sr, Some ss =>
      b <- datetime_add sr (minutes offset) ;;
      assign_bright_beg b ;;
      e <- datetime_add ss (- minutes offset) ;;
      assign_bright_end e ;;
      ret (b <? e)
  | _, _ => ret false
  end.

Definition load_data (self : Astro) (r : Api.results) : M Loaded :=
  sunrise <- lift (_convert (Api.sunrise r)) ;;
  sunset <- lift (_convert (Api.sunset r)) ;;
  has_bright <- load_bright (_bright_offset self) sunrise sunset ;;
  civil_beg <- lift (_convert (Api.civil_twilight_begin r)) ;;
  civil_end <- lift (_convert (Api.civil_twilight_end r)) ;;
  nautical_beg <- lift (_convert (Api.nautical_twilight_begin r)) ;;
  nautical_end <- lift (_convert (Api.nautical_twilight_end r)) ;;
  astronomical_beg <- lift (_convert (Api.astronomical_twilight_begin r)) ;;
  astronomical_end <- lift (_convert (Api.astronomical_twilight_end r)) ;;
  (* the two logger lines 230 and 231 read the locals *)
  read_bright_beg ;;
  read_bright_end ;;
  ret {| sunrise := sunrise; sunset := sunset;
         has_sun := is_not_None sunrise && is_not_None sunset;
         has_bright := has_bright;
         civil_beg := civil_beg; civil_end := civil_end;
         has_civil := is_not_None civil_beg && is_not_None civil_end;
         nautical_beg := nautical_beg; nautical_end := nautical_end;
         has_nautical := is_not_None nautical_beg && is_not_None nautical_end;
         astronomical_beg := astronomical_beg;
         astronomical_end := astronomical_end;
         has_astronomical :=
           is_not_None astronomical_beg && is_not_None astronomical_end |}.

(** ** Analysing the data (lines 238-307 of [run]) *)

(** [bits[i] = v] on the five-element list [bits]. *)
Fixpoint store (i : nat) (v : bool) (bits : list bool) : list bool :=
  match bits, i with
  | [], _ => []
  | _ :: t, O => v :: t
  | h :: t, S j => h :: store j v t
  end.

(** [bits[i]] *)
Definition item (i : nat) (bits : list bool) : bool := nth i bits false.

(** The flags and the sleep so far. *)
Definition Phase : Type := (list bool * timedelta)%type.

(** Lines 247-254 *)
Definition analyse_bright (d : Loaded) (now : datetime) (p : Phase) : M Phase :=
  let '(bits, sleep) := p in
  if negb (has_bright d) then ret (store 0 false bits, sleep)
  else
    b <- read_bright_beg ;;
    inside <- (if b <? now then e <- read_bright_end ;; ret (now <? e)
               else ret false) ;;
    let bits := store 0 inside bits in
    if inside then
      e <- read_bright_end ;;
      ret (bits, Z.min sleep (int (e - now)))
    else
      b <- read_bright_beg ;;
      if now <? b then ret (bits, Z.min sleep (int (b - now)))
      else ret (bits, sleep).

(** Lines 255-262 *)
Definition analyse_day (d : Loaded) (now : datetime) (p : Phase) : M Phase :=
  let '(bits, sleep) := p in
  if negb (has_sun d) then ret (store 1 false bits, sleep)
  else
    inside <- between (sunrise d) now (sunset d) ;;
    let bits := store 1 inside bits in
    if inside then
      s <- seconds_between (sunset d) (Some now) ;;
      ret (bits, Z.min sleep s)
    else
      before <- lt (Some now) (sunrise d) ;;
      if before then
        s <- seconds_between (sunrise d) (Some now) ;;
        ret (bits, Z.min sleep s)
      else ret (bits, sleep).

(** Lines 263-273, 274-284 and 285-295: the three twilight levels are
    written alike.  [i] is the index of the level's flag, [has] says whether
    its pair is present, and [broader] whether a brighter level has data, in
    which case an absent pair makes the flag the negation of the flag before
    it.  The begin edge is used when [now < sunrise]. *)
Definition analyse_twilight (i : nat) (has : bool) (beg end_ : option datetime)
    (broader : bool) (d : Loaded) (now : datetime) (p : Phase) : M Phase :=
  let '(bits, sleep) := p in
  if negb has then
    if broader then ret (store i (negb (item (Nat.pred i) bits)) bits, sleep)
    else ret (store i false bits, sleep)
  else
    inside <- between beg now end_ ;;
    let bits := store i inside bits in
    if inside then
      s <- seconds_between end_ (Some now) ;;
      ret (bits, Z.min sleep s)
    else
      before <- lt (Some now) (sunrise d) ;;
      if before then
        s <- seconds_between beg (Some now) ;;
        ret (bits, Z.min sleep s)
      else ret (bits, sleep).

(** Lines 297-307 *)
Definition phase_name (bits : list bool) : string :=
  let info := "night"%string in
  let info := if item 4 bits then "astronomical twilight"%string else info in
  let info := if item 3 bits then "nautical twilight"%string else info in
  let info := if item 2 bits then "civil twilight"%string else info in
  let info := if item 1 bits then "day"%string else info in
  let info := if item 0 bits then "day (bright)"%string else info in
  info.

(** What an evaluation yields: the flags
    [[bright; day; civil; nautical; astronomical]], the sleep and the phase
    name. *)
Definition Evaluation : Type := (list bool * timedelta * string)%type.

Definition analyse_data (d : Loaded) (now local_now : datetime) : M Evaluation :=
  let sleep := 24 * 60 * 60 * second in
  let bits := [true; true; true; true; true] in
  if negb (has_sun d || has_civil d || has_nautical d || has_astronomical d)
  then
    ret ([true; true; true; true; true], _seconds_to_tomorrow local_now,
         "polar day"%string)
  else
    p <- analyse_bright d now (bits, sleep) ;;
    p <- analyse_day d now p ;;
    p <- analyse_twilight 2 (has_civil d) (civil_beg d) (civil_end d)
           (has_sun d) d now p ;;
    p <- analyse_twilight 3 (has_nautical d) (nautical_beg d) (nautical_end d)
           (has_sun d || has_civil d) d now p ;;
    p <- analyse_twilight 4 (has_astronomical d) (astronomical_beg d)
           (astronomical_end d)
           (has_sun d || has_civil d || has_nautical d) d now p ;;
    let '(bits, sleep) := p in
    let sleep := Z.min sleep (_seconds_to_tomorrow local_now) in
    ret (bits, sleep, phase_name bits).

(** The evaluation of one answer whose status is [OK]. *)
Definition evaluate (self : Astro) (r : Api.results) (now local_now : datetime)
  : M Evaluation :=
  d <- load_data self r ;;
  analyse_data d now local_now.

(** ** One iteration of the loop of [run] *)

(** What one iteration meets outside the plugin. *)
Record World : Type := {
  (* [datetime.utcnow()] at line 199 *)
  utcnow : datetime;
  (* [requests.get(...).json()] in [get_sun_data_or_cached]: the answer, or
     the exception the request or its decoding raised *)
  answer : exn + Api.response;
  (* [datetime.now()] inside the iteration's call of [_seconds_to_tomorrow] *)
  local_now : datetime;
  (* [time.time()] at the iteration's call of [_sleep], in microseconds *)
  time_time : Z
}.

(** [webinterface.do_basic_action(None, action_type, action_number)] *)
Inductive call : Type :=
| do_basic_action (action_type action_number : Z).

(** [Astro.get_sun_data_or_cached]: a failed request is logged and the data
    of the last request that succeeded is returned; when there is none the
    attribute does not exist. *)
Definition get_sun_data_or_cached (w : World) (self : Astro)
  : Astro * (exn + Api.response) :=
  let self :=
    match answer w with
    | inr data => set_sunrise_data self data
    | inl _ => self
    end in
  match sunrise_data self with
  | Some data => (self, inr data)
  | None => (self, inl (AttributeError "sunrise_data"))
  end.

(** Lines 309-317: the five bits in the order of the dictionary's keys
    [0 .. 4]; action 237 sets a bit and 238 clears it. *)
Definition set_bits (self : Astro) (bits : list bool) : list call :=
  flat_map
    (fun '(index, bit) =>
       if bit >? -1
       then [do_basic_action (if item index bits then 237 else 238) bit]
       else [])
    [(0%nat, _bright_bit self); (1%nat, _horizon_bit self);
     (2%nat, _civil_bit self); (3%nat, _nautical_bit self);
     (4%nat, _astronomical_bit self)].

Definition flag_eqb (a b : option bool) : bool :=
  match a, b with
  | Some x, Some y => Bool.eqb x y
  | None, None => true
  | _, _ => false
  end.

Fixpoint flags_eqb (a b : list (option bool)) : bool :=
  match a, b with
  | [], [] => true
  | x :: a', y :: b' => flag_eqb x y && flags_eqb a' b'
  | _, _ => false
  end.

(** Lines 318-325: the group action and the update of [_previous_bits]. *)
Definition zone_change (self : Astro) (bits : list bool) : Astro * list call :=
  if negb (flags_eqb (_previous_bits self) (map Some bits)) then
    (set_previous_bits self (map Some bits),
     if negb (_group_action self =? -1)
     then [do_basic_action 2 (_group_action self)]
     else [])
  else (self, []).

(** The sleep of the [else] branch (line 330) and of the exception handler
    (line 334). *)
Definition sleep_until_tomorrow (w : World) (self : Astro) : Astro :=
  _sleep self (time_time w + _seconds_to_tomorrow (local_now w) + 5 * second).

(** The body of [while True] in [run]: the instance and the locals after
    the iteration, and the calls it made. *)
Definition run_iteration (w : World) (self : Astro) (l : Locals)
  : Astro * Locals * list call :=
  if _enabled self then
    let '(self, fetched) := get_sun_data_or_cached w self in
    match fetched with
    | inl _ => (sleep_until_tomorrow w self, l, [])
    | inr data =>
        if String.eqb (Api.status data) "OK" then
          match evaluate self (Api.body data) (utcnow w) (local_now w) l with
          | (l', inl _) => (sleep_until_tomorrow w self, l', [])
          | (l', inr (bits, sleep, info)) =>
              let calls := set_bits self bits in
              let '(self, group) := zone_change self bits in
              (_sleep self (time_time w + sleep + 5 * second), l',
               calls ++ group)
          end
        else (sleep_until_tomorrow w self, l, [])
    end
  else (_sleep self (time_time w + 30 * second), l, []).

(** The first iterations of the loop, one for each world of [ws]: the
    instance and the locals go from one iteration to the next. *)
Fixpoint run_loop (ws : list World) (self : Astro) (l : Locals)
  : Astro * Locals * list (list call) :=
  match ws with
  | [] => (self, l, [])
  | w :: ws' =>
      let '(self', l', calls) := run_iteration w self l in
      let '(self'', l'', rest) := run_loop ws' self' l' in
      (self'', l'', calls :: rest)
  end.

(** [run] starts with [_previous_bits] reset and no local assigned. *)
Definition run_start (self : Astro) : Astro * Locals :=
  (set_previous_bits self no_previous_bits, unbound).

(** ** Regular expressions, as far as [_read_config] uses them *)

Module Re.

Inductive regex : Type :=
| Void
| Eps
| Class (p : ascii -> bool)
| Cat (r s : regex)
| Alt (r s : regex)
| Star (r : regex).

(** [r+] *)
Definition Plus (r : regex) : regex := Cat r (Star r).

(** [\d] on a byte string without flags *)
Definition digit (c : ascii) : bool :=
  let n := nat_of_ascii c in (48 <=? n)%nat && (n <=? 57)%nat.

(** A literal character *)
Definition chr (c : ascii) : regex := Class (Ascii.eqb c).

(** [$] at the end of a pattern: the end of the string, or the newline that
    ends the string. *)
Definition dollar : regex := Alt Eps (chr "010").

Fixpoint nullable (r : regex) : bool :=
  match r with
  | Void => false
  | Eps => true
  | Class _ => false
  | Cat r s => nullable r && nullable s
  | Alt r s => nullable r || nullable s
  | Star _ => true
  end.

Fixpoint deriv (c : ascii) (r : regex) : regex :=
  match r with
  | Void => Void
  | Eps => Void
  | Class p => if p c then Eps else Void
  | Cat r s =>
      if nullable r then Alt (Cat (deriv c r) s) (deriv c s)
      else Cat (deriv c r) s
  | Alt r s => Alt (deriv c r) (deriv c s)
  | Star r => Cat (deriv c r) (Star r)
  end.

(** Whether the pattern [r], which ends in [$], matches [s] from its start:
    [re.match(r, s)] is not [None]. *)
Fixpoint matchb (r : regex) (s : list ascii) : bool :=
  match s with
  | [] => nullable r
  | c :: s' => matchb (deriv c r) s'
  end.

(** The words of a pattern. *)
Inductive matches : regex -> list ascii -> Prop :=
| m_eps : matches Eps []
| m_class p c : p c = true -> matches (Class p) [c]
| m_cat r s u v : matches r u -> matches s v -> matches (Cat r s) (u ++ v)
| m_alt_l r s u : matches r u -> matches (Alt r s) u
| m_alt_r r s u : matches s u -> matches (Alt r s) u
| m_star_nil r : matches (Star r) []
| m_star_app r u v :
    matches r u -> matches (Star r) v -> matches (Star r) (u ++ v).

End Re.

(** ** Reading the configuration *)

(** [str.strip()]: the characters of [string.whitespace]. *)
Definition is_space (c : ascii) : bool :=
  let n := nat_of_ascii c in
  (n =? 32)%nat || ((9 <=? n)%nat && (n <=? 13)%nat).

Fixpoint lstrip (s : list ascii) : list ascii :=
  match s with
  | c :: s' => if is_space c then lstrip s' else s
  | [] => []
  end.

Definition strip (s : list ascii) : list ascii :=
  rev (lstrip (rev (lstrip s))).

(** The pattern [^(\d+\.\d+);(\d+\.\d+)$] *)
Definition decimal : Re.regex :=
  Re.Cat (Re.Plus (Re.Class Re.digit))
         (Re.Cat (Re.chr ".") (Re.Plus (Re.Class Re.digit))).

Definition coordinates_re : Re.regex :=
  Re.Cat decimal (Re.Cat (Re.chr ";") (Re.Cat decimal Re.dollar)).

(** The two groups of a string the pattern matches: the text before and
    after its semicolon. *)
Fixpoint groups (s : list ascii) : list ascii * list ascii :=
  match s with
  | [] => ([], [])
  | c :: s' =>
      if Ascii.eqb c ";" then ([], s')
      else let '(a, b) := groups s' in (c :: a, b)
  end.

(** The entries of [self._config] that [_read_config] reads.  An integer
    entry is [None] when the key is absent or [int(...)] raises
    [ValueError], the two cases in which the default is taken; a string
    entry is [None] when the key is absent. *)
Record Config : Type := {
  bright_bit : option Z;
  horizon_bit : option Z;
  civil_bit : option Z;
  nautical_bit : option Z;
  astronomical_bit : option Z;
  bright_offset : option Z;
  group_action : option Z;
  coordinates : option string;
  location : option string
}.

Definition get {A} (entry : option A) (default : A) : A :=
  match entry with Some v => v | None => default end.

(** [Astro._enable_plugin] *)
Definition _enable_plugin (self : Astro) : Astro :=
  _sleep (set_previous_bits (set_enabled self true) no_previous_bits) 0.

(** [Astro._read_config]: the instance afterwards, and whether the thread
    that runs [_translate_address], which asks the geocoding service for the
    coordinates of [location], was started. *)
Definition _read_config (config : Config) (self : Astro) : Astro * bool :=
  let self :=
    {| _bright_bit := get (bright_bit config) (-1);
       _horizon_bit := get (horizon_bit config) (-1);
       _civil_bit := get (civil_bit config) (-1);
       _nautical_bit := get (nautical_bit config) (-1);
       _astronomical_bit := get (astronomical_bit config) (-1);
       _bright_offset := get (bright_offset config) 60;
       _group_action := get (group_action config) (-1);
       _previous_bits := no_previous_bits;
       _enabled := false;
       _latitude := _latitude self; _longitude := _longitude self;
       sunrise_data := sunrise_data self;
       _sleep_until := _sleep_until self |} in
  let coordinates :=
    strip (list_ascii_of_string (get (coordinates config) ""%string)) in
  if Re.matchb coordinates_re coordinates then
    let '(lat, lng) := groups coordinates in
    (_enable_plugin
       (set_coordinates self (string_of_list_ascii lat)
                        (string_of_list_ascii lng)), false)
  else (self, true).

(** ** Notions used in the statements *)

(** The eight boundaries of an answer after [_convert]: [None] is a boundary
    the service reports in 1970, one that does not occur that day. *)
Record Boundaries : Type := {
  b_sunrise : option datetime;
  b_sunset : option datetime;
  b_civil_beg : option datetime;
  b_civil_end : option datetime;
  b_nautical_beg : option datetime;
  b_nautical_end : option datetime;
  b_astronomical_beg : option datetime;
  b_astronomical_end : option datetime
}.

(** Every timestamp of the answer [r] is well formed, and [b] is what
    [_convert] makes of them. *)
Definition parsed (r : Api.results) (b : Boundaries) : Prop :=
  _convert (Api.sunrise r) = inr (b_sunrise b) /\
  _convert (Api.sunset r) = inr (b_sunset b) /\
  _convert (Api.civil_twilight_begin r) = inr (b_civil_beg b) /\
  _convert (Api.civil_twilight_end r) = inr (b_civil_end b) /\
  _convert (Api.nautical_twilight_begin r) = inr (b_nautical_beg b) /\
  _convert (Api.nautical_twilight_end r) = inr (b_nautical_end b) /\
  _convert (Api.astronomical_twilight_begin r) = inr (b_astronomical_beg b) /\
  _convert (Api.astronomical_twilight_end r) = inr (b_astronomical_end b).

(** A boundary pair is present when both its ends are. *)
Definition present (beg end_ : option datetime) : bool :=
  is_not_None beg && is_not_None end_.

(** [beg < now < end_] *)
Definition window (beg end_ now : datetime) : bool :=
  (beg <? now) && (now <? end_).

(** The data the iteration works on: the answer, or the cached one. *)
Definition data_in_use (w : World) (self : Astro) : exn + Api.response :=
  snd (get_sun_data_or_cached w self).

(** The instance once [get_sun_data_or_cached] has returned. *)
Definition after_fetch (w : World) (self : Astro) : Astro :=
  fst (get_sun_data_or_cached w self).

(** The flags of an evaluation. *)
Definition bright (bits : list bool) : bool := item 0 bits.
Definition daylight (bits : list bool) : bool := item 1 bits.
Definition civil (bits : list bool) : bool := item 2 bits.
Definition nautical (bits : list bool) : bool := item 3 bits.
Definition astronomical (bits : list bool) : bool := item 4 bits.

(** bright => day => civil => nautical => astronomical *)
Definition nested (bits : list bool) : Prop :=
  (bright bits = true -> daylight bits = true) /\
  (daylight bits = true -> civil bits = true) /\
  (civil bits = true -> nautical bits = true) /\
  (nautical bits = true -> astronomical bits = true).

(** *** What the evaluation computes when the sun rises and sets *)

(** One edge-tracking step of the sleep: inside the window the end edge
    counts, otherwise the begin edge when the guard [before] holds. *)
Definition track (inside before : bool) (to_end to_beg sleep : timedelta)
  : timedelta :=
  if inside then Z.min sleep to_end
  else if before then Z.min sleep to_beg
  else sleep.

Definition twilight_flag (beg end_ : option datetime) (now : datetime)
    (previous : bool) : bool :=
  match beg, end_ with
  | Some b, Some e => window b e now
  | _, _ => negb previous
  end.

Definition twilight_sleep (beg end_ : option datetime) (now sr : datetime)
    (sleep : timedelta) : timedelta :=
  match beg, end_ with
  | Some b, Some e => track (window b e now) (now <? sr) (e - now) (b - now) sleep
  | _, _ => sleep
  end.

Definition bright_flag (bb be now : datetime) : bool :=
  (bb <? be) && window bb be now.

Definition bright_sleep (bb be now : datetime) (sleep : timedelta) : timedelta :=
  if bb <? be
  then track (window bb be now) (now <? bb) (int (be - now)) (int (bb - now)) sleep
  else sleep.

Definition sun_flags (offset : Z) (sr ss : datetime) (b : Boundaries)
    (now : datetime) : list bool :=
  let f0 := bright_flag (sr + minutes offset) (ss - minutes offset) now in
  let f1 := window sr ss now in
  let f2 := twilight_flag (b_civil_beg b) (b_civil_end b) now f1 in
  let f3 := twilight_flag (b_nautical_beg b) (b_nautical_end b) now f2 in
  let f4 := twilight_flag (b_astronomical_beg b) (b_astronomical_end b) now f3 in
  [f0; f1; f2; f3; f4].

Definition sun_sleep (offset : Z) (sr ss : datetime) (b : Boundaries)
    (now local_now : datetime) : timedelta :=
  let s := 24 * 60 * 60 * second in
  let s := bright_sleep (sr + minutes offset) (ss - minutes offset) now s in
  let s := track (window sr ss now) (now <? sr) (ss - now) (sr - now) s in
  let s := twilight_sleep (b_civil_beg b) (b_civil_end b) now sr s in
  let s := twilight_sleep (b_nautical_beg b) (b_nautical_end b) now sr s in
  let s := twilight_sleep (b_astronomical_beg b) (b_astronomical_end b) now sr s in
  Z.min s (_seconds_to_tomorrow local_now).

(** A day on which the sun rises at [sr] and sets at [ss]: the answer is
    well formed, and the bright window is a pair of datetimes. *)
Definition sun_day (self : Astro) (r : Api.results) (b : Boundaries)
    (sr ss : datetime) : Prop :=
  parsed r b /\ b_sunrise b = Some sr /\ b_sunset b = Some ss /\
  representable (sr + minutes (_bright_offset self)) = true /\
  representable (ss - minutes (_bright_offset self)) = true.

(** *** Edges *)

Definition pair_edges (beg end_ : option datetime) : list datetime :=
  match beg, end_ with
  | Some b, Some e => [b; e]
  | _, _ => []
  end.

(** The edges of the flags of a day on which the sun rises and sets: those
    of the bright window when it is not empty, and those of the pairs that
    are present. *)
Definition edges (offset : Z) (sr ss : datetime) (b : Boundaries)
  : list datetime :=
  (if sr + minutes offset <? ss - minutes offset
   then [sr + minutes offset; ss - minutes offset] else [])
  ++ [sr; ss]
  ++ pair_edges (b_civil_beg b) (b_civil_end b)
  ++ pair_edges (b_nautical_beg b) (b_nautical_end b)
  ++ pair_edges (b_astronomical_beg b) (b_astronomical_end b).

(** [e] is the nearest of the edges [es] that lies after [now]. *)
Definition nearest_upcoming (es : list datetime) (now e : datetime) : bool :=
  existsb (Z.eqb e) es && (now <? e)
  && forallb (fun x => negb (now <? x) || (e <=? x)) es.

(** A twilight window that is present encloses the day. *)
Definition encloses (beg end_ : option datetime) (sr ss : datetime) : bool :=
  match beg, end_ with
  | Some b, Some e => (b <=? sr) && (ss <=? e)
  | _, _ => true
  end.

(** The sleep an iteration asks for, counted from its reading of the
    clock. *)
Definition wake_delta (w : World) (after : Astro) : timedelta :=
  _sleep_until after - time_time w.

(** The calls that set or clear a bit. *)
Definition is_set_bit (c : call) : bool :=
  match c with
  | do_basic_action t _ => (t =? 237) || (t =? 238)
  end.

(** The five output bits with the index of their flag. *)
Definition outputs (self : Astro) : list (nat * Z) :=
  [(0%nat, _bright_bit self); (1%nat, _horizon_bit self);
   (2%nat, _civil_bit self); (3%nat, _nautical_bit self);
   (4%nat, _astronomical_bit self)].

(** *** Coordinates *)

(** The [coordinates] entry as [_read_config] reads it, before [strip]. *)
Definition coordinates_entry (config : Config) : list ascii :=
  list_ascii_of_string (get (coordinates config) ""%string).

Definition is_number (s : list ascii) : Prop :=
  s <> [] /\ forallb Re.digit s = true.

(** Two numbers with a fractional part each, written with a dot, and a
    semicolon between them. *)
Definition lat_long (s : list ascii) : Prop :=
  exists a b c d,
    is_number a /\ is_number b /\ is_number c /\ is_number d /\
    s = a ++ "."%char :: b ++ ";"%char :: c ++ "."%char :: d.

(** *** Sample data: 2024-06-21 *)

Module Sample.

(** Seconds since 1970 of [h]:[m] UTC on 2024-06-21. *)
Definition at_ (h m : Z) : Z := 1718928000 + h * 3600 + m * 60.
Definition clock (h m : Z) : Api.dt_string := Api.Timestamp (at_ h m).
Definition instant (h m : Z) : datetime := at_ h m * second.

(** What the service answers for a boundary that does not occur. *)
Definition never : Api.dt_string := Api.Timestamp 1.

(** A day at 50 degrees north around the solstice: there is no astronomical
    night, so the astronomical pair is reported in 1970. *)
Definition midsummer : Api.results :=
  {| Api.sunrise := clock 3 30; Api.sunset := clock 20 0;
     Api.civil_twilight_begin := clock 2 45;
     Api.civil_twilight_end := clock 20 45;
     Api.nautical_twilight_begin := clock 1 40;
     Api.nautical_twilight_end := clock 21 50;
     Api.astronomical_twilight_begin := never;
     Api.astronomical_twilight_end := never |}.

(** A day whose four pairs are all present. *)
Definition equinox : Api.results :=
  {| Api.sunrise := clock 6 0; Api.sunset := clock 20 0;
     Api.civil_twilight_begin := clock 5 30;
     Api.civil_twilight_end := clock 20 30;
     Api.nautical_twilight_begin := clock 5 0;
     Api.nautical_twilight_end := clock 21 0;
     Api.astronomical_twilight_begin := clock 4 30;
     Api.astronomical_twilight_end := clock 21 30 |}.

(** Sunrise and sunset alone. *)
Definition sun_only : Api.results :=
  {| Api.sunrise := clock 6 0; Api.sunset := clock 20 0;
     Api.civil_twilight_begin := never; Api.civil_twilight_end := never;
     Api.nautical_twilight_begin := never;
     Api.nautical_twilight_end := never;
     Api.astronomical_twilight_begin := never;
     Api.astronomical_twilight_end := never |}.

(** No boundary at all. *)
Definition polar : Api.results :=
  {| Api.sunrise := never; Api.sunset := never;
     Api.civil_twilight_begin := never; Api.civil_twilight_end := never;
     Api.nautical_twilight_begin := never;
     Api.nautical_twilight_end := never;
     Api.astronomical_twilight_begin := never;
     Api.astronomical_twilight_end := never |}.

(** Civil twilight all night: the civil pair is present, the sun's is not. *)
Definition white_night : Api.results :=
  {| Api.sunrise := never; Api.sunset := never;
     Api.civil_twilight_begin := clock 1 0;
     Api.civil_twilight_end := clock 23 0;
     Api.nautical_twilight_begin := never;
     Api.nautical_twilight_end := never;
     Api.astronomical_twilight_begin := never;
     Api.astronomical_twilight_end := never |}.

(** A sunset before the sunrise. *)
Definition reversed : Api.results :=
  {| Api.sunrise := clock 20 0; Api.sunset := clock 6 0;
     Api.civil_twilight_begin := never; Api.civil_twilight_end := never;
     Api.nautical_twilight_begin := never;
     Api.nautical_twilight_end := never;
     Api.astronomical_twilight_begin := never;
     Api.astronomical_twilight_end := never |}.

(** Civil twilight that begins after sunrise. *)
Definition late_civil : Api.results :=
  {| Api.sunrise := clock 6 0; Api.sunset := clock 20 0;
     Api.civil_twilight_begin := clock 6 45;
     Api.civil_twilight_end := clock 21 0;
     Api.nautical_twilight_begin := never;
     Api.nautical_twilight_end := never;
     Api.astronomical_twilight_begin := never;
     Api.astronomical_twilight_end := never |}.

Definition boundaries (r : Api.results) : Boundaries :=
  let value s :=
    match _convert s with inr v => v | inl _ => None end in
  {| b_sunrise := value (Api.sunrise r); b_sunset := value (Api.sunset r);
     b_civil_beg := value (Api.civil_twilight_begin r);
     b_civil_end := value (Api.civil_twilight_end r);
     b_nautical_beg := value (Api.nautical_twilight_begin r);
     b_nautical_end := value (Api.nautical_twilight_end r);
     b_astronomical_beg := value (Api.astronomical_twilight_begin r);
     b_astronomical_end := value (Api.astronomical_twilight_end r) |}.

Definition ok (r : Api.results) : Api.response :=
  {| Api.status := "OK"; Api.body := r |}.

(** An instance with every bit and the group action configured. *)
Definition configured (offset : Z) : Astro :=
  {| _bright_bit := 10; _horizon_bit := 11; _civil_bit := 12;
     _nautical_bit := 13; _astronomical_bit := 14;
     _bright_offset := offset; _group_action := 7;
     _previous_bits := no_previous_bits; _enabled := true;
     _latitude := Some "50.85"%string; _longitude := Some "4.35"%string;
     sunrise_data := None; _sleep_until := 0 |}.

Definition plugin : Astro := configured 60.

(** An instance whose bright bit is set to -2 and which uses nothing else. *)
Definition minus_two : Astro :=
  {| _bright_bit := -2; _horizon_bit := -1; _civil_bit := -1;
     _nautical_bit := -1; _astronomical_bit := -1;
     _bright_offset := 60; _group_action := -1;
     _previous_bits := no_previous_bits; _enabled := true;
     _latitude := Some "50.85"%string; _longitude := Some "4.35"%string;
     sunrise_data := None; _sleep_until := 0 |}.

(** The configured instance after a request that was answered [equinox]. *)
Definition cached : Astro := set_sunrise_data plugin (ok equinox).

(** The world of an iteration at [h]:[m] UTC of the next day. *)
Definition next_day (w : World) : World :=
  {| utcnow := utcnow w + day; answer := answer w;
     local_now := local_now w + day; time_time := time_time w + day |}.

(** The world of an iteration at [h]:[m] UTC that is answered [a]; the local
    clock is UTC. *)
Definition world (h m : Z) (a : exn + Api.response) : World :=
  {| utcnow := instant h m; answer := a; local_now := instant h m;
     time_time := instant h m |}.

(** A configuration that gives only the [coordinates] entry. *)
Definition manual (entry : string) : Config :=
  {| bright_bit := None; horizon_bit := None; civil_bit := None;
     nautical_bit := None; astronomical_bit := None; bright_offset := None;
     group_action := None; coordinates := Some entry; location := None |}.

Definition brussels : Config := manual " 50.85;4.35 ".
Definition sydney : Config := manual "-33.86;151.21".
Definition whole_degrees : Config := manual "50;4.35".

End Sample.

(** * The rest of the plugin *)

(** ** Geocoding the location ([_translate_address]) *)

(** Lines 136-141: the wait, in minutes, that follows a failed attempt. *)
Definition next_wait (wait : Z) : Z :=
  if wait =? 0 then 1
  else if wait =? 1 then 5
  else if wait <? 60 then wait + 5
  else wait.

(** What one attempt meets.  The geocoding service answers with status [OK]
    and a first result whose latitude and longitude, as
    ['{0};{1}'.format] writes them, are [lat] and [lng]; or the attempt
    fails, with another status or with an exception.  After the wait that
    follows a failure the thread reads [self._enabled], which the thread that
    serves [set_config] may have set in the mean time. *)
Inductive geocoded : Type :=
| Located (lat lng : string)
| Failed.

Record Attempt : Type := {
  geocoder : geocoded;
  enabled_after_wait : bool
}.

(** How the thread ends; [StillTrying] when the attempts given are used up
    and the loop goes on. *)
Inductive thread_end : Type :=
| NoLocation
| Geocoded
| EnabledMeanwhile
| StillTrying (wait : Z).

Definition set_config_coordinates (config : Config) (v : string) : Config :=
  {| bright_bit := bright_bit config; horizon_bit := horizon_bit config;
     civil_bit := civil_bit config; nautical_bit := nautical_bit config;
     astronomical_bit := astronomical_bit config;
     bright_offset := bright_offset config;
     group_action := group_action config;
     coordinates := Some v; location := location config |}.

(** The loop of lines 122-145: the configuration and the instance
    afterwards, the waits slept, in minutes, and how the thread ended. *)
Fixpoint translate_loop (attempts : list Attempt) (wait : Z) (config : Config)
    (self : Astro) : Config * Astro * list Z * thread_end :=
  match attempts with
  | [] => (config, self, [], StillTrying wait)
  | a :: rest =>
      match geocoder a with
      | Located lat lng =>
          (set_config_coordinates config (lat ++ ";" ++ lng)%string,
           _enable_plugin (set_coordinates self lat lng), [], Geocoded)
      | Failed =>
          let wait := next_wait wait in
          if enabled_after_wait a
          then (config, self, [wait], EnabledMeanwhile)
          else
            let '(config', self', waits, e) :=
              translate_loop rest wait config self in
            (config', self', wait :: waits, e)
      end
  end.

(** [Astro._translate_address] *)
Definition _translate_address (attempts : list Attempt) (config : Config)
    (self : Astro) : Config * Astro * list Z * thread_end :=
  match strip (list_ascii_of_string (get (location config) ""%string)) with
  | [] => (config, self, [], NoLocation)
  | _ :: _ => translate_loop attempts 0 config self
  end.

(** The wait that follows the [n]-th failure in a row, counted from 0. *)
Definition wait_after (n : nat) : Z :=
  match n with
  | O => 1
  | S _ => Z.min 60 (5 * Z.of_nat n)
  end.

(** ** The sleep manager ([_sleep_manager] and [_sleep]) *)

(** The event [_sleeper] beside the instance, which holds [_sleep_until]. *)
Definition Sleeper : Type := (Astro * bool)%type.

(** One pass of the loop of [_sleep_manager], at the reading [time] of
    [time.time()]: lines 159-160. *)
Definition manager_pass (time : Z) (s : Sleeper) : Sleeper :=
  let '(self, is_set) := s in
  if negb is_set && (_sleep_until self <? time) then (self, true)
  else (self, is_set).

(** The passes made at the readings [times], in order. *)
Definition manager_passes (times : list Z) (s : Sleeper) : Sleeper :=
  fold_left (fun s time => manager_pass time s) times s.

(** [Astro._sleep(timestamp)] up to its [wait()]: the deadline is stored and
    the event cleared; the caller goes on when the event is set. *)
Definition begin_sleep (timestamp : Z) (s : Sleeper) : Sleeper :=
  (_sleep (fst s) timestamp, false).

(** ** Frames *)

(** What [run] never writes: the configuration of the instance, its
    coordinates and whether it is enabled. *)
Definition same_settings (s1 s2 : Astro) : Prop :=
  outputs s1 = outputs s2 /\
  _bright_offset s1 = _bright_offset s2 /\
  _group_action s1 = _group_action s2 /\
  _enabled s1 = _enabled s2 /\
  _latitude s1 = _latitude s2 /\
  _longitude s1 = _longitude s2.

(** An instance that is wired to nothing: no output bit and no group
    action. *)
Definition unwired (self : Astro) : Prop :=
  Forall (fun o => snd o <= -1) (outputs self) /\ _group_action self = -1.

(** A text without whitespace at either end. *)
Definition trimmed (s : list ascii) : Prop :=
  match s with
  | [] => True
  | c :: _ => is_space c = false /\ is_space (last s c) = false
  end.

(** A twilight pair that is present and whose window does not hold
    [now]. *)
Definition misses (beg end_ : option datetime) (now : datetime) : bool :=
  match beg, end_ with
  | Some x, Some y => negb (window x y now)
  | _, _ => false
  end.

(** ** More sample data *)

Module Scenario.

(** A day on which the sun neither rises nor sets while civil twilight lasts
    from 01:00 to 23:00, evaluated with locals left by an earlier day. *)
Definition stale : Locals :=
  {| bright_beg := Some (Sample.instant 7 0);
     bright_end := Some (Sample.instant 19 0) |}.

(** The same kind of day on 2024-06-22: civil twilight from 01:00 to 23:00
    of that day, no sunrise and no sunset. *)
Definition white_night_tomorrow : Api.results :=
  {| Api.sunrise := Sample.never; Api.sunset := Sample.never;
     Api.civil_twilight_begin := Sample.clock 25 0;
     Api.civil_twilight_end := Sample.clock 47 0;
     Api.nautical_twilight_begin := Sample.never;
     Api.nautical_twilight_end := Sample.never;
     Api.astronomical_twilight_begin := Sample.never;
     Api.astronomical_twilight_end := Sample.never |}.

(** A service that is down twice and then locates Brussels. *)
Definition third_time_lucky : list Attempt :=
  [ {| geocoder := Failed; enabled_after_wait := false |};
    {| geocoder := Failed; enabled_after_wait := false |};
    {| geocoder := Located "50.85" "4.35"; enabled_after_wait := false |} ].

Definition located (place lat lng : string) : Config * list Attempt :=
  ({| bright_bit := None; horizon_bit := None; civil_bit := None;
      nautical_bit := None; astronomical_bit := None; bright_offset := None;
      group_action := None; coordinates := None; location := Some place |},
   [ {| geocoder := Located lat lng; enabled_after_wait := false |} ]).

(** An answer that is refused. *)
Definition refused : Api.response :=
  {| Api.status := "INVALID_REQUEST"; Api.body := Sample.polar |}.

(** An answer whose civil twilight does not parse. *)
Definition garbled : Api.results :=
  {| Api.sunrise := Sample.clock 6 0; Api.sunset := Sample.clock 20 0;
     Api.civil_twilight_begin := Api.Malformed;
     Api.civil_twilight_end := Sample.clock 20 30;
     Api.nautical_twilight_begin := Sample.never;
     Api.nautical_twilight_end := Sample.never;
     Api.astronomical_twilight_begin := Sample.never;
     Api.astronomical_twilight_end := Sample.never |}.

(** A configuration with coordinates, bits and a group action. *)
Definition wired : Config :=
  {| bright_bit := Some 10; horizon_bit := Some 11; civil_bit := Some 12;
     nautical_bit := Some 13; astronomical_bit := Some 14;
     bright_offset := Some 60; group_action := Some 7;
     coordinates := Some " 50.85;4.35 "%string; location := None |}.

(** An offset of a million days. *)
Definition far_offset : Z := 1440000000.

(** An instance wired to nothing. *)
Definition idle : Astro :=
  {| _bright_bit := -1; _horizon_bit := -1; _civil_bit := -1;
     _nautical_bit := -1; _astronomical_bit := -1;
     _bright_offset := 60; _group_action := -1;
     _previous_bits := no_previous_bits; _enabled := true;
     _latitude := Some "50.85"%string; _longitude := Some "4.35"%string;
     sunrise_data := None; _sleep_until := 0 |}.

(** A disabled instance. *)
Definition disabled : Astro := set_enabled Sample.plugin false.

End Scenario.

(** Case analysis on every comparison in sight. *)
Ltac compare_all :=
  repeat match goal with
    | |- context [?x <? ?y] => destruct (Z.ltb_spec x y)
    | |- context [?x <=? ?y] => destruct (Z.leb_spec x y)
    | H : context [?x <? ?y] |- _ => destruct (Z.ltb_spec x y)
    | H : context [?x <=? ?y] |- _ => destruct (Z.leb_spec x y)
    end;
  cbn [andb orb negb] in *.

(** Splitting a hypothesis on the matches and tests it contains. *)
Ltac split_matches H :=
  repeat match type of H with
    | context [match ?x with _ => _ end] => destruct x eqn:?
    | context [if ?x then _ else _] => destruct x eqn:?
    end;
  try discriminate.

(** Equations between pairs, taken apart. *)
Ltac invert_pairs :=
  repeat match goal with
    | E : (_, _) = (_, _) |- _ => inversion E; subst; clear E
    end.

(** * Properties *)

(** ** The evaluation when the sun rises and sets *)

Lemma analyse_bright_bound (d : Loaded) (now b e : datetime) (bits : list bool)
    (sleep : timedelta) :
  forall l, bright_beg l = Some b -> bright_end l = Some e ->
  has_bright d = (b <? e) ->
  analyse_bright d now (bits, sleep) l =
  (l, inr (store 0 (bright_flag b e now) bits, bright_sleep b e now sleep)).
Proof.
  intros l Hb He Hd.
  destruct l as [lb le]; cbn in Hb, He; subst lb le.
  unfold analyse_bright, bright_flag, bright_sleep, window, track.
  rewrite Hd.
  destruct (b <? e); cbn [negb andb]; [ | reflexivity ].
  cbv beta iota zeta
    delta [bind read_bright_beg read_bright_end ret bright_beg bright_end].
  destruct (b <? now); cbn [andb].
  - destruct (now <? e); [ reflexivity | ].
    destruct (now <? b); reflexivity.
  - destruct (now <? b); reflexivity.
Qed.

Lemma analyse_day_sun (d : Loaded) (now sr ss : datetime) (bits : list bool)
    (sleep : timedelta) (l : Locals) :
  has_sun d = true -> sunrise d = Some sr -> sunset d = Some ss ->
  analyse_day d now (bits, sleep) l =
  (l, inr (store 1 (window sr ss now) bits,
           track (window sr ss now) (now <? sr) (ss - now) (sr - now) sleep)).
Proof.
  intros Hs Hsr Hss.
  unfold analyse_day, window, track. rewrite Hs, Hsr, Hss.
  cbn [negb]. unfold bind, between, lt, seconds_between, bind, ret.
  destruct (sr <? now); cbn [andb].
  - destruct (now <? ss); [ reflexivity | ].
    destruct (now <? sr); reflexivity.
  - destruct (now <? sr); reflexivity.
Qed.

Lemma analyse_twilight_sun (i : nat) (beg end_ : option datetime)
    (d : Loaded) (now sr : datetime) (bits : list bool) (sleep : timedelta)
    (l : Locals) :
  sunrise d = Some sr ->
  analyse_twilight i (present beg end_) beg end_ true d now (bits, sleep) l =
  (l, inr (store i (twilight_flag beg end_ now (item (Nat.pred i) bits)) bits,
           twilight_sleep beg end_ now sr sleep)).
Proof.
  intros Hsr.
  unfold analyse_twilight, twilight_flag, twilight_sleep, window, track.
  rewrite Hsr.
  destruct beg as [x | ], end_ as [y | ]; cbn [present is_not_None andb negb];
    try reflexivity.
  unfold bind, between, lt, seconds_between, bind, ret.
  destruct (x <? now); cbn [andb].
  - destruct (now <? y); [ reflexivity | ].
    destruct (now <? sr); reflexivity.
  - destruct (now <? sr); reflexivity.
Qed.

Section SunRisesAndSets.

Variable self : Astro.
Variable r : Api.results.
Variable b : Boundaries.
Variables sr ss : datetime.

Hypothesis Hparsed : parsed r b.
Hypothesis Hsunrise : b_sunrise b = Some sr.
Hypothesis Hsunset : b_sunset b = Some ss.

Hypothesis Hbb : representable (sr + minutes (_bright_offset self)) = true.
Hypothesis Hbe : representable (ss - minutes (_bright_offset self)) = true.

Lemma load_data_sun (l : Locals) :
  load_data self r l =
  ({| bright_beg := Some (sr + minutes (_bright_offset self));
      bright_end := Some (ss - minutes (_bright_offset self)) |},
   inr {| sunrise := Some sr; sunset := Some ss;
          has_sun := true;
          has_bright := sr + minutes (_bright_offset self)
                        <? ss - minutes (_bright_offset self);
          civil_beg := b_civil_beg b; civil_end := b_civil_end b;
          has_civil := present (b_civil_beg b) (b_civil_end b);
          nautical_beg := b_nautical_beg b; nautical_end := b_nautical_end b;
          has_nautical := present (b_nautical_beg b) (b_nautical_end b);
          astronomical_beg := b_astronomical_beg b;
          astronomical_end := b_astronomical_end b;
          has_astronomical :=
            present (b_astronomical_beg b) (b_astronomical_end b) |}).
Proof.
  destruct Hparsed as (H1 & H2 & H3 & H4 & H5 & H6 & H7 & H8).
  unfold load_data, bind, lift.
  rewrite H1, H2, H3, H4, H5, H6, H7, H8, Hsunrise, Hsunset.
  unfold load_bright, bind, datetime_add.
  replace (ss + - minutes (_bright_offset self))
    with (ss - minutes (_bright_offset self)) by lia.
  rewrite Hbb, Hbe. reflexivity.
Qed.

(** The evaluation returns, and what it returns. *)
Lemma evaluate_sun (now local_now : datetime) (l : Locals) :
  evaluate self r now local_now l =
  ({| bright_beg := Some (sr + minutes (_bright_offset self));
      bright_end := Some (ss - minutes (_bright_offset self)) |},
   inr (sun_flags (_bright_offset self) sr ss b now,
        sun_sleep (_bright_offset self) sr ss b now local_now,
        phase_name (sun_flags (_bright_offset self) sr ss b now))).
Proof.
  unfold evaluate, bind at 1. rewrite load_data_sun.
  unfold analyse_data. cbn [has_sun orb negb].
  unfold bind at 1.
  erewrite analyse_bright_bound; [ | reflexivity | reflexivity | reflexivity ].
  unfold bind at 1.
  erewrite analyse_day_sun; [ | reflexivity | reflexivity | reflexivity ].
  unfold bind at 1. cbn [has_civil civil_beg civil_end].
  erewrite analyse_twilight_sun; [ | reflexivity ].
  unfold bind at 1. cbn [has_nautical nautical_beg nautical_end].
  erewrite analyse_twilight_sun; [ | reflexivity ].
  unfold bind at 1. cbn [has_astronomical astronomical_beg astronomical_end].
  erewrite analyse_twilight_sun; [ | reflexivity ].
  reflexivity.
Qed.

End SunRisesAndSets.

Lemma evaluate_sun_day self r b sr ss now local_now l :
  sun_day self r b sr ss ->
  evaluate self r now local_now l =
  ({| bright_beg := Some (sr + minutes (_bright_offset self));
      bright_end := Some (ss - minutes (_bright_offset self)) |},
   inr (sun_flags (_bright_offset self) sr ss b now,
        sun_sleep (_bright_offset self) sr ss b now local_now,
        phase_name (sun_flags (_bright_offset self) sr ss b now))).
Proof.
  intros (Hp & Hsr & Hss & Hb & He). now apply evaluate_sun.
Qed.

Lemma window_empty (beg end_ now : datetime) :
  end_ <= beg -> window beg end_ now = false.
Proof. unfold window. intros. compare_all; try reflexivity; lia. Qed.

Lemma sample_sun_day (offset : Z) (r : Api.results) (sr ss : datetime) :
  _convert (Api.sunrise r) = inr (Some sr) ->
  _convert (Api.sunset r) = inr (Some ss) ->
  parsed r (Sample.boundaries r) ->
  representable (sr + minutes offset) = true ->
  representable (ss - minutes offset) = true ->
  sun_day (Sample.configured offset) r (Sample.boundaries r) sr ss.
Proof.
  intros H1 H2 Hp Hb He. unfold sun_day.
  split; [ exact Hp | ].
  unfold Sample.boundaries. cbn [b_sunrise b_sunset]. rewrite H1, H2.
  repeat split; assumption.
Defined.

Lemma sun_only_day (offset : Z) :
  representable (Sample.instant 6 0 + minutes offset) = true ->
  representable (Sample.instant 20 0 - minutes offset) = true ->
  sun_day (Sample.configured offset) Sample.sun_only
    (Sample.boundaries Sample.sun_only)
    (Sample.instant 6 0) (Sample.instant 20 0).
Proof.
  intros Hb He.
  apply sample_sun_day; [ reflexivity | reflexivity | | exact Hb | exact He ].
  repeat split; reflexivity.
Defined.

Lemma equinox_day :
  sun_day Sample.plugin Sample.equinox (Sample.boundaries Sample.equinox)
    (Sample.instant 6 0) (Sample.instant 20 0).
Proof.
  apply (sample_sun_day 60); try reflexivity. repeat split; reflexivity.
Defined.

(** ** Fallback of the civil flag *)

(** C2. When the civil pair is absent and sunrise and sunset are present,
    the evaluation returns flags, and its civil flag is the negation of its
    day flag, whatever [now] is. *)
Theorem civil_fallback_negates_day self r b sr ss now local_now l :
  sun_day self r b sr ss ->
  present (b_civil_beg b) (b_civil_end b) = false ->
  exists l' bits sleep info,
    evaluate self r now local_now l = (l', inr (bits, sleep, info)) /\
    civil bits = negb (daylight bits).
Proof.
  intros Hday Habsent.
  rewrite (evaluate_sun_day _ _ _ _ _ now local_now l Hday).
  do 4 eexists. split; [ reflexivity | ].
  unfold civil, daylight, item, sun_flags. cbn [nth].
  unfold twilight_flag.
  destruct (b_civil_beg b), (b_civil_end b); try discriminate; reflexivity.
Qed.

Lemma civil_fallback_negates_day_witness :
  exists l' bits sleep info,
    evaluate Sample.plugin Sample.sun_only (Sample.instant 12 0)
      (Sample.instant 12 0) unbound = (l', inr (bits, sleep, info)) /\
    civil bits = negb (daylight bits).
Proof.
  apply (civil_fallback_negates_day Sample.plugin Sample.sun_only
           (Sample.boundaries Sample.sun_only)
           (Sample.instant 6 0) (Sample.instant 20 0)).
  - apply (sun_only_day 60); reflexivity.
  - reflexivity.
Defined.

(** ** An empty bright window *)



(** ** Iterations *)

Lemma after_fetch_config (w : World) (self : Astro) :
  _bright_offset (after_fetch w self) = _bright_offset self /\
  _previous_bits (after_fetch w self) = _previous_bits self /\
  _group_action (after_fetch w self) = _group_action self /\
  outputs (after_fetch w self) = outputs self.
Proof.
  unfold after_fetch, get_sun_data_or_cached.
  destruct (answer w); cbn; [ | repeat split ].
  destruct (sunrise_data self); repeat split.
Qed.

Lemma evaluate_offset (s1 s2 : Astro) r now local_now l :
  _bright_offset s1 = _bright_offset s2 ->
  evaluate s1 r now local_now l = evaluate s2 r now local_now l.
Proof.
  intros H. unfold evaluate, load_data. rewrite H. reflexivity.
Qed.

Lemma set_bits_outputs (s1 s2 : Astro) (bits : list bool) :
  outputs s1 = outputs s2 -> set_bits s1 bits = set_bits s2 bits.
Proof.
  unfold set_bits, outputs. intros H. injection H as -> -> -> -> ->.
  reflexivity.
Qed.

(** An enabled iteration whose data has status [OK] and whose evaluation
    returns: the bits are set, the zone change is looked at, and the sleep is
    the evaluation's plus five seconds. *)
Lemma run_iteration_evaluated w self l data l' bits sleep info :
  _enabled self = true ->
  data_in_use w self = inr data ->
  Api.status data = "OK"%string ->
  evaluate self (Api.body data) (utcnow w) (local_now w) l
    = (l', inr (bits, sleep, info)) ->
  run_iteration w self l =
  (_sleep (fst (zone_change (after_fetch w self) bits))
          (time_time w + sleep + 5 * second),
   l',
   set_bits self bits ++ snd (zone_change (after_fetch w self) bits)).
Proof.
  intros Hen Hdata Hok Hev.
  destruct (after_fetch_config w self) as (Hoff & _ & _ & Hout).
  rewrite <- (set_bits_outputs _ _ bits Hout).
  rewrite <- (evaluate_offset _ _ _ _ _ _ Hoff) in Hev.
  unfold run_iteration, data_in_use, after_fetch in *. rewrite Hen.
  destruct (get_sun_data_or_cached w self) as [self1 fetched].
  cbn [fst snd] in *. subst fetched. rewrite Hok.
  rewrite String.eqb_refl. rewrite Hev.
  destruct (zone_change self1 bits). reflexivity.
Qed.

(** An enabled iteration whose data has status [OK] and whose evaluation
    raises: nothing is called, and the sleep ends five seconds after the
    next local midnight. *)
Lemma run_iteration_raised w self l data l' e :
  _enabled self = true ->
  data_in_use w self = inr data ->
  Api.status data = "OK"%string ->
  evaluate self (Api.body data) (utcnow w) (local_now w) l = (l', inl e) ->
  run_iteration w self l =
  (sleep_until_tomorrow w (after_fetch w self), l', []).
Proof.
  intros Hen Hdata Hok Hev.
  destruct (after_fetch_config w self) as (Hoff & _).
  rewrite <- (evaluate_offset _ _ _ _ _ _ Hoff) in Hev.
  unfold run_iteration, data_in_use, after_fetch in *. rewrite Hen.
  destruct (get_sun_data_or_cached w self) as [self1 fetched].
  cbn [fst snd] in *. subst fetched. rewrite Hok.
  rewrite String.eqb_refl. rewrite Hev. reflexivity.
Qed.

(** The calls of [set_bits] set or clear a bit; those of [zone_change] do
    not. *)
Lemma set_bits_are_set_bit (self : Astro) (bits : list bool) :
  forallb is_set_bit (set_bits self bits) = true.
Proof.
  apply forallb_forall. intros c Hin. unfold set_bits in Hin.
  apply in_flat_map in Hin as ((i & bit) & _ & Hc).
  destruct (bit >? -1); [ | destruct Hc ].
  destruct Hc as [<- | []]. destruct (item i bits); reflexivity.
Qed.

Lemma zone_change_no_set_bit (self : Astro) (bits : list bool) :
  filter is_set_bit (snd (zone_change self bits)) = [].
Proof.
  unfold zone_change.
  destruct (negb (flags_eqb _ _)); [ | reflexivity ].
  cbn [snd]. destruct (negb (_ =? _)); reflexivity.
Qed.

Lemma filter_set_bits (s1 s2 : Astro) (bits : list bool) :
  filter is_set_bit (set_bits s1 bits ++ snd (zone_change s2 bits))
  = set_bits s1 bits.
Proof.
  rewrite filter_app, zone_change_no_set_bit, app_nil_r.
  apply forallb_filter_id, set_bits_are_set_bit.
Qed.

Lemma wake_delta_sleep (w : World) (self : Astro) (t : Z) :
  wake_delta w (_sleep self (time_time w + t)) = t.
Proof. unfold wake_delta, _sleep. cbn. lia. Qed.

Lemma previous_bits_sleep (self : Astro) (t : Z) :
  _previous_bits (_sleep self t) = _previous_bits self.
Proof. reflexivity. Qed.

(** ** Nesting of the flags *)

Lemma window_spec (beg end_ now : datetime) :
  window beg end_ now = true <-> beg < now < end_.
Proof. unfold window. rewrite andb_true_iff, !Z.ltb_lt. tauto. Qed.

(** C1.  The flags do not nest at noon of the sample midsummer day, whose
    astronomical pair is absent.  In the first iteration of [run] the
    evaluation returns day (bright) with the bright, day, civil and nautical
    flags set and the astronomical flag cleared, since line 287 makes it the
    negation of the nautical flag; the iteration sets the bits 10 to 13 and
    clears bit 14, the astronomical one, in full daylight.  On the sample
    day whose four pairs are present the same instant sets all five
    flags. *)
Theorem midsummer_noon_clears_the_astronomical_bit :
  evaluate Sample.plugin Sample.midsummer (Sample.instant 12 0)
    (Sample.instant 12 0) (snd (run_start Sample.plugin))
  = ({| bright_beg := Some (Sample.instant 4 30);
        bright_end := Some (Sample.instant 19 0) |},
     inr ([true; true; true; true; false],
          Sample.instant 19 0 - Sample.instant 12 0,
          "day (bright)"%string)) /\
  ~ nested [true; true; true; true; false] /\
  snd (run_iteration (Sample.world 12 0 (inr (Sample.ok Sample.midsummer)))
         (fst (run_start Sample.plugin)) (snd (run_start Sample.plugin)))
  = [do_basic_action 237 10; do_basic_action 237 11; do_basic_action 237 12;
     do_basic_action 237 13; do_basic_action 238 14; do_basic_action 2 7] /\
  evaluate Sample.plugin Sample.equinox (Sample.instant 12 0)
    (Sample.instant 12 0) (snd (run_start Sample.plugin))
  = ({| bright_beg := Some (Sample.instant 7 0);
        bright_end := Some (Sample.instant 19 0) |},
     inr ([true; true; true; true; true],
          Sample.instant 19 0 - Sample.instant 12 0,
          "day (bright)"%string)).
Proof.
  split; [ vm_compute; reflexivity | ].
  split.
  - unfold nested, nautical, astronomical, item. cbn [nth].
    intros (_ & _ & _ & H). specialize (H eq_refl). discriminate.
  - split; vm_compute; reflexivity.
Qed.

(** X26. The same happens through the whole daylight of every day that
    lacks a twilight pair: between sunrise and sunset the day flag is set,
    the civil, nautical and astronomical flags are not all set, and the
    flags do not nest.  The flag of the first absent pair is the negation of
    the flag before it (lines 265, 276 and 287). *)
Theorem daylight_without_a_pair_is_not_nested
    self r b sr ss now local_now l :
  sun_day self r b sr ss ->
  sr < now < ss ->
  present (b_civil_beg b) (b_civil_end b) = false \/
  present (b_nautical_beg b) (b_nautical_end b) = false \/
  present (b_astronomical_beg b) (b_astronomical_end b) = false ->
  exists l' bits sleep info,
    evaluate self r now local_now l = (l', inr (bits, sleep, info)) /\
    daylight bits = true /\
    civil bits && nautical bits && astronomical bits = false /\
    ~ nested bits.
Proof.
  intros Hday Hnow Habsent.
  rewrite (evaluate_sun_day _ _ _ _ _ now local_now l Hday).
  do 4 eexists. split; [ reflexivity | ].
  unfold nested, bright, daylight, civil, nautical, astronomical, item,
    sun_flags.
  cbn [nth]. clear Hday.
  apply window_spec in Hnow. rewrite Hnow.
  set (f2 := twilight_flag (b_civil_beg b) (b_civil_end b) now true).
  set (f3 := twilight_flag (b_nautical_beg b) (b_nautical_end b) now f2).
  set (f4 := twilight_flag (b_astronomical_beg b) (b_astronomical_end b)
               now f3).
  assert (Hall : f2 && f3 && f4 = false).
  { destruct Habsent as [H | [H | H]].
    - assert (E : f2 = false).
      { unfold f2, twilight_flag. unfold present in H.
        destruct (b_civil_beg b), (b_civil_end b); try discriminate;
          reflexivity. }
      rewrite E. reflexivity.
    - assert (E : f3 = negb f2).
      { unfold f3, twilight_flag at 1. unfold present in H.
        destruct (b_nautical_beg b), (b_nautical_end b); try discriminate;
          reflexivity. }
      rewrite E. destruct f2; reflexivity.
    - assert (E : f4 = negb f3).
      { unfold f4, twilight_flag at 1. unfold present in H.
        destruct (b_astronomical_beg b), (b_astronomical_end b);
          try discriminate; reflexivity. }
      rewrite E. destruct f2, f3; reflexivity. }
  split; [ reflexivity | ]. split; [ exact Hall | ].
  intros (_ & H1 & H2 & H3).
  rewrite (H1 eq_refl) in *. rewrite (H2 eq_refl) in *.
  rewrite (H3 eq_refl) in Hall. discriminate.
Qed.

Lemma daylight_without_a_pair_is_not_nested_witness :
  exists l' bits sleep info,
    evaluate Sample.plugin Sample.midsummer (Sample.instant 12 0)
      (Sample.instant 12 0) unbound = (l', inr (bits, sleep, info)) /\
    daylight bits = true /\
    civil bits && nautical bits && astronomical bits = false /\
    ~ nested bits.
Proof.
  apply (daylight_without_a_pair_is_not_nested Sample.plugin
           Sample.midsummer (Sample.boundaries Sample.midsummer)
           (Sample.instant 3 30) (Sample.instant 20 0)).
  - apply (sample_sun_day 60); try reflexivity. repeat split; reflexivity.
  - split; reflexivity.
  - right. right. reflexivity.
Defined.

(** Nor do the flags nest when a twilight window that is present does not
    enclose the day: each flag is computed from its own pair. *)
Remark late_civil_not_nested :
  exists l' bits sleep info,
    evaluate Sample.plugin Sample.late_civil (Sample.instant 6 30)
      (Sample.instant 6 30) unbound = (l', inr (bits, sleep, info)) /\
    ~ nested bits.
Proof.
  do 4 eexists. split; [ vm_compute; reflexivity | ].
  unfold nested, daylight, civil, item. cbn [nth].
  intros (_ & H & _). specialize (H eq_refl). discriminate.
Qed.

(** Nor under a negative bright offset, which widens the bright window
    beyond the day. *)
Remark negative_offset_not_nested :
  exists l' bits sleep info,
    evaluate (Sample.configured (-60)) Sample.equinox (Sample.instant 5 45)
      (Sample.instant 5 45) unbound = (l', inr (bits, sleep, info)) /\
    ~ nested bits.
Proof.
  do 4 eexists. split; [ vm_compute; reflexivity | ].
  unfold nested, bright, daylight, item. cbn [nth].
  intros (H & _). specialize (H eq_refl). discriminate.
Qed.

(** X25. What does nest, link by link, on a day with sunrise and sunset.
    The bright flag implies the day flag when the bright offset is not
    negative.  The day flag implies the civil flag when the civil pair is
    present and its window encloses sunrise..sunset.  The flag of a twilight
    level implies the flag of the next darker level when both pairs are
    present and the darker window encloses the brighter one.  No link needs
    a pair other than its own. *)
Theorem flags_nest_link_by_link self r b sr ss now local_now l :
  sun_day self r b sr ss ->
  exists l' bits sleep info,
    evaluate self r now local_now l = (l', inr (bits, sleep, info)) /\
    (0 <= _bright_offset self ->
     bright bits = true -> daylight bits = true) /\
    (forall cb ce,
       b_civil_beg b = Some cb -> b_civil_end b = Some ce ->
       cb <= sr -> ss <= ce ->
       daylight bits = true -> civil bits = true) /\
    (forall cb ce nb ne,
       b_civil_beg b = Some cb -> b_civil_end b = Some ce ->
       b_nautical_beg b = Some nb -> b_nautical_end b = Some ne ->
       nb <= cb -> ce <= ne ->
       civil bits = true -> nautical bits = true) /\
    (forall nb ne ab ae,
       b_nautical_beg b = Some nb -> b_nautical_end b = Some ne ->
       b_astronomical_beg b = Some ab -> b_astronomical_end b = Some ae ->
       ab <= nb -> ne <= ae ->
       nautical bits = true -> astronomical bits = true).
Proof.
  intros Hday.
  rewrite (evaluate_sun_day _ _ _ _ _ now local_now l Hday).
  do 4 eexists. split; [ reflexivity | ].
  unfold bright, daylight, civil, nautical, astronomical, item, sun_flags.
  cbn [nth]. clear Hday.
  split; [ | split; [ | split ] ].
  - intros Hoff. unfold bright_flag.
    assert (Hm : 0 <= minutes (_bright_offset self))
      by (unfold minutes, minute, second; lia).
    set (m := minutes (_bright_offset self)) in *. clearbody m.
    rewrite !andb_true_iff, !window_spec, Z.ltb_lt. lia.
  - intros cb ce -> -> H1 H2. unfold twilight_flag.
    rewrite !window_spec. lia.
  - intros cb ce nb ne -> -> -> -> H1 H2. unfold twilight_flag.
    rewrite !window_spec. lia.
  - intros nb ne ab ae -> -> -> -> H1 H2. unfold twilight_flag.
    rewrite !window_spec. lia.
Qed.

Lemma flags_nest_link_by_link_witness :
  exists l' bits sleep info,
    evaluate Sample.plugin Sample.equinox (Sample.instant 12 0)
      (Sample.instant 12 0) unbound = (l', inr (bits, sleep, info)) /\
    nested bits.
Proof.
  destruct (flags_nest_link_by_link Sample.plugin Sample.equinox
              (Sample.boundaries Sample.equinox)
              (Sample.instant 6 0) (Sample.instant 20 0)
              (Sample.instant 12 0) (Sample.instant 12 0) unbound
              equinox_day)
    as (l' & bits & sleep & info & Hev & H0 & H1 & H2 & H3).
  exists l', bits, sleep, info. split; [ exact Hev | ].
  unfold nested. split; [ | split; [ | split ] ].
  - apply H0. vm_compute. discriminate.
  - apply (H1 (Sample.instant 5 30) (Sample.instant 20 30));
      try reflexivity; vm_compute; discriminate.
  - apply (H2 (Sample.instant 5 30) (Sample.instant 20 30)
              (Sample.instant 5 0) (Sample.instant 21 0));
      try reflexivity; vm_compute; discriminate.
  - apply (H3 (Sample.instant 5 0) (Sample.instant 21 0)
              (Sample.instant 4 30) (Sample.instant 21 30));
      try reflexivity; vm_compute; discriminate.
Defined.

(** ** A pair whose begin is not before its end *)

(** C5, as stated, fails: the sample answer whose sunset is before its
    sunrise is evaluated like any other, and the iteration sets the bits. *)
Lemma reversed_pair_is_no_error :
  (exists l' evaluation,
     evaluate Sample.plugin Sample.reversed (Sample.instant 12 0)
       (Sample.instant 12 0) unbound = (l', inr evaluation)) /\
  snd (run_iteration (Sample.world 12 0 (inr (Sample.ok Sample.reversed)))
         Sample.plugin unbound)
  = [do_basic_action 238 10; do_basic_action 238 11; do_basic_action 237 12;
     do_basic_action 238 13; do_basic_action 237 14; do_basic_action 2 7].
Proof.
  split; [ do 2 eexists | ]; vm_compute; reflexivity.
Qed.

(** C5, amended.  The evaluation checks no pair.  On a day with sunrise and
    sunset present, it returns flags in which the flag of every present pair
    whose begin is not before its end is false, and the iteration goes on as
    after any evaluation: it sets the bits from these flags and sleeps for
    the evaluation's sleep plus five seconds. *)
Theorem reversed_pair_clears_its_flag w self l data b sr ss :
  _enabled self = true ->
  data_in_use w self = inr data ->
  Api.status data = "OK"%string ->
  sun_day self (Api.body data) b sr ss ->
  exists self' l' calls bits sleep info,
    evaluate self (Api.body data) (utcnow w) (local_now w) l
      = (l', inr (bits, sleep, info)) /\
    run_iteration w self l = (self', l', calls) /\
    filter is_set_bit calls = set_bits self bits /\
    wake_delta w self' = sleep + 5 * second /\
    (ss <= sr -> daylight bits = false) /\
    (forall cb ce, b_civil_beg b = Some cb -> b_civil_end b = Some ce ->
                   ce <= cb -> civil bits = false) /\
    (forall nb ne, b_nautical_beg b = Some nb -> b_nautical_end b = Some ne ->
                   ne <= nb -> nautical bits = false) /\
    (forall ab ae, b_astronomical_beg b = Some ab ->
                   b_astronomical_end b = Some ae ->
                   ae <= ab -> astronomical bits = false).
Proof.
  intros Hen Hdata Hok Hday.
  pose proof (evaluate_sun_day _ _ _ _ _ (utcnow w) (local_now w) l Hday)
    as Hev.
  rewrite (run_iteration_evaluated _ _ _ _ _ _ _ _ Hen Hdata Hok Hev).
  rewrite Hev. do 6 eexists.
  split; [ reflexivity | ]. split; [ reflexivity | ].
  split; [ apply filter_set_bits | ].
  split; [ rewrite <- Z.add_assoc; apply wake_delta_sleep | ].
  unfold daylight, civil, nautical, astronomical, item, sun_flags.
  cbn [nth]. unfold twilight_flag.
  split; [ intros; now apply window_empty | ].
  split; [ | split ]; intros x y -> -> Hxy; now apply window_empty.
Qed.

Lemma reversed_pair_clears_its_flag_witness :
  exists self' l' calls bits sleep info,
    evaluate Sample.plugin Sample.reversed (Sample.instant 12 0)
      (Sample.instant 12 0) unbound = (l', inr (bits, sleep, info)) /\
    run_iteration (Sample.world 12 0 (inr (Sample.ok Sample.reversed)))
      Sample.plugin unbound = (self', l', calls) /\
    filter is_set_bit calls = set_bits Sample.plugin bits /\
    wake_delta (Sample.world 12 0 (inr (Sample.ok Sample.reversed))) self'
      = sleep + 5 * second /\
    (Sample.instant 6 0 <= Sample.instant 20 0 -> daylight bits = false) /\
    (forall cb ce,
        b_civil_beg (Sample.boundaries Sample.reversed) = Some cb ->
        b_civil_end (Sample.boundaries Sample.reversed) = Some ce ->
        ce <= cb -> civil bits = false) /\
    (forall nb ne,
        b_nautical_beg (Sample.boundaries Sample.reversed) = Some nb ->
        b_nautical_end (Sample.boundaries Sample.reversed) = Some ne ->
        ne <= nb -> nautical bits = false) /\
    (forall ab ae,
        b_astronomical_beg (Sample.boundaries Sample.reversed) = Some ab ->
        b_astronomical_end (Sample.boundaries Sample.reversed) = Some ae ->
        ae <= ab -> astronomical bits = false).
Proof.
  apply (reversed_pair_clears_its_flag
           (Sample.world 12 0 (inr (Sample.ok Sample.reversed)))
           Sample.plugin unbound (Sample.ok Sample.reversed)
           (Sample.boundaries Sample.reversed)
           (Sample.instant 20 0) (Sample.instant 6 0)).
  - reflexivity.
  - reflexivity.
  - reflexivity.
  - apply (sample_sun_day 60); try reflexivity. repeat split; reflexivity.
Defined.

(** ** The sleep and the nearest edge *)

Lemma int_nonneg (d : timedelta) : 0 <= d -> 0 <= int d.
Proof.
  intros H. unfold int, second.
  pose proof (Z.quot_pos d 1000000 H). lia.
Qed.

Lemma int_le (d : timedelta) : 0 <= d -> int d <= d.
Proof.
  intros H. unfold int, second.
  pose proof (Z.mul_quot_le d 1000000 H). lia.
Qed.

Lemma seconds_to_tomorrow_nonneg (local_now : datetime) :
  0 <= _seconds_to_tomorrow local_now.
Proof.
  unfold _seconds_to_tomorrow. apply int_nonneg.
  assert (0 < day) by (unfold day, second; lia).
  pose proof (Z.mod_pos_bound local_now day H).
  pose proof (Z.div_mod local_now day). lia.
Qed.

Lemma track_le inside before x y s : track inside before x y s <= s.
Proof. unfold track. destruct inside, before; lia. Qed.

Lemma twilight_sleep_le beg end_ now sr s :
  twilight_sleep beg end_ now sr s <= s.
Proof.
  unfold twilight_sleep. destruct beg, end_; try lia. apply track_le.
Qed.

Lemma bright_sleep_le bb be now s : bright_sleep bb be now s <= s.
Proof.
  unfold bright_sleep. destruct (bb <? be); try lia. apply track_le.
Qed.

Lemma nearest_upcoming_spec (es : list datetime) (now e : datetime) :
  nearest_upcoming es now e = true ->
  In e es /\ now < e /\ forall x, In x es -> now < x -> e <= x.
Proof.
  unfold nearest_upcoming. intros H.
  apply andb_true_iff in H as (H & Hall).
  apply andb_true_iff in H as (Hin & Hlt).
  apply existsb_exists in Hin as (x & Hx & Hex).
  apply Z.eqb_eq in Hex. subst x.
  split; [ assumption | ]. split; [ now apply Z.ltb_lt | ].
  intros x Hx' Hnow. rewrite forallb_forall in Hall.
  specialize (Hall x Hx'). compare_all; try lia; discriminate.
Qed.

(** The sleep is never negative when every twilight window that is present
    encloses the day. *)
Lemma twilight_sleep_nonneg beg end_ now sr ss s :
  sr < ss -> encloses beg end_ sr ss = true -> 0 <= s ->
  0 <= twilight_sleep beg end_ now sr s.
Proof.
  unfold twilight_sleep, encloses, track, window.
  destruct beg, end_; intros; try assumption.
  compare_all; try discriminate; lia.
Qed.

Lemma day_sleep_nonneg now sr ss s :
  0 <= s ->
  0 <= track (window sr ss now) (now <? sr) (ss - now) (sr - now) s.
Proof. unfold track, window. intros. compare_all; lia. Qed.

Lemma bright_sleep_nonneg bb be now s :
  0 <= s -> 0 <= bright_sleep bb be now s.
Proof.
  unfold bright_sleep, track, window. intros.
  destruct (bb <? be); [ | assumption ].
  destruct (Z.ltb_spec bb now), (Z.ltb_spec now be), (Z.ltb_spec now bb);
    cbn [andb]; try assumption;
    apply Z.min_glb; try assumption; apply int_nonneg; lia.
Qed.

Lemma sun_sleep_nonneg offset sr ss b now local_now :
  sr < ss ->
  encloses (b_civil_beg b) (b_civil_end b) sr ss = true ->
  encloses (b_nautical_beg b) (b_nautical_end b) sr ss = true ->
  encloses (b_astronomical_beg b) (b_astronomical_end b) sr ss = true ->
  0 <= sun_sleep offset sr ss b now local_now.
Proof.
  intros Hday Hc Hn Ha. unfold sun_sleep.
  apply Z.min_glb; [ | apply seconds_to_tomorrow_nonneg ].
  repeat (apply twilight_sleep_nonneg with (ss := ss); try assumption).
  apply day_sleep_nonneg, bright_sleep_nonneg.
  unfold second. lia.
Qed.

(** Each flag tracks its own nearest edge: when [e] is an edge of a window
    and no edge of the day lies between [now] and [e], the window's step
    brings the sleep down to [e - now]. *)
Lemma twilight_edge beg end_ now sr ss e s :
  sr < ss -> encloses beg end_ sr ss = true -> now <> sr ->
  In e (pair_edges beg end_) -> now < e ->
  (forall x, In x (pair_edges beg end_) -> now < x -> e <= x) ->
  (now < sr -> e <= sr) ->
  twilight_sleep beg end_ now sr s <= e - now.
Proof.
  unfold twilight_sleep, encloses, pair_edges, track, window.
  destruct beg as [tb | ], end_ as [te | ]; cbn [In];
    intros Hday Henc Hnow Hin Hlt Hnear Hsr; try contradiction.
  pose proof (Hnear tb (or_introl eq_refl)).
  pose proof (Hnear te (or_intror (or_introl eq_refl))).
  destruct Hin as [<- | [<- | []]]; compare_all; try discriminate; lia.
Qed.

Lemma day_edge now sr ss e s :
  sr < ss -> now <> sr -> In e [sr; ss] -> now < e ->
  (forall x, In x [sr; ss] -> now < x -> e <= x) ->
  track (window sr ss now) (now <? sr) (ss - now) (sr - now) s <= e - now.
Proof.
  unfold track, window. cbn [In]. intros Hday Hnow Hin Hlt Hnear.
  pose proof (Hnear sr (or_introl eq_refl)).
  pose proof (Hnear ss (or_intror (or_introl eq_refl))).
  destruct Hin as [<- | [<- | []]]; compare_all; lia.
Qed.

Lemma bright_edge bb be now e s :
  (bb < be -> now <> bb) ->
  In e (if bb <? be then [bb; be] else []) -> now < e ->
  (forall x, In x (if bb <? be then [bb; be] else []) -> now < x -> e <= x) ->
  bright_sleep bb be now s <= e - now.
Proof.
  unfold bright_sleep, track, window. intros Hnow Hin Hlt Hnear.
  destruct (Z.ltb_spec bb be) as [Hb | Hb]; [ | destruct Hin ].
  specialize (Hnow Hb).
  pose proof (Hnear bb (or_introl eq_refl)).
  pose proof (Hnear be (or_intror (or_introl eq_refl))).
  destruct Hin as [<- | [<- | []]];
    destruct (Z.ltb_spec bb now), (Z.ltb_spec now be), (Z.ltb_spec now bb);
    cbn [andb]; try lia.
  - pose proof (int_le (bb - now)). lia.
  - pose proof (int_le (be - now)). lia.
Qed.

Lemma sun_sleep_before_edge offset sr ss b now local_now e :
  sr < ss ->
  encloses (b_civil_beg b) (b_civil_end b) sr ss = true ->
  encloses (b_nautical_beg b) (b_nautical_end b) sr ss = true ->
  encloses (b_astronomical_beg b) (b_astronomical_end b) sr ss = true ->
  now <> sr ->
  (sr + minutes offset < ss - minutes offset -> now <> sr + minutes offset) ->
  nearest_upcoming (edges offset sr ss b) now e = true ->
  sun_sleep offset sr ss b now local_now <= e - now.
Proof.
  intros Hday Hc Hn Ha Hsr Hbb Hnear.
  apply nearest_upcoming_spec in Hnear as (Hin & Hlt & Hnear).
  unfold edges in Hin, Hnear.
  assert (Hsun : now < sr -> e <= sr).
  { intros. apply Hnear; [ | assumption ].
    apply in_or_app. right. left. reflexivity. }
  unfold sun_sleep.
  set (s0 := 24 * 60 * 60 * second).
  set (s1 := bright_sleep _ _ now s0).
  set (s2 := track _ _ _ _ s1).
  set (s3 := twilight_sleep (b_civil_beg b) _ now sr s2).
  set (s4 := twilight_sleep (b_nautical_beg b) _ now sr s3).
  set (s5 := twilight_sleep (b_astronomical_beg b) _ now sr s4).
  assert (s5 <= s4) by apply twilight_sleep_le.
  assert (s4 <= s3) by apply twilight_sleep_le.
  assert (s3 <= s2) by apply twilight_sleep_le.
  assert (s2 <= s1) by apply track_le.
  pose proof (Z.le_min_l s5 (_seconds_to_tomorrow local_now)).
  cut (s1 <= e - now \/ s2 <= e - now \/ s3 <= e - now \/ s4 <= e - now
       \/ s5 <= e - now); [ lia | ].
  apply in_app_or in Hin as [Hin | Hin].
  { left. apply bright_edge; try assumption.
    intros x Hx. apply Hnear. apply in_or_app. now left. }
  change ([sr; ss] ++ ?l) with (sr :: ss :: l) in Hin, Hnear.
  assert (Hin' : In e [sr; ss] \/
                 In e (pair_edges (b_civil_beg b) (b_civil_end b)) \/
                 In e (pair_edges (b_nautical_beg b) (b_nautical_end b)) \/
                 In e (pair_edges (b_astronomical_beg b)
                                  (b_astronomical_end b))).
  { cbn [In] in Hin |- *.
    destruct Hin as [Hin | [Hin | Hin]]; [ tauto | tauto | ].
    apply in_app_or in Hin as [Hin | Hin]; [ tauto | ].
    apply in_app_or in Hin as [Hin | Hin]; tauto. }
  assert (Hnear' : forall l, incl l (edges offset sr ss b) ->
                   forall x, In x l -> now < x -> e <= x).
  { intros l Hl x Hx. apply Hnear. apply Hl in Hx. exact Hx. }
  clear Hin Hnear.
  assert (Isun : incl [sr; ss] (edges offset sr ss b)).
  { unfold edges. intros x Hx. apply in_or_app. right.
    cbn [In app] in Hx |- *. tauto. }
  assert (Ic : incl (pair_edges (b_civil_beg b) (b_civil_end b))
                    (edges offset sr ss b)).
  { unfold edges. intros x Hx. apply in_or_app. right.
    change ([sr; ss] ++ ?l) with (sr :: ss :: l). right. right.
    apply in_or_app. now left. }
  assert (In_ : incl (pair_edges (b_nautical_beg b) (b_nautical_end b))
                     (edges offset sr ss b)).
  { unfold edges. intros x Hx. apply in_or_app. right.
    change ([sr; ss] ++ ?l) with (sr :: ss :: l). right. right.
    apply in_or_app. right. apply in_or_app. now left. }
  assert (Ia : incl (pair_edges (b_astronomical_beg b) (b_astronomical_end b))
                    (edges offset sr ss b)).
  { unfold edges. intros x Hx. apply in_or_app. right.
    change ([sr; ss] ++ ?l) with (sr :: ss :: l). right. right.
    apply in_or_app. right. apply in_or_app. now right. }
  destruct Hin' as [Hin | [Hin | [Hin | Hin]]].
  - right. left. apply day_edge; try assumption. apply (Hnear' _ Isun).
  - right. right. left.
    apply twilight_edge with (ss := ss); try assumption.
    apply (Hnear' _ Ic).
  - right. right. right. left.
    apply twilight_edge with (ss := ss); try assumption.
    apply (Hnear' _ In_).
  - right. right. right. right.
    apply twilight_edge with (ss := ss); try assumption.
    apply (Hnear' _ Ia).
Qed.

(** C8, as stated, fails: on the sample day whose civil twilight begins at
    06:45, after the sunrise of 06:00, the evaluation of 06:30 has the civil
    begin as its nearest upcoming edge, a quarter of an hour ahead, and asks
    for a sleep of half an hour and five seconds, until the bright window
    opens: the begin of a twilight window is used only before sunrise. *)
Lemma late_civil_edge_is_slept_through :
  nearest_upcoming
    (edges 60 (Sample.instant 6 0) (Sample.instant 20 0)
       (Sample.boundaries Sample.late_civil))
    (Sample.instant 6 30) (Sample.instant 6 45) = true /\
  wake_delta (Sample.world 6 30 (inr (Sample.ok Sample.late_civil)))
    (fst (fst (run_iteration
                 (Sample.world 6 30 (inr (Sample.ok Sample.late_civil)))
                 Sample.plugin unbound)))
  = (Sample.instant 7 0 - Sample.instant 6 30) + 5 * second /\
  ~ (Sample.instant 7 0 - Sample.instant 6 30) + 5 * second
    <= (Sample.instant 6 45 - Sample.instant 6 30) + 5 * second.
Proof.
  split; [ vm_compute; reflexivity | ].
  split; [ vm_compute; reflexivity | ].
  vm_compute. intros H. apply H. reflexivity.
Qed.

(** The evaluation made at the very instant the bright window opens (or the
    sun rises) uses neither edge of that window: here the bright window of
    07:00 to 19:00 is slept through until sunset. *)
Remark bright_begin_instant_is_slept_through :
  nearest_upcoming
    (edges 60 (Sample.instant 6 0) (Sample.instant 20 0)
       (Sample.boundaries Sample.sun_only))
    (Sample.instant 7 0) (Sample.instant 19 0) = true /\
  wake_delta (Sample.world 7 0 (inr (Sample.ok Sample.sun_only)))
    (fst (fst (run_iteration
                 (Sample.world 7 0 (inr (Sample.ok Sample.sun_only)))
                 Sample.plugin unbound)))
  = (Sample.instant 20 0 - Sample.instant 7 0) + 5 * second.
Proof.
  split; vm_compute; reflexivity.
Qed.

(** C8, amended.  On a day with sunrise before sunset on which every
    twilight window that is present encloses the day, an iteration whose
    [now] is neither the sunrise nor the begin of a bright window that is
    not empty, and whose nearest upcoming edge is [e], asks for a sleep that
    is positive and at most [e - now] plus the five seconds of guard. *)
Theorem wake_by_nearest_edge w self l data b sr ss e :
  _enabled self = true ->
  data_in_use w self = inr data ->
  Api.status data = "OK"%string ->
  sun_day self (Api.body data) b sr ss ->
  sr < ss ->
  encloses (b_civil_beg b) (b_civil_end b) sr ss = true ->
  encloses (b_nautical_beg b) (b_nautical_end b) sr ss = true ->
  encloses (b_astronomical_beg b) (b_astronomical_end b) sr ss = true ->
  utcnow w <> sr ->
  (sr + minutes (_bright_offset self) < ss - minutes (_bright_offset self) ->
   utcnow w <> sr + minutes (_bright_offset self)) ->
  nearest_upcoming (edges (_bright_offset self) sr ss b) (utcnow w) e = true ->
  exists self' l' calls,
    run_iteration w self l = (self', l', calls) /\
    0 < wake_delta w self' /\
    wake_delta w self' <= (e - utcnow w) + 5 * second.
Proof.
  intros Hen Hdata Hok Hsun Hday Hc Hn Ha Hsr Hbb Hnear.
  pose proof (evaluate_sun_day _ _ _ _ _ (utcnow w) (local_now w) l Hsun)
    as Hev.
  rewrite (run_iteration_evaluated _ _ _ _ _ _ _ _ Hen Hdata Hok Hev).
  do 3 eexists. split; [ reflexivity | ].
  rewrite <- Z.add_assoc, wake_delta_sleep.
  pose proof (sun_sleep_nonneg (_bright_offset self) sr ss b (utcnow w)
                (local_now w) Hday Hc Hn Ha).
  pose proof (sun_sleep_before_edge (_bright_offset self) sr ss b (utcnow w)
                (local_now w) e Hday Hc Hn Ha Hsr Hbb Hnear).
  unfold second in *. lia.
Qed.

Lemma wake_by_nearest_edge_witness :
  exists self' l' calls,
    run_iteration (Sample.world 12 0 (inr (Sample.ok Sample.equinox)))
      Sample.plugin unbound = (self', l', calls) /\
    0 < wake_delta (Sample.world 12 0 (inr (Sample.ok Sample.equinox))) self'
    /\
    wake_delta (Sample.world 12 0 (inr (Sample.ok Sample.equinox))) self'
    <= (Sample.instant 19 0
        - utcnow (Sample.world 12 0 (inr (Sample.ok Sample.equinox))))
       + 5 * second.
Proof.
  apply (wake_by_nearest_edge
           (Sample.world 12 0 (inr (Sample.ok Sample.equinox)))
           Sample.plugin unbound (Sample.ok Sample.equinox)
           (Sample.boundaries Sample.equinox)
           (Sample.instant 6 0) (Sample.instant 20 0) (Sample.instant 19 0));
    try reflexivity; try (vm_compute; discriminate).
  exact equinox_day.
Defined.

(** ** Iterations without data *)

(** C3, as stated, fails: when the request fails and an earlier answer is
    cached, the iteration evaluates the cached answer, sets the bits,
    triggers the group action and updates [_previous_bits]. *)
Lemma failed_request_uses_cached_answer :
  answer (Sample.world 12 0 (inl RequestException)) = inl RequestException /\
  snd (run_iteration (Sample.world 12 0 (inl RequestException))
         Sample.cached unbound)
  = [do_basic_action 237 10; do_basic_action 237 11; do_basic_action 237 12;
     do_basic_action 237 13; do_basic_action 237 14; do_basic_action 2 7] /\
  _previous_bits
    (fst (fst (run_iteration (Sample.world 12 0 (inl RequestException))
                 Sample.cached unbound)))
  <> _previous_bits Sample.cached.
Proof.
  split; [ reflexivity | ]. split; [ vm_compute; reflexivity | ].
  vm_compute. discriminate.
Qed.

(** C3, amended.  When the request fails and no earlier answer is cached,
    or when the answer in use (the fresh one, or the cached one after a
    failed request) has a status other than [OK], the iteration calls
    nothing, leaves [_previous_bits] and the locals as they are, and sleeps
    until five seconds after the next local midnight. *)
Theorem no_data_no_actuation w self l :
  _enabled self = true ->
  (exists e, answer w = inl e /\ sunrise_data self = None) \/
  (exists data, data_in_use w self = inr data /\
                Api.status data <> "OK"%string) ->
  exists self',
    run_iteration w self l = (self', l, []) /\
    _previous_bits self' = _previous_bits self /\
    wake_delta w self' = _seconds_to_tomorrow (local_now w) + 5 * second.
Proof.
  intros Hen Hfail.
  exists (sleep_until_tomorrow w (after_fetch w self)).
  destruct (after_fetch_config w self) as (_ & Hprev & _).
  split; [ | split ].
  - unfold run_iteration, after_fetch, data_in_use in *. rewrite Hen.
    destruct Hfail as [(e & Ha & Hnone) | (data & Hdata & Hstatus)].
    + unfold get_sun_data_or_cached. rewrite Ha, Hnone. reflexivity.
    + destruct (get_sun_data_or_cached w self) as [self1 fetched].
      cbn [fst snd] in *. subst fetched.
      apply String.eqb_neq in Hstatus. rewrite Hstatus. reflexivity.
  - unfold sleep_until_tomorrow. rewrite previous_bits_sleep. exact Hprev.
  - unfold sleep_until_tomorrow. rewrite <- Z.add_assoc.
    apply wake_delta_sleep.
Qed.

Lemma no_data_no_actuation_witness :
  exists self',
    run_iteration (Sample.world 12 0 (inl RequestException)) Sample.plugin
      unbound = (self', unbound, []) /\
    _previous_bits self' = _previous_bits Sample.plugin /\
    wake_delta (Sample.world 12 0 (inl RequestException)) self'
    = _seconds_to_tomorrow
        (local_now (Sample.world 12 0 (inl RequestException)))
      + 5 * second.
Proof.
  apply (no_data_no_actuation (Sample.world 12 0 (inl RequestException))
           Sample.plugin unbound).
  - reflexivity.
  - left. exists RequestException. split; reflexivity.
Defined.

(** ** Actuation *)

Lemma flags_eqb_eq (a b : list (option bool)) :
  flags_eqb a b = true <-> a = b.
Proof.
  revert b. induction a as [ | x a IH ]; intros [ | y b ]; cbn;
    try (split; [ discriminate | discriminate ]); [ tauto | ].
  rewrite andb_true_iff, IH. split.
  - intros (Hxy & ->). f_equal.
    destruct x as [ [ | ] | ], y as [ [ | ] | ]; cbn in Hxy;
      try discriminate; reflexivity.
  - intros H. injection H as -> ->. split; [ | reflexivity ].
    destruct y as [ [ | ] | ]; reflexivity.
Qed.

(** C7, as stated, fails: a bit configured as -2 is not -1, and no call sets
    or clears it. *)
Lemma bit_minus_two_is_not_set :
  _bright_bit Sample.minus_two <> -1 /\
  (exists evaluation,
     snd (evaluate Sample.minus_two Sample.equinox (Sample.instant 12 0)
            (Sample.instant 12 0) unbound) = inr evaluation) /\
  snd (run_iteration (Sample.world 12 0 (inr (Sample.ok Sample.equinox)))
         Sample.minus_two unbound) = [].
Proof.
  split; [ discriminate | ].
  split; [ eexists | ]; vm_compute; reflexivity.
Qed.

(** C7, amended.  In an iteration whose evaluation returns the flags
    [bits]: each of the five outputs whose bit is greater than -1 is set or
    cleared once, in the order bright, day, civil, nautical, astronomical,
    whether or not the flags changed; the group action is called exactly
    when the flags differ from [_previous_bits] and the action is not -1;
    and [_previous_bits] becomes the flags exactly when they differ. *)
Theorem actuation_of_an_evaluation w self l data l' bits sleep info :
  _enabled self = true ->
  data_in_use w self = inr data ->
  Api.status data = "OK"%string ->
  evaluate self (Api.body data) (utcnow w) (local_now w) l
    = (l', inr (bits, sleep, info)) ->
  exists self' calls,
    run_iteration w self l = (self', l', calls) /\
    filter is_set_bit calls
    = map (fun '(index, bit) =>
             do_basic_action (if item index bits then 237 else 238) bit)
          (filter (fun '(_, bit) => bit >? -1) (outputs self)) /\
    (_previous_bits self = map Some bits ->
       filter (fun c => negb (is_set_bit c)) calls = [] /\
       _previous_bits self' = _previous_bits self) /\
    (_previous_bits self <> map Some bits ->
       filter (fun c => negb (is_set_bit c)) calls
       = (if _group_action self =? -1 then []
          else [do_basic_action 2 (_group_action self)]) /\
       _previous_bits self' = map Some bits).
Proof.
  intros Hen Hdata Hok Hev.
  rewrite (run_iteration_evaluated _ _ _ _ _ _ _ _ Hen Hdata Hok Hev).
  destruct (after_fetch_config w self) as (_ & Hprev & Hga & _).
  do 2 eexists. split; [ reflexivity | ].
  split.
  { rewrite filter_set_bits. unfold set_bits. fold (outputs self).
    induction (outputs self) as [ | (i & bit) o IH ]; [ reflexivity | ].
    cbn [flat_map filter]. destruct (bit >? -1); cbn [map app]; now f_equal. }
  rewrite previous_bits_sleep.
  rewrite filter_app.
  assert (Hnone : filter (fun c => negb (is_set_bit c)) (set_bits self bits)
                  = []).
  { pose proof (set_bits_are_set_bit self bits) as Hall.
    induction (set_bits self bits) as [ | c cs IH ]; [ reflexivity | ].
    cbn [forallb] in Hall. apply andb_true_iff in Hall as (Hc & Hcs).
    cbn [filter]. rewrite Hc. cbn [negb]. now apply IH. }
  rewrite Hnone. cbn [app]. unfold zone_change. rewrite Hprev, Hga.
  split; intros Hflags.
  - apply flags_eqb_eq in Hflags. rewrite Hflags. cbn [negb fst snd filter].
    split; [ reflexivity | exact Hprev ].
  - destruct (flags_eqb (_previous_bits self) (map Some bits)) eqn:Heq.
    { apply flags_eqb_eq in Heq. contradiction. }
    cbn [negb fst snd]. split; [ | reflexivity ].
    destruct (_group_action self =? -1); reflexivity.
Qed.

Lemma actuation_of_an_evaluation_witness :
  exists self' calls,
    run_iteration (Sample.world 12 0 (inr (Sample.ok Sample.equinox)))
      Sample.plugin unbound
    = (self',
       {| bright_beg := Some (Sample.instant 7 0);
          bright_end := Some (Sample.instant 19 0) |},
       calls) /\
    filter is_set_bit calls
    = map (fun '(index, bit) =>
             do_basic_action
               (if item index [true; true; true; true; true]
                then 237 else 238) bit)
          (filter (fun '(_, bit) => bit >? -1) (outputs Sample.plugin)) /\
    (_previous_bits Sample.plugin
     = map Some [true; true; true; true; true] ->
       filter (fun c => negb (is_set_bit c)) calls = [] /\
       _previous_bits self' = _previous_bits Sample.plugin) /\
    (_previous_bits Sample.plugin
     <> map Some [true; true; true; true; true] ->
       filter (fun c => negb (is_set_bit c)) calls
       = (if _group_action Sample.plugin =? -1 then []
          else [do_basic_action 2 (_group_action Sample.plugin)]) /\
       _previous_bits self' = map Some [true; true; true; true; true]).
Proof.
  apply (actuation_of_an_evaluation
           (Sample.world 12 0 (inr (Sample.ok Sample.equinox)))
           Sample.plugin unbound (Sample.ok Sample.equinox)
           {| bright_beg := Some (Sample.instant 7 0);
              bright_end := Some (Sample.instant 19 0) |}
           [true; true; true; true; true]
           (Sample.instant 19 0 - Sample.instant 12 0)
           "day (bright)"%string).
  - reflexivity.
  - reflexivity.
  - reflexivity.
  - vm_compute. reflexivity.
Defined.

(** ** The locals [bright_beg] and [bright_end] *)

(** Without a sunrise or without a sunset the bright window is not
    assigned, and the logger line that prints [bright_beg] raises when no
    earlier iteration assigned it. *)
Lemma evaluate_unbound self r b now local_now l :
  parsed r b ->
  b_sunrise b = None \/ b_sunset b = None ->
  bright_beg l = None ->
  evaluate self r now local_now l = (l, inl (UnboundLocalError "bright_beg")).
Proof.
  intros (H1 & H2 & H3 & H4 & H5 & H6 & H7 & H8) Hsun Hloc.
  unfold evaluate, bind at 1.
  assert (Hload : load_data self r l
                  = (l, inl (UnboundLocalError "bright_beg"))).
  { unfold load_data, bind, lift.
    rewrite H1, H2, H3, H4, H5, H6, H7, H8.
    assert (Hb : load_bright (_bright_offset self) (b_sunrise b) (b_sunset b) l
                 = (l, inr false)).
    { unfold load_bright.
      destruct Hsun as [-> | ->]; [ reflexivity | ].
      destruct (b_sunrise b); reflexivity. }
    rewrite Hb. unfold read_bright_beg. rewrite Hloc. reflexivity. }
  rewrite Hload. reflexivity.
Qed.

Lemma no_sun_not_present (b : Boundaries) :
  b_sunrise b = None \/ b_sunset b = None ->
  present (b_sunrise b) (b_sunset b) = false.
Proof.
  unfold present. intros [-> | ->]; [ reflexivity | ].
  destruct (b_sunrise b); reflexivity.
Qed.

(** Loading an answer without sunrise or without sunset, with the locals
    that an earlier iteration left. *)
Lemma load_data_no_sun self r b l x y :
  parsed r b ->
  present (b_sunrise b) (b_sunset b) = false ->
  bright_beg l = Some x -> bright_end l = Some y ->
  load_data self r l =
  (l, inr {| sunrise := b_sunrise b; sunset := b_sunset b;
             has_sun := false; has_bright := false;
             civil_beg := b_civil_beg b; civil_end := b_civil_end b;
             has_civil := present (b_civil_beg b) (b_civil_end b);
             nautical_beg := b_nautical_beg b;
             nautical_end := b_nautical_end b;
             has_nautical := present (b_nautical_beg b) (b_nautical_end b);
             astronomical_beg := b_astronomical_beg b;
             astronomical_end := b_astronomical_end b;
             has_astronomical :=
               present (b_astronomical_beg b) (b_astronomical_end b) |}).
Proof.
  intros (H1 & H2 & H3 & H4 & H5 & H6 & H7 & H8) Hs Hx Hy.
  unfold load_data, bind, lift.
  rewrite H1, H2, H3, H4, H5, H6, H7, H8.
  assert (Hb : load_bright (_bright_offset self) (b_sunrise b) (b_sunset b) l
               = (l, inr false)).
  { unfold load_bright. unfold present in Hs.
    destruct (b_sunrise b), (b_sunset b); try discriminate; reflexivity. }
  rewrite Hb. unfold read_bright_beg, read_bright_end. rewrite Hx, Hy.
  unfold present in Hs. rewrite Hs. reflexivity.
Qed.

(** A twilight level raises nothing but the [TypeError] of a comparison
    with [None]. *)
Lemma analyse_twilight_raises i has beg end_ broader d now p l l' e :
  analyse_twilight i has beg end_ broader d now p l = (l', inl e) ->
  e = TypeError.
Proof.
  destruct p as [bits sleep]. unfold analyse_twilight.
  destruct has; cbn [negb].
  - unfold bind, between, lt, seconds_between, bind, ret, raise.
    destruct beg as [p | ], end_ as [q | ], (sunrise d) as [sr | ];
      repeat match goal with
        | |- context [if ?c then _ else _] => destruct c
        end;
      intros E; inversion E; reflexivity.
  - destruct broader; unfold ret; intros E; inversion E.
Qed.

(** Once [bright_beg] is assigned, an answer without sunrise or without
    sunset no longer raises on it: line 230 prints the stale value, and what
    can still go wrong is line 231, when [bright_end] was never assigned, or
    a comparison with a sunrise that is [None]. *)
Lemma evaluate_stale_bright_beg self r b now local_now l x l' e :
  parsed r b ->
  present (b_sunrise b) (b_sunset b) = false ->
  bright_beg l = Some x ->
  evaluate self r now local_now l = (l', inl e) ->
  e = UnboundLocalError "bright_end" \/ e = TypeError.
Proof.
  intros Hp Hs Hx.
  destruct (bright_end l) as [y | ] eqn:Hy.
  - unfold evaluate, bind at 1.
    rewrite (load_data_no_sun self r b l x y Hp Hs Hx Hy).
    unfold analyse_data.
    cbn [has_sun has_bright has_civil has_nautical has_astronomical
         civil_beg civil_end nautical_beg nautical_end astronomical_beg
         astronomical_end orb].
    destruct (negb _); [ unfold ret; intros E; inversion E | ].
    unfold bind at 1. unfold analyse_bright at 1.
    cbn [has_bright negb]. unfold ret at 1.
    unfold bind at 1. unfold analyse_day at 1.
    cbn [has_sun negb]. unfold ret at 1.
    unfold bind at 1.
    destruct (analyse_twilight 2 _ _ _ _ _ _ _ _) as [l2 [e2 | p2]] eqn:E2.
    { intros E; inversion E; subst. right.
      exact (analyse_twilight_raises _ _ _ _ _ _ _ _ _ _ _ E2). }
    unfold bind at 1.
    destruct (analyse_twilight 3 _ _ _ _ _ _ _ _) as [l3 [e3 | p3]] eqn:E3.
    { intros E; inversion E; subst. right.
      exact (analyse_twilight_raises _ _ _ _ _ _ _ _ _ _ _ E3). }
    unfold bind at 1.
    destruct (analyse_twilight 4 _ _ _ _ _ _ _ _) as [l4 [e4 | p4]] eqn:E4.
    { intros E; inversion E; subst. right.
      exact (analyse_twilight_raises _ _ _ _ _ _ _ _ _ _ _ E4). }
    destruct p4 as [bits sleep]. unfold ret. intros E; inversion E.
  - destruct Hp as (H1 & H2 & H3 & H4 & H5 & H6 & H7 & H8).
    unfold evaluate, bind at 1.
    assert (Hload : load_data self r l
                    = (l, inl (UnboundLocalError "bright_end"))).
    { unfold load_data, bind, lift.
      rewrite H1, H2, H3, H4, H5, H6, H7, H8.
      assert (Hb : load_bright (_bright_offset self) (b_sunrise b)
                     (b_sunset b) l = (l, inr false)).
      { unfold load_bright. unfold present in Hs.
        destruct (b_sunrise b), (b_sunset b); try discriminate;
          reflexivity. }
      rewrite Hb. unfold read_bright_beg, read_bright_end.
      rewrite Hx, Hy. reflexivity. }
    rewrite Hload. intros E; inversion E. left. reflexivity.
Qed.

(** C9, as stated, fails: the locals of [run] outlive an iteration.  When
    [run] starts on the sample day with sunrise and sunset and the next day
    has neither, while its civil pair is present, the second iteration, the
    first without sun, finds the [bright_beg] and [bright_end] of the day
    before.  At noon its evaluation returns flags, civil twilight, and the
    iteration clears the bright, day and nautical bits, sets the civil and
    astronomical bits, calls the group action and sleeps until the end of
    the civil window. *)
Lemma sunless_cycle_after_a_sunny_one_actuates :
  b_sunrise (Sample.boundaries Scenario.white_night_tomorrow) = None /\
  present (b_civil_beg (Sample.boundaries Scenario.white_night_tomorrow))
    (b_civil_end (Sample.boundaries Scenario.white_night_tomorrow)) = true /\
  evaluate Sample.plugin Scenario.white_night_tomorrow
    (Sample.instant 36 0) (Sample.instant 36 0) Scenario.stale
  = (Scenario.stale,
     inr ([false; false; true; false; true],
          Sample.instant 47 0 - Sample.instant 36 0,
          "civil twilight"%string)) /\
  run_loop
    [Sample.world 12 0 (inr (Sample.ok Sample.equinox));
     Sample.world 36 0 (inr (Sample.ok Scenario.white_night_tomorrow))]
    (fst (run_start Sample.plugin)) (snd (run_start Sample.plugin))
  = (_sleep
       (set_previous_bits
          (set_sunrise_data Sample.plugin
             (Sample.ok Scenario.white_night_tomorrow))
          [Some false; Some false; Some true; Some false; Some true])
       (Sample.instant 47 0 + 5 * second),
     Scenario.stale,
     [[do_basic_action 237 10; do_basic_action 237 11;
       do_basic_action 237 12; do_basic_action 237 13;
       do_basic_action 237 14; do_basic_action 2 7];
      [do_basic_action 238 10; do_basic_action 238 11;
       do_basic_action 237 12; do_basic_action 238 13;
       do_basic_action 237 14; do_basic_action 2 7]]).
Proof. repeat split; vm_compute; reflexivity. Qed.

(** C9, amended.  When the answer has its sunrise or its sunset absent, the
    evaluation raises [UnboundLocalError] for [bright_beg] exactly when no
    earlier iteration of [run] has assigned [bright_beg], as is the case in
    the first iteration.  The iteration then ends in the exception handler:
    no flag is computed, nothing is called, [_previous_bits] and the locals
    stay as they are, and the sleep ends five seconds after the next local
    midnight.  This holds whether or not a twilight pair is present. *)
Theorem unassigned_bright_beg_aborts w self l data b :
  _enabled self = true ->
  data_in_use w self = inr data ->
  Api.status data = "OK"%string ->
  parsed (Api.body data) b ->
  b_sunrise b = None \/ b_sunset b = None ->
  (snd (evaluate self (Api.body data) (utcnow w) (local_now w) l)
   = inl (UnboundLocalError "bright_beg") <-> bright_beg l = None) /\
  (bright_beg l = None ->
   evaluate self (Api.body data) (utcnow w) (local_now w) l
   = (l, inl (UnboundLocalError "bright_beg")) /\
   exists self',
     run_iteration w self l = (self', l, []) /\
     _previous_bits self' = _previous_bits self /\
     wake_delta w self' = _seconds_to_tomorrow (local_now w) + 5 * second).
Proof.
  intros Hen Hdata Hok Hp Hsun.
  assert (Hnone : bright_beg l = None ->
                  evaluate self (Api.body data) (utcnow w) (local_now w) l
                  = (l, inl (UnboundLocalError "bright_beg"))).
  { intros Hloc. exact (evaluate_unbound self _ _ _ _ l Hp Hsun Hloc). }
  split; [ split | ].
  - intros Hev. destruct (bright_beg l) as [x | ] eqn:Hx; [ | reflexivity ].
    exfalso.
    destruct (evaluate self (Api.body data) (utcnow w) (local_now w) l)
      as [l' res] eqn:E.
    cbn [snd] in Hev. subst res.
    destruct (evaluate_stale_bright_beg self _ _ _ _ l x l' _ Hp
                (no_sun_not_present b Hsun) Hx E) as [H | H];
      discriminate H.
  - intros Hloc. rewrite (Hnone Hloc). reflexivity.
  - intros Hloc. split; [ exact (Hnone Hloc) | ].
    rewrite (run_iteration_raised _ _ _ _ _ _ Hen Hdata Hok (Hnone Hloc)).
    destruct (after_fetch_config w self) as (_ & Hprev & _).
    eexists. split; [ reflexivity | ]. split.
    + unfold sleep_until_tomorrow. rewrite previous_bits_sleep. exact Hprev.
    + unfold sleep_until_tomorrow. rewrite <- Z.add_assoc.
      apply wake_delta_sleep.
Qed.

Lemma unassigned_bright_beg_aborts_witness :
  (snd (evaluate Sample.plugin
          (Api.body (Sample.ok Sample.white_night))
          (utcnow (Sample.world 12 0 (inr (Sample.ok Sample.white_night))))
          (local_now (Sample.world 12 0 (inr (Sample.ok Sample.white_night))))
          (snd (run_start Sample.plugin)))
   = inl (UnboundLocalError "bright_beg")
   <-> bright_beg (snd (run_start Sample.plugin)) = None) /\
  evaluate Sample.plugin
    (Api.body (Sample.ok Sample.white_night))
    (utcnow (Sample.world 12 0 (inr (Sample.ok Sample.white_night))))
    (local_now (Sample.world 12 0 (inr (Sample.ok Sample.white_night))))
    (snd (run_start Sample.plugin))
    = (snd (run_start Sample.plugin), inl (UnboundLocalError "bright_beg")) /\
  exists self',
    run_iteration (Sample.world 12 0 (inr (Sample.ok Sample.white_night)))
      Sample.plugin (snd (run_start Sample.plugin))
    = (self', snd (run_start Sample.plugin), []) /\
    _previous_bits self' = _previous_bits Sample.plugin /\
    wake_delta (Sample.world 12 0 (inr (Sample.ok Sample.white_night))) self'
    = _seconds_to_tomorrow
        (local_now (Sample.world 12 0 (inr (Sample.ok Sample.white_night))))
      + 5 * second.
Proof.
  destruct (unassigned_bright_beg_aborts
              (Sample.world 12 0 (inr (Sample.ok Sample.white_night)))
              Sample.plugin (snd (run_start Sample.plugin))
              (Sample.ok Sample.white_night)
              (Sample.boundaries Sample.white_night)) as [Hiff Habort].
  - reflexivity.
  - reflexivity.
  - reflexivity.
  - repeat split; reflexivity.
  - left. reflexivity.
  - split; [ exact Hiff | apply Habort; reflexivity ].
Defined.

(** With the locals left by an earlier iteration the evaluation goes past
    the logger lines.  At noon, inside the civil window, the white night
    is evaluated (the civil flag is set, the nautical flag is its negation
    and the astronomical flag the negation of that) ... *)
Remark white_night_with_stale_locals :
  evaluate Sample.plugin Sample.white_night (Sample.instant 12 0)
    (Sample.instant 12 0)
    {| bright_beg := Some (Sample.instant 7 0);
       bright_end := Some (Sample.instant 19 0) |}
  = ({| bright_beg := Some (Sample.instant 7 0);
        bright_end := Some (Sample.instant 19 0) |},
     inr ([false; false; true; false; true],
          Sample.instant 23 0 - Sample.instant 12 0,
          "civil twilight"%string)).
Proof. vm_compute. reflexivity. Qed.

(** ... and outside the civil window the comparison [now < sunrise] meets
    a sunrise that is [None] and raises. *)
Remark white_night_sunrise_is_None :
  evaluate Sample.plugin Sample.white_night (Sample.instant 0 30)
    (Sample.instant 0 30)
    {| bright_beg := Some (Sample.instant 7 0);
       bright_end := Some (Sample.instant 19 0) |}
  = ({| bright_beg := Some (Sample.instant 7 0);
        bright_end := Some (Sample.instant 19 0) |},
     inl TypeError).
Proof. vm_compute. reflexivity. Qed.

(** ** The polar branch *)

(** C4: the first iteration of [run] that is answered with no boundary at
    all does not reach the polar branch.  The locals are unassigned, the
    evaluation raises [UnboundLocalError] for [bright_beg], no bit is set
    and the iteration sleeps until after the next local midnight. *)
Theorem polar_day_first_iteration_aborts :
  evaluate Sample.plugin Sample.polar (Sample.instant 12 0)
    (Sample.instant 12 0) (snd (run_start Sample.plugin))
  = (unbound, inl (UnboundLocalError "bright_beg")) /\
  run_iteration (Sample.world 12 0 (inr (Sample.ok Sample.polar)))
    (fst (run_start Sample.plugin)) (snd (run_start Sample.plugin))
  = (sleep_until_tomorrow (Sample.world 12 0 (inr (Sample.ok Sample.polar)))
       (set_sunrise_data Sample.plugin (Sample.ok Sample.polar)),
     unbound, []).
Proof. split; vm_compute; reflexivity. Qed.

(** Once an earlier iteration has assigned both locals, an answer with no
    boundary at all is the polar day: every flag is set and the sleep is the
    number of seconds to the next local midnight. *)
Lemma polar_day_with_stale_locals self r b now local_now l x y :
  parsed r b ->
  present (b_sunrise b) (b_sunset b) = false ->
  present (b_civil_beg b) (b_civil_end b) = false ->
  present (b_nautical_beg b) (b_nautical_end b) = false ->
  present (b_astronomical_beg b) (b_astronomical_end b) = false ->
  bright_beg l = Some x -> bright_end l = Some y ->
  evaluate self r now local_now l
  = (l, inr ([true; true; true; true; true],
             _seconds_to_tomorrow local_now, "polar day"%string)).
Proof.
  intros (H1 & H2 & H3 & H4 & H5 & H6 & H7 & H8) Hs Hc Hn Ha Hx Hy.
  unfold evaluate, load_data, bind, lift.
  rewrite H1, H2, H3, H4, H5, H6, H7, H8.
  assert (Hb : load_bright (_bright_offset self) (b_sunrise b) (b_sunset b) l
               = (l, inr false)).
  { unfold load_bright. unfold present in Hs.
    destruct (b_sunrise b), (b_sunset b); try discriminate; reflexivity. }
  rewrite Hb. unfold read_bright_beg, read_bright_end. rewrite Hx, Hy.
  unfold analyse_data. cbn [has_sun has_civil has_nautical has_astronomical].
  unfold present in *. rewrite Hs, Hc, Hn, Ha. reflexivity.
Qed.

(** ** Regular expressions: the matcher and the words of a pattern *)

Lemma nullable_matches (r : Re.regex) :
  Re.nullable r = true <-> Re.matches r [].
Proof.
  split.
  - induction r; cbn; intros H; try discriminate.
    + constructor.
    + apply andb_true_iff in H as (H1 & H2).
      change (@nil ascii) with (@nil ascii ++ []).
      constructor; auto.
    + apply orb_true_iff in H as [H | H].
      * apply Re.m_alt_l; auto.
      * apply Re.m_alt_r; auto.
    + constructor.
  - intros H. remember [] as w eqn:Hw.
    induction H; cbn; try reflexivity; try discriminate.
    + apply app_eq_nil in Hw as (-> & ->).
      rewrite IHmatches1, IHmatches2; reflexivity.
    + rewrite IHmatches; [ reflexivity | assumption ].
    + rewrite IHmatches; [ apply orb_true_r | assumption ].
Qed.

Lemma deriv_sound (c : ascii) (r : Re.regex) :
  forall s, Re.matches (Re.deriv c r) s -> Re.matches r (c :: s).
Proof.
  induction r; cbn; intros w H.
  - inversion H.
  - inversion H.
  - destruct (p c) eqn:Hp; inversion H; subst. now constructor.
  - destruct (Re.nullable r1) eqn:Hn.
    + inversion H; subst.
      * match goal with
        | Hc : Re.matches (Re.Cat _ _) _ |- _ => inversion Hc; subst
        end.
        change (c :: u ++ v) with ((c :: u) ++ v). constructor; auto.
      * change (c :: w) with ([] ++ c :: w). constructor; auto.
        now apply nullable_matches.
    + inversion H; subst.
      change (c :: u ++ v) with ((c :: u) ++ v). constructor; auto.
  - inversion H; subst.
    + apply Re.m_alt_l; auto.
    + apply Re.m_alt_r; auto.
  - inversion H; subst.
    change (c :: u ++ v) with ((c :: u) ++ v). constructor; auto.
Qed.

Lemma deriv_complete (c : ascii) (r : Re.regex) (w : list ascii) :
  Re.matches r w -> forall s, w = c :: s -> Re.matches (Re.deriv c r) s.
Proof.
  induction 1; intros w Hw; cbn.
  - discriminate.
  - injection Hw as <- <-. now rewrite H; constructor.
  - destruct u as [ | x u ].
    + cbn in Hw. subst v.
      assert (Hn : Re.nullable r = true) by now apply nullable_matches.
      rewrite Hn. apply Re.m_alt_r. now apply IHmatches2.
    + cbn in Hw. injection Hw as -> <-.
      assert (Hc : Re.matches (Re.Cat (Re.deriv c r) s) (u ++ v))
        by (constructor; auto).
      destruct (Re.nullable r); [ now apply Re.m_alt_l | exact Hc ].
  - apply Re.m_alt_l; auto.
  - apply Re.m_alt_r; auto.
  - discriminate.
  - destruct u as [ | x u ].
    + cbn in Hw. now apply IHmatches2.
    + cbn in Hw. injection Hw as -> <-. constructor; auto.
Qed.

(** The matcher decides the words of the pattern. *)
Lemma matchb_matches (s : list ascii) :
  forall r, Re.matchb r s = true <-> Re.matches r s.
Proof.
  induction s as [ | c s IH ]; intros r; cbn.
  - apply nullable_matches.
  - rewrite IH. split.
    + apply deriv_sound.
    + intros H. now apply deriv_complete with (w := c :: s).
Qed.

Lemma star_class (p : ascii -> bool) (s : list ascii) :
  Re.matches (Re.Star (Re.Class p)) s <-> forallb p s = true.
Proof.
  split.
  - intros H. remember (Re.Star (Re.Class p)) as r eqn:Hr.
    induction H; try discriminate; [ reflexivity | ].
    injection Hr as ->. inversion H; subst. cbn.
    rewrite IHmatches2 by reflexivity.
    match goal with Hc : p _ = true |- _ => now rewrite Hc end.
  - induction s as [ | c s IH ]; cbn; intros H; [ constructor | ].
    apply andb_true_iff in H as (Hc & Hs).
    change (c :: s) with ([c] ++ s). constructor; [ now constructor | auto ].
Qed.

Lemma plus_class (p : ascii -> bool) (s : list ascii) :
  Re.matches (Re.Plus (Re.Class p)) s <-> s <> [] /\ forallb p s = true.
Proof.
  unfold Re.Plus. split.
  - intros H. inversion H; subst.
    match goal with Hc : Re.matches (Re.Class _) _ |- _ => inversion Hc; subst
    end.
    match goal with Hs : Re.matches (Re.Star _) _ |- _ =>
      apply star_class in Hs end.
    cbn. split; [ discriminate | ].
    apply andb_true_iff. split; assumption.
  - intros (Hne & Hall). destruct s as [ | c s ]; [ contradiction | ].
    cbn in Hall. apply andb_true_iff in Hall as (Hc & Hs).
    change (c :: s) with ([c] ++ s).
    constructor; [ now constructor | now apply star_class ].
Qed.

Lemma chr_matches (c : ascii) (s : list ascii) :
  Re.matches (Re.chr c) s <-> s = [c].
Proof.
  unfold Re.chr. split.
  - intros H. inversion H; subst.
    match goal with Hc : Ascii.eqb _ _ = true |- _ =>
      apply Ascii.eqb_eq in Hc; now subst end.
  - intros ->. constructor. apply Ascii.eqb_refl.
Qed.

Lemma decimal_matches (s : list ascii) :
  Re.matches decimal s <->
  exists a b, is_number a /\ is_number b /\ s = a ++ "."%char :: b.
Proof.
  unfold decimal, is_number. split.
  - intros H. inversion H; subst.
    match goal with Hc : Re.matches (Re.Cat _ _) _ |- _ => inversion Hc; subst
    end.
    repeat match goal with
      | Hc : Re.matches (Re.Plus _) _ |- _ => apply plus_class in Hc
      | Hc : Re.matches (Re.chr _) _ |- _ => apply chr_matches in Hc; subst
      end.
    eauto.
  - intros (a & b & Ha & Hb & ->).
    constructor; [ now apply plus_class | ].
    change ("."%char :: b) with (["."%char] ++ b).
    constructor; [ now apply chr_matches | now apply plus_class ].
Qed.

Lemma dollar_matches (s : list ascii) :
  Re.matches Re.dollar s <-> s = [] \/ s = ["010"%char].
Proof.
  unfold Re.dollar. split.
  - intros H. inversion H; subst.
    + match goal with Hc : Re.matches Re.Eps _ |- _ => inversion Hc end.
      now left.
    + right. now apply chr_matches.
  - intros [-> | ->].
    + apply Re.m_alt_l. constructor.
    + apply Re.m_alt_r. now apply chr_matches.
Qed.

Lemma cat_matches (r s : Re.regex) (w : list ascii) :
  Re.matches (Re.Cat r s) w <->
  exists u v, w = u ++ v /\ Re.matches r u /\ Re.matches s v.
Proof.
  split.
  - intros H. inversion H; subst. eauto.
  - intros (u & v & -> & Hu & Hv). now constructor.
Qed.

(** The words of the coordinates pattern: two decimal numbers, a semicolon
    between them, and possibly one final newline. *)
Lemma coordinates_re_matches (s : list ascii) :
  Re.matches coordinates_re s <->
  exists t, lat_long t /\ (s = t \/ s = t ++ ["010"%char]).
Proof.
  unfold coordinates_re, lat_long. rewrite cat_matches.
  assert (Hshape : forall a b c d t : list ascii,
             (a ++ "."%char :: b) ++ [";"%char] ++ (c ++ "."%char :: d) ++ t
             = (a ++ "."%char :: b ++ ";"%char :: c ++ "."%char :: d) ++ t).
  { intros.
    repeat (rewrite <- app_assoc || rewrite <- app_comm_cons || cbn [app]).
    reflexivity. }
  split.
  - intros (u1 & w1 & -> & Hu1 & Hw1).
    apply cat_matches in Hw1 as (u2 & w2 & -> & Hu2 & Hw2).
    apply cat_matches in Hw2 as (u3 & w3 & -> & Hu3 & Hw3).
    apply decimal_matches in Hu1 as (a & b & Ha & Hb & ->).
    apply decimal_matches in Hu3 as (c & d & Hc & Hd & ->).
    apply chr_matches in Hu2 as ->.
    apply dollar_matches in Hw3.
    exists (a ++ "."%char :: b ++ ";"%char :: c ++ "."%char :: d).
    split; [ exists a, b, c, d; repeat split; first [ apply Ha | apply Hb | apply Hc | apply Hd ] | ].
    rewrite Hshape.
    destruct Hw3 as [-> | ->]; [ left; apply app_nil_r | right; reflexivity ].
  - intros (t & (a & b & c & d & Ha & Hb & Hc & Hd & ->) & Hs).
    assert (Htail : exists t, (t = [] \/ t = ["010"%char]) /\
              s = (a ++ "."%char :: b ++ ";"%char :: c ++ "."%char :: d) ++ t).
    { destruct Hs as [-> | ->].
      - exists []. split; [ now left | symmetry; apply app_nil_r ].
      - exists ["010"%char]. split; [ now right | reflexivity ]. }
    destruct Htail as (t & Ht & ->).
    exists (a ++ "."%char :: b), ([";"%char] ++ (c ++ "."%char :: d) ++ t).
    split; [ symmetry; apply Hshape | ].
    split; [ apply decimal_matches; eauto | ].
    apply cat_matches. do 2 eexists. split; [ reflexivity | ].
    split; [ now apply chr_matches | ].
    apply cat_matches. do 2 eexists. split; [ reflexivity | ].
    split; [ apply decimal_matches; eauto | ].
    now apply dollar_matches.
Qed.

(** ** Manual coordinates *)

Lemma lstrip_head (s : list ascii) (c : ascii) (t : list ascii) :
  lstrip s = c :: t -> is_space c = false.
Proof.
  induction s as [ | x s IH ]; cbn; [ discriminate | ].
  destruct (is_space x) eqn:Hx; [ exact IH | ].
  intros H. injection H as <- _. exact Hx.
Qed.

Lemma strip_last (s t : list ascii) (c : ascii) :
  strip s = t ++ [c] -> is_space c = false.
Proof.
  unfold strip. intros H.
  apply (f_equal (@rev ascii)) in H.
  rewrite rev_involutive, rev_app_distr in H. cbn in H.
  now apply lstrip_head in H.
Qed.

Lemma lstrip_in (s : list ascii) (c : ascii) :
  In c s -> is_space c = false -> In c (lstrip s).
Proof.
  induction s as [ | x s IH ]; cbn; [ tauto | ].
  intros [-> | Hin] Hc.
  - rewrite Hc. now left.
  - destruct (is_space x); [ auto | now right ].
Qed.

Lemma strip_in (s : list ascii) (c : ascii) :
  In c s -> is_space c = false -> In c (strip s).
Proof.
  intros Hin Hc. unfold strip.
  apply in_rev. rewrite rev_involutive.
  apply lstrip_in; [ | assumption ].
  apply in_rev. rewrite rev_involutive.
  now apply lstrip_in.
Qed.

(** A string of the form [lat;long] has digits, dots and one semicolon. *)
Lemma lat_long_characters (s : list ascii) (x : ascii) :
  lat_long s -> In x s ->
  Re.digit x = true \/ x = "."%char \/ x = ";"%char.
Proof.
  intros (a & b & c & d & (_ & Ha) & (_ & Hb) & (_ & Hc) & (_ & Hd) & ->) Hin.
  rewrite forallb_forall in Ha, Hb, Hc, Hd.
  repeat (apply in_app_or in Hin as [Hin | Hin]
          || (cbn [In] in Hin; destruct Hin as [Hin | Hin])); auto.
Qed.

(** The first character of a string that is not a digit. *)
Lemma first_non_digit (l1 l2 r1 r2 : list ascii) (x y : ascii) :
  forallb Re.digit l1 = true -> forallb Re.digit l2 = true ->
  Re.digit x = false -> Re.digit y = false ->
  l1 ++ x :: r1 = l2 ++ y :: r2 -> x = y.
Proof.
  revert l2. induction l1 as [ | c l1 IH ]; intros [ | c' l2 ]; cbn;
    intros H1 H2 Hx Hy Heq.
  - now injection Heq.
  - injection Heq as -> _. apply andb_true_iff in H2 as (H2 & _). congruence.
  - injection Heq as <- _. apply andb_true_iff in H1 as (H1 & _). congruence.
  - injection Heq as _ Heq.
    apply andb_true_iff in H1 as (_ & H1).
    apply andb_true_iff in H2 as (_ & H2). eauto.
Qed.

Lemma forallb_rev (p : ascii -> bool) (l : list ascii) :
  forallb p l = true -> forallb p (rev l) = true.
Proof.
  rewrite !forallb_forall. intros H x Hx. apply H. now apply in_rev.
Qed.

(** Neither part of [lat;long] is an integer without a fractional part. *)
Lemma lat_long_no_integer (lat lng : list ascii) :
  lat_long (lat ++ ";"%char :: lng) ->
  forallb Re.digit lat = true \/ forallb Re.digit lng = true -> False.
Proof.
  intros (a & b & c & d & (_ & Ha) & (_ & Hb) & (_ & Hc) & (_ & Hd) & Heq).
  intros [Hlat | Hlng].
  - assert (H : ";"%char = "."%char)
      by (eapply first_non_digit; [ exact Hlat | exact Ha | | | exact Heq ];
          reflexivity).
    discriminate.
  - apply (f_equal (@rev ascii)) in Heq.
    replace (a ++ "."%char :: b ++ ";"%char :: c ++ "."%char :: d)
      with ((a ++ "."%char :: b ++ ";"%char :: c) ++ "."%char :: d) in Heq
      by (repeat (rewrite <- app_assoc || rewrite <- app_comm_cons);
          reflexivity).
    rewrite !rev_app_distr in Heq. cbn [rev] in Heq.
    rewrite <- !app_assoc in Heq. cbn [app] in Heq.
    assert (H : ";"%char = "."%char)
      by (eapply first_non_digit;
          [ apply forallb_rev, Hlng | apply forallb_rev, Hd | | | exact Heq ];
          reflexivity).
    discriminate.
Qed.

Lemma read_config_enabled (config : Config) (self : Astro) :
  _enabled (fst (_read_config config self))
  = Re.matchb coordinates_re (strip (coordinates_entry config)) /\
  snd (_read_config config self)
  = negb (Re.matchb coordinates_re (strip (coordinates_entry config))).
Proof.
  unfold _read_config. fold (coordinates_entry config).
  destruct (Re.matchb coordinates_re (strip (coordinates_entry config))).
  - destruct (groups (strip (coordinates_entry config))). split; reflexivity.
  - split; reflexivity.
Qed.

Lemma matchb_lat_long (config : Config) :
  Re.matchb coordinates_re (strip (coordinates_entry config)) = true <->
  lat_long (strip (coordinates_entry config)).
Proof.
  rewrite matchb_matches, coordinates_re_matches. split.
  - intros (t & Ht & [Hs | Hs]); [ now rewrite Hs | ].
    apply strip_last in Hs. discriminate.
  - intros H. eexists. split; [ exact H | now left ].
Qed.

(** C10. [_read_config] enables the plugin exactly when the stripped
    [coordinates] entry is two numbers written with digits and a dot, joined
    by a semicolon, which is what the pattern [^(\d+\.\d+);(\d+\.\d+)$]
    matches; otherwise the plugin stays disabled and the thread that
    geocodes the location is started.  In particular an entry that contains
    a minus sign, or whose latitude or longitude is an integer without a
    fractional part, leaves the plugin disabled and starts the geocoding. *)
Theorem manual_coordinates (config : Config) (self : Astro) :
  (_enabled (fst (_read_config config self)) = true <->
   Re.matchb coordinates_re (strip (coordinates_entry config)) = true) /\
  (_enabled (fst (_read_config config self)) = true <->
   lat_long (strip (coordinates_entry config))) /\
  snd (_read_config config self)
  = negb (_enabled (fst (_read_config config self))) /\
  (In "-"%char (coordinates_entry config) \/
   (exists lat lng,
      strip (coordinates_entry config) = lat ++ ";"%char :: lng /\
      (forallb Re.digit lat = true \/ forallb Re.digit lng = true)) ->
   _enabled (fst (_read_config config self)) = false /\
   snd (_read_config config self) = true).
Proof.
  destruct (read_config_enabled config self) as (Hen & Hth).
  rewrite Hen, Hth.
  split; [ tauto | ]. split; [ apply matchb_lat_long | ].
  split; [ reflexivity | ].
  intros Hbad.
  destruct (Re.matchb coordinates_re (strip (coordinates_entry config)))
    eqn:Hm; [ exfalso | split; reflexivity ].
  apply matchb_lat_long in Hm.
  destruct Hbad as [Hminus | (lat & lng & Hs & Hint)].
  - apply strip_in in Hminus; [ | reflexivity ].
    destruct (lat_long_characters _ _ Hm Hminus) as [H | [H | H]];
      discriminate.
  - rewrite Hs in Hm. exact (lat_long_no_integer lat lng Hm Hint).
Qed.

Lemma manual_coordinates_witness :
  _enabled (fst (_read_config Sample.sydney Sample.plugin)) = false /\
  snd (_read_config Sample.sydney Sample.plugin) = true.
Proof.
  apply (proj2 (proj2 (proj2
           (manual_coordinates Sample.sydney Sample.plugin)))).
  left. cbn. left. reflexivity.
Defined.

(** The three sample entries: Brussels is taken, with its two groups as
    latitude and longitude; Sydney and the entry in whole degrees are not. *)
Example read_config_brussels :
  _read_config Sample.brussels Sample.plugin
  = ({| _bright_bit := -1; _horizon_bit := -1; _civil_bit := -1;
        _nautical_bit := -1; _astronomical_bit := -1;
        _bright_offset := 60; _group_action := -1;
        _previous_bits := no_previous_bits; _enabled := true;
        _latitude := Some "50.85"%string; _longitude := Some "4.35"%string;
        sunrise_data := None; _sleep_until := 0 |}, false).
Proof. vm_compute. reflexivity. Qed.

Example read_config_whole_degrees :
  _enabled (fst (_read_config Sample.whole_degrees Sample.plugin)) = false /\
  snd (_read_config Sample.whole_degrees Sample.plugin) = true.
Proof. split; vm_compute; reflexivity. Qed.

(** The two groups of a matching entry are its two numbers. *)
Lemma groups_semicolon (a t : list ascii) :
  (forall x, In x a -> x <> ";"%char) -> groups (a ++ ";"%char :: t) = (a, t).
Proof.
  induction a as [ | x a IH ]; cbn; intros Ha; [ reflexivity | ].
  destruct (Ascii.eqb_spec x ";"%char) as [-> | _].
  - exfalso. apply (Ha ";"%char); [ now left | reflexivity ].
  - rewrite IH; [ reflexivity | ]. intros y Hy. apply Ha. now right.
Qed.

Lemma groups_lat_long (a b c d : list ascii) :
  is_number a -> is_number b ->
  groups (a ++ "."%char :: b ++ ";"%char :: c ++ "."%char :: d)
  = (a ++ "."%char :: b, c ++ "."%char :: d).
Proof.
  intros (_ & Ha) (_ & Hb).
  replace (a ++ "."%char :: b ++ ";"%char :: c ++ "."%char :: d)
    with ((a ++ "."%char :: b) ++ ";"%char :: c ++ "."%char :: d)
    by (rewrite <- app_assoc; reflexivity).
  apply groups_semicolon. intros x Hx ->.
  rewrite forallb_forall in Ha, Hb.
  apply in_app_or in Hx as [Hx | [Hx | Hx]].
  - apply Ha in Hx. discriminate.
  - discriminate.
  - apply Hb in Hx. discriminate.
Qed.

(** ** A timestamp that does not parse *)

(** [strptime] raises [ValueError] on the first timestamp of the answer, and
    the iteration ends in the exception handler. *)
Remark malformed_sunrise_aborts w self l data :
  _enabled self = true ->
  data_in_use w self = inr data ->
  Api.status data = "OK"%string ->
  Api.sunrise (Api.body data) = Api.Malformed ->
  run_iteration w self l
  = (sleep_until_tomorrow w (after_fetch w self), l, []).
Proof.
  intros Hen Hdata Hok Hbad.
  apply (run_iteration_raised _ _ _ _ _ ValueError Hen Hdata Hok).
  unfold evaluate, load_data, bind, lift. rewrite Hbad. reflexivity.
Qed.

(** ** The locals from one iteration to the next *)

(** When [run] starts on a polar day the iteration aborts; when it starts on
    a day with a sunrise and a sunset and the polar day comes next, the
    locals of the first iteration are still there and the second one takes
    the polar branch: every bit is set. *)
Example polar_day_after_a_sunny_day :
  snd (run_loop [Sample.world 12 0 (inr (Sample.ok Sample.polar))]
         (fst (run_start Sample.plugin)) (snd (run_start Sample.plugin)))
  = [[]] /\
  snd (run_loop
         [Sample.world 12 0 (inr (Sample.ok Sample.equinox));
          Sample.next_day (Sample.world 12 0 (inr (Sample.ok Sample.polar)))]
         (fst (run_start Sample.plugin)) (snd (run_start Sample.plugin)))
  = [[do_basic_action 237 10; do_basic_action 237 11; do_basic_action 237 12;
      do_basic_action 237 13; do_basic_action 237 14; do_basic_action 2 7];
     [do_basic_action 237 10; do_basic_action 237 11; do_basic_action 237 12;
      do_basic_action 237 13; do_basic_action 237 14]].
Proof. split; vm_compute; reflexivity. Qed.

(** * More properties *)

(** ** [_seconds_to_tomorrow] *)

Lemma int_floor (d : timedelta) :
  0 <= d -> int d <= d < int d + second /\ int d mod second = 0.
Proof.
  intros H. unfold int.
  assert (Hs : 0 < second) by (unfold second; lia).
  rewrite Z.quot_div_nonneg by lia.
  pose proof (Z.div_mod d second).
  pose proof (Z.mod_pos_bound d second Hs).
  split; [ lia | ]. apply Z.mod_mul. lia.
Qed.

(** X1. [_seconds_to_tomorrow] returns a whole number of seconds between 0
    and 86400, and it is the time to the next local midnight rounded down:
    waiting that long ends at or before midnight, less than a second
    early. *)
Theorem seconds_to_tomorrow_reaches_midnight (local_now : datetime) :
  0 <= _seconds_to_tomorrow local_now <= day /\
  _seconds_to_tomorrow local_now mod second = 0 /\
  local_now + _seconds_to_tomorrow local_now <= local_now / day * day + day /\
  local_now / day * day + day
    < local_now + _seconds_to_tomorrow local_now + second /\
  (local_now / day * day + day) mod day = 0.
Proof.
  unfold _seconds_to_tomorrow.
  assert (Hd : 0 < day) by (unfold day, second; lia).
  pose proof (Z.mod_pos_bound local_now day Hd) as Hm.
  pose proof (Z.div_mod local_now day) as Hq.
  assert (Hpos : 0 <= local_now / day * day + day - local_now) by lia.
  destruct (int_floor _ Hpos) as ((Hle & Hlt) & Hmod).
  assert (Hsec : 0 < second) by (unfold second; lia).
  split; [ split | split; [ exact Hmod | split; [ | split ] ] ].
  - apply int_nonneg, Hpos.
  - lia.
  - lia.
  - lia.
  - replace (local_now / day * day + day) with ((local_now / day + 1) * day)
      by lia.
    apply Z.mod_mul. lia.
Qed.

(** ** [_convert] *)

Lemma year_1970_seconds (secs : Z) :
  year_is_1970 (secs * second) = true <-> 0 <= secs < 365 * 86400.
Proof.
  unfold year_is_1970, day, second.
  rewrite andb_true_iff, Z.leb_le, Z.ltb_lt. lia.
Qed.

Lemma representable_1970 (secs : Z) :
  0 <= secs < 365 * 86400 -> representable (secs * second) = true.
Proof.
  intros H. unfold representable, datetime_min, datetime_max, day, second.
  apply andb_true_iff. rewrite Z.leb_le, Z.leb_le. lia.
Qed.

(** X2. [_convert] returns [None] exactly for the timestamps of the year
    1970, any instant of that year and not only the epoch; it returns every
    other timestamp that [strptime] can read as that instant; and it raises
    [ValueError], and nothing else, on a string that [strptime] cannot
    read. *)
Theorem convert_cases (s : Api.dt_string) :
  (_convert s = inr None <->
   exists secs, s = Api.Timestamp secs /\ 0 <= secs < 365 * 86400) /\
  (forall d, _convert s = inr (Some d) <->
     exists secs, s = Api.Timestamp secs /\ d = secs * second /\
                  representable d = true /\
                  ~ 0 <= secs < 365 * 86400) /\
  (forall e, _convert s = inl e <->
     e = ValueError /\
     (s = Api.Malformed \/
      exists secs, s = Api.Timestamp secs /\
                   representable (secs * second) = false)).
Proof.
  unfold _convert, strptime.
  destruct s as [secs | ].
  - destruct (representable (secs * second)) eqn:Hr.
    + destruct (year_is_1970 (secs * second)) eqn:Hy.
      * apply year_1970_seconds in Hy.
        split; [ | split ].
        -- split; [ eauto | reflexivity ].
        -- intros d. split; [ discriminate | ].
           intros (x & Hx & _ & _ & Hn). injection Hx as <-. contradiction.
        -- intros e. split; [ discriminate | ].
           intros (_ & [Hm | (x & Hx & Hf)]); [ discriminate | ].
           injection Hx as <-. congruence.
      * assert (Hn : ~ 0 <= secs < 365 * 86400).
        { intros H. apply year_1970_seconds in H. congruence. }
        split; [ | split ].
        -- split; [ discriminate | ].
           intros (x & Hx & H). injection Hx as <-. contradiction.
        -- intros d. split.
           ++ intros H. injection H as <-. eauto 6.
           ++ intros (x & Hx & -> & _). injection Hx as <-. reflexivity.
        -- intros e. split; [ discriminate | ].
           intros (_ & [Hm | (x & Hx & Hf)]); [ discriminate | ].
           injection Hx as <-. congruence.
    + split; [ | split ].
      * split; [ discriminate | ].
        intros (x & Hx & H). injection Hx as <-.
        apply representable_1970 in H. congruence.
      * intros d. split; [ discriminate | ].
        intros (x & Hx & -> & H & _). injection Hx as <-. congruence.
      * intros e. split.
        -- intros H. injection H as <-. split; [ reflexivity | eauto ].
        -- intros (-> & _). reflexivity.
  - split; [ | split ].
    + split; [ discriminate | ]. intros (x & Hx & _). discriminate.
    + intros d. split; [ discriminate | ].
      intros (x & Hx & _). discriminate.
    + intros e. split.
      * intros H. injection H as <-. split; [ reflexivity | now left ].
      * intros (-> & _). reflexivity.
Qed.

(** ** The name of the phase *)

(** X3. The name that lines 297-307 give to a phase is that of the first
    flag that is set in the order bright, day, civil, nautical,
    astronomical, and [night] exactly when none is set. *)
Theorem phase_name_is_brightest_flag (bits : list bool) :
  (phase_name bits = "day (bright)"%string <-> bright bits = true) /\
  (phase_name bits = "day"%string <->
   bright bits = false /\ daylight bits = true) /\
  (phase_name bits = "civil twilight"%string <->
   bright bits = false /\ daylight bits = false /\ civil bits = true) /\
  (phase_name bits = "nautical twilight"%string <->
   bright bits = false /\ daylight bits = false /\ civil bits = false /\
   nautical bits = true) /\
  (phase_name bits = "astronomical twilight"%string <->
   bright bits = false /\ daylight bits = false /\ civil bits = false /\
   nautical bits = false /\ astronomical bits = true) /\
  (phase_name bits = "night"%string <->
   bright bits = false /\ daylight bits = false /\ civil bits = false /\
   nautical bits = false /\ astronomical bits = false).
Proof.
  unfold phase_name, bright, daylight, civil, nautical, astronomical.
  destruct (item 0 bits), (item 1 bits), (item 2 bits), (item 3 bits),
    (item 4 bits);
    repeat split; intros; try discriminate; try reflexivity;
    repeat match goal with H : _ /\ _ |- _ => destruct H end;
    discriminate.
Qed.

(** ** What every iteration does *)

Lemma seconds_to_tomorrow_le_day (local_now : datetime) :
  _seconds_to_tomorrow local_now <= day.
Proof.
  unfold _seconds_to_tomorrow.
  assert (Hd : 0 < day) by (unfold day, second; lia).
  pose proof (Z.mod_pos_bound local_now day Hd).
  pose proof (Z.div_mod local_now day).
  assert (Hpos : 0 <= local_now / day * day + day - local_now) by lia.
  pose proof (int_le _ Hpos). lia.
Qed.

(** The three ways an iteration ends: disabled, in the [else] branch or the
    exception handler, or after an evaluation. *)
Lemma run_iteration_cases (w : World) (self : Astro) (l : Locals) :
  (_enabled self = false /\
   run_iteration w self l = (_sleep self (time_time w + 30 * second), l, []))
  \/
  (_enabled self = true /\
   exists l',
     run_iteration w self l
     = (sleep_until_tomorrow w (after_fetch w self), l', []))
  \/
  (_enabled self = true /\
   exists data l' bits sleep info,
     data_in_use w self = inr data /\
     Api.status data = "OK"%string /\
     evaluate self (Api.body data) (utcnow w) (local_now w) l
       = (l', inr (bits, sleep, info)) /\
     run_iteration w self l
     = (_sleep (fst (zone_change (after_fetch w self) bits))
               (time_time w + sleep + 5 * second),
        l',
        set_bits self bits ++ snd (zone_change (after_fetch w self) bits))).
Proof.
  destruct (_enabled self) eqn:Hen.
  - right.
    destruct (data_in_use w self) as [e | data] eqn:Hdata.
    + left. split; [ reflexivity | ]. exists l.
      unfold run_iteration, data_in_use, after_fetch in *. rewrite Hen.
      destruct (get_sun_data_or_cached w self) as [self1 fetched].
      cbn [fst snd] in *. subst fetched. reflexivity.
    + destruct (String.eqb_spec (Api.status data) "OK") as [Hok | Hno].
      * destruct (evaluate self (Api.body data) (utcnow w) (local_now w) l)
          as [l' [e | [[bits sleep] info]]] eqn:Hev.
        -- left. split; [ reflexivity | ]. exists l'.
           now apply run_iteration_raised with (data := data) (e := e).
        -- right. split; [ reflexivity | ].
           exists data, l', bits, sleep, info.
           repeat split; try assumption.
           now apply run_iteration_evaluated with (data := data) (info := info).
      * left. split; [ reflexivity | ]. exists l.
        unfold run_iteration, data_in_use, after_fetch in *. rewrite Hen.
        destruct (get_sun_data_or_cached w self) as [self1 fetched].
        cbn [fst snd] in *. subst fetched.
        apply String.eqb_neq in Hno. rewrite Hno. reflexivity.
  - left. split; [ reflexivity | ].
    unfold run_iteration. rewrite Hen. reflexivity.
Qed.

Lemma store_length (i : nat) (v : bool) (bits : list bool) :
  List.length (store i v bits) = List.length bits.
Proof.
  revert i. induction bits as [ | h t IH ]; intros [ | j ]; cbn;
    try reflexivity. now rewrite IH.
Qed.

Lemma analyse_bright_keeps d now bits sleep l l' bits' sleep' :
  analyse_bright d now (bits, sleep) l = (l', inr (bits', sleep')) ->
  List.length bits' = List.length bits /\ sleep' <= sleep.
Proof.
  unfold analyse_bright, bind, read_bright_beg, read_bright_end, ret.
  intros H. split_matches H; invert_pairs; rewrite ?store_length; split;
    try reflexivity; try lia;
    destruct bits as [ | ? [ | ? ? ] ]; reflexivity.
Qed.

Lemma analyse_day_keeps d now bits sleep l l' bits' sleep' :
  analyse_day d now (bits, sleep) l = (l', inr (bits', sleep')) ->
  List.length bits' = List.length bits /\ sleep' <= sleep.
Proof.
  unfold analyse_day, bind, between, lt, seconds_between, bind, ret, raise.
  intros H. split_matches H; invert_pairs; rewrite ?store_length; split;
    try reflexivity; try lia;
    destruct bits as [ | ? [ | ? ? ] ]; reflexivity.
Qed.

Lemma analyse_twilight_keeps i has beg end_ broader d now bits sleep l l'
    bits' sleep' :
  analyse_twilight i has beg end_ broader d now (bits, sleep) l
    = (l', inr (bits', sleep')) ->
  List.length bits' = List.length bits /\ sleep' <= sleep.
Proof.
  unfold analyse_twilight, bind, between, lt, seconds_between, bind, ret,
    raise.
  intros H. split_matches H; invert_pairs; rewrite ?store_length; split;
    try reflexivity; try lia;
    destruct bits as [ | ? [ | ? ? ] ]; reflexivity.
Qed.

Lemma bind_inr {A B} (m : M A) (k : A -> M B) l l' (x : B) :
  bind m k l = (l', inr x) ->
  exists l1 a, m l = (l1, inr a) /\ k a l1 = (l', inr x).
Proof.
  unfold bind. destruct (m l) as [l1 [e | a]]; [ discriminate | eauto ].
Qed.

Lemma analyse_data_returns d now local_now l l' bits sleep info :
  analyse_data d now local_now l = (l', inr (bits, sleep, info)) ->
  List.length bits = 5%nat /\
  sleep <= _seconds_to_tomorrow local_now /\
  (info = "polar day"%string \/ info = phase_name bits).
Proof.
  unfold analyse_data.
  destruct (negb (has_sun d || has_civil d || has_nautical d
                  || has_astronomical d)).
  - intros H. inversion H; subst. split; [ reflexivity | ].
    split; [ lia | now left ].
  - intros H.
    apply bind_inr in H as (l1 & [b1 s1] & H1 & H).
    apply bind_inr in H as (l2 & [b2 s2] & H2 & H).
    apply bind_inr in H as (l3 & [b3 s3] & H3 & H).
    apply bind_inr in H as (l4 & [b4 s4] & H4 & H).
    apply bind_inr in H as (l5 & [b5 s5] & H5 & H).
    inversion H; subst.
    apply analyse_bright_keeps in H1 as (L1 & _).
    apply analyse_day_keeps in H2 as (L2 & _).
    apply analyse_twilight_keeps in H3 as (L3 & _).
    apply analyse_twilight_keeps in H4 as (L4 & _).
    apply analyse_twilight_keeps in H5 as (L5 & _).
    split; [ rewrite L5, L4, L3, L2, L1; reflexivity | ].
    split; [ apply Z.le_min_r | now right ].
Qed.

Lemma evaluate_returns self r now local_now l l' bits sleep info :
  evaluate self r now local_now l = (l', inr (bits, sleep, info)) ->
  List.length bits = 5%nat /\
  sleep <= _seconds_to_tomorrow local_now /\
  (info = "polar day"%string \/ info = phase_name bits).
Proof.
  unfold evaluate. intros H.
  apply bind_inr in H as (l1 & d & _ & H).
  now apply analyse_data_returns in H.
Qed.

(** X4. Whatever the answer, the clock and the state, an enabled iteration
    asks for a sleep that ends at most five seconds after the next local
    midnight, so at most a day and five seconds long, and a disabled one for
    thirty seconds: the data is looked at again at least once a day. *)
Theorem sleep_is_capped (w : World) (self : Astro) (l : Locals) :
  wake_delta w (fst (fst (run_iteration w self l)))
  <= (if _enabled self
      then _seconds_to_tomorrow (local_now w) + 5 * second
      else 30 * second) /\
  wake_delta w (fst (fst (run_iteration w self l))) <= day + 5 * second.
Proof.
  pose proof (seconds_to_tomorrow_le_day (local_now w)) as Hday.
  destruct (run_iteration_cases w self l)
    as [(Hen & ->) | [(Hen & l' & ->) | (Hen & data & l' & bits & sleep & info
                                         & _ & _ & Hev & ->)]];
    rewrite Hen; cbn [fst].
  - rewrite wake_delta_sleep. unfold day, second. lia.
  - unfold sleep_until_tomorrow.
    rewrite <- Z.add_assoc, wake_delta_sleep. lia.
  - rewrite <- Z.add_assoc, wake_delta_sleep.
    apply evaluate_returns in Hev as (_ & Hle & _). lia.
Qed.

(** X5. An evaluation that returns gives five flags, a sleep that does not
    go past the next local midnight, and as name either [polar day] or the
    name of its brightest flag. *)
Theorem evaluation_is_well_formed self r now local_now l l' bits sleep info :
  evaluate self r now local_now l = (l', inr (bits, sleep, info)) ->
  List.length bits = 5%nat /\
  sleep <= _seconds_to_tomorrow local_now /\
  sleep <= day /\
  (info = "polar day"%string \/ info = phase_name bits).
Proof.
  intros H. apply evaluate_returns in H as (H5 & Hle & Hname).
  pose proof (seconds_to_tomorrow_le_day local_now).
  repeat split; try assumption. lia.
Qed.

Lemma evaluation_is_well_formed_witness :
  List.length [true; true; true; true; false] = 5%nat /\
  Sample.instant 19 0 - Sample.instant 12 0
  <= _seconds_to_tomorrow (Sample.instant 12 0) /\
  Sample.instant 19 0 - Sample.instant 12 0 <= day /\
  ("day (bright)"%string = "polar day"%string \/
   "day (bright)"%string = phase_name [true; true; true; true; false]).
Proof.
  apply (evaluation_is_well_formed Sample.plugin Sample.midsummer
           (Sample.instant 12 0) (Sample.instant 12 0) unbound
           {| bright_beg := Some (Sample.instant 4 30);
              bright_end := Some (Sample.instant 19 0) |}).
  vm_compute. reflexivity.
Defined.

(** ** What [run] leaves alone *)

Lemma same_settings_refl (s : Astro) : same_settings s s.
Proof. repeat split. Qed.

Lemma same_settings_trans (s1 s2 s3 : Astro) :
  same_settings s1 s2 -> same_settings s2 s3 -> same_settings s1 s3.
Proof.
  unfold same_settings. intros (A1 & A2 & A3 & A4 & A5 & A6)
    (B1 & B2 & B3 & B4 & B5 & B6).
  repeat split; congruence.
Qed.

Lemma same_settings_sleep (s : Astro) (t : Z) : same_settings s (_sleep s t).
Proof. repeat split. Qed.

Lemma same_settings_after_fetch (w : World) (s : Astro) :
  same_settings s (after_fetch w s).
Proof.
  unfold after_fetch, get_sun_data_or_cached.
  destruct (answer w); cbn.
  - destruct (sunrise_data s); repeat split.
  - repeat split.
Qed.

Lemma same_settings_zone_change (s : Astro) (bits : list bool) :
  same_settings s (fst (zone_change s bits)).
Proof.
  unfold zone_change. destruct (negb (flags_eqb _ _)); repeat split.
Qed.

Lemma run_iteration_settings (w : World) (self : Astro) (l : Locals) :
  same_settings self (fst (fst (run_iteration w self l))).
Proof.
  destruct (run_iteration_cases w self l)
    as [(Hen & ->) | [(Hen & l' & ->) | (Hen & data & l' & bits & sleep & info
                                         & _ & _ & _ & ->)]];
    cbn [fst].
  - apply same_settings_sleep.
  - unfold sleep_until_tomorrow.
    eapply same_settings_trans;
      [ apply same_settings_after_fetch | apply same_settings_sleep ].
  - eapply same_settings_trans; [ apply same_settings_after_fetch | ].
    eapply same_settings_trans;
      [ apply same_settings_zone_change | apply same_settings_sleep ].
Qed.

Lemma run_loop_cons w ws self l :
  run_loop (w :: ws) self l
  = (fst (fst (run_loop ws (fst (fst (run_iteration w self l)))
                       (snd (fst (run_iteration w self l))))),
     snd (fst (run_loop ws (fst (fst (run_iteration w self l)))
                       (snd (fst (run_iteration w self l))))),
     snd (run_iteration w self l)
       :: snd (run_loop ws (fst (fst (run_iteration w self l)))
                        (snd (fst (run_iteration w self l))))).
Proof.
  cbn [run_loop].
  destruct (run_iteration w self l) as [[s1 l1] c1]. cbn [fst snd].
  destruct (run_loop ws s1 l1) as [[s2 l2] c2]. reflexivity.
Qed.

(** X6. [run] never writes the settings of the instance: after any number
    of iterations, whatever they meet, the five output bits, the bright
    offset, the group action, the coordinates and the enabled flag are what
    they were. *)
Theorem run_keeps_the_settings (ws : list World) (self : Astro) (l : Locals) :
  same_settings self (fst (fst (run_loop ws self l))).
Proof.
  revert self l. induction ws as [ | w ws IH ]; intros self l.
  - apply same_settings_refl.
  - rewrite run_loop_cons. cbn [fst].
    eapply same_settings_trans; [ apply run_iteration_settings | apply IH ].
Qed.

(** X7. While the plugin is disabled the loop does nothing but sleep:
    whatever the iterations meet, no call is made, no request changes the
    cached answer, and [_previous_bits] and the locals stay as they are. *)
Theorem disabled_loop_is_idle (ws : list World) (self : Astro) (l : Locals) :
  _enabled self = false ->
  Forall (fun calls => calls = []) (snd (run_loop ws self l)) /\
  snd (fst (run_loop ws self l)) = l /\
  _previous_bits (fst (fst (run_loop ws self l))) = _previous_bits self /\
  sunrise_data (fst (fst (run_loop ws self l))) = sunrise_data self /\
  _enabled (fst (fst (run_loop ws self l))) = false.
Proof.
  revert self. induction ws as [ | w ws IH ]; intros self Hen.
  - cbn. repeat split; [ constructor | assumption ].
  - rewrite run_loop_cons. cbn [fst snd].
    assert (Hstep : run_iteration w self l
                    = (_sleep self (time_time w + 30 * second), l, []))
      by (unfold run_iteration; rewrite Hen; reflexivity).
    rewrite Hstep. cbn [fst snd].
    destruct (IH (_sleep self (time_time w + 30 * second)) Hen)
      as (Hcalls & Hl & Hprev & Hdata & Hen').
    repeat split; try assumption. constructor; [ reflexivity | assumption ].
Qed.

Lemma disabled_loop_is_idle_witness :
  Forall (fun calls => calls = [])
    (snd (run_loop [Sample.world 12 0 (inr (Sample.ok Sample.equinox));
                    Sample.world 12 0 (inl RequestException)]
            Scenario.disabled unbound)) /\
  snd (fst (run_loop [Sample.world 12 0 (inr (Sample.ok Sample.equinox));
                      Sample.world 12 0 (inl RequestException)]
              Scenario.disabled unbound)) = unbound /\
  _previous_bits
    (fst (fst (run_loop [Sample.world 12 0 (inr (Sample.ok Sample.equinox));
                         Sample.world 12 0 (inl RequestException)]
                 Scenario.disabled unbound)))
  = _previous_bits Scenario.disabled /\
  sunrise_data
    (fst (fst (run_loop [Sample.world 12 0 (inr (Sample.ok Sample.equinox));
                         Sample.world 12 0 (inl RequestException)]
                 Scenario.disabled unbound)))
  = sunrise_data Scenario.disabled /\
  _enabled
    (fst (fst (run_loop [Sample.world 12 0 (inr (Sample.ok Sample.equinox));
                         Sample.world 12 0 (inl RequestException)]
                 Scenario.disabled unbound))) = false.
Proof.
  apply (disabled_loop_is_idle
           [Sample.world 12 0 (inr (Sample.ok Sample.equinox));
            Sample.world 12 0 (inl RequestException)]
           Scenario.disabled unbound).
  reflexivity.
Defined.

(** ** An instance wired to nothing *)

Lemma unwired_no_set_bits (self : Astro) (bits : list bool) :
  Forall (fun o => snd o <= -1) (outputs self) -> set_bits self bits = [].
Proof.
  unfold set_bits. fold (outputs self).
  induction 1 as [ | (i & bit) o Hbit _ IH ]; [ reflexivity | ].
  cbn [flat_map]. cbn [snd] in Hbit.
  destruct (Z.gtb_spec bit (-1)); [ lia | exact IH ].
Qed.

Lemma unwired_no_group_action (self : Astro) (bits : list bool) :
  _group_action self = -1 -> snd (zone_change self bits) = [].
Proof.
  unfold zone_change. intros ->.
  destruct (negb (flags_eqb _ _)); reflexivity.
Qed.

Lemma unwired_settings (s1 s2 : Astro) :
  same_settings s1 s2 -> unwired s1 -> unwired s2.
Proof.
  unfold same_settings, unwired. intros (<- & _ & <- & _) H. exact H.
Qed.

Lemma unwired_iteration (w : World) (self : Astro) (l : Locals) :
  unwired self -> snd (run_iteration w self l) = [].
Proof.
  intros (Hbits & Hga).
  destruct (run_iteration_cases w self l)
    as [(Hen & ->) | [(Hen & l' & ->) | (Hen & data & l' & bits & sleep & info
                                         & _ & _ & _ & ->)]];
    cbn [snd]; try reflexivity.
  rewrite unwired_no_set_bits by assumption.
  apply unwired_no_group_action.
  destruct (same_settings_after_fetch w self) as (_ & _ & <- & _).
  exact Hga.
Qed.

(** X8. An instance whose five bits are -1 or less and whose group action
    is -1, as the default configuration makes it, never calls
    [do_basic_action], whatever its iterations meet. *)
Theorem unwired_plugin_never_calls (ws : list World) (self : Astro)
    (l : Locals) :
  unwired self ->
  Forall (fun calls => calls = []) (snd (run_loop ws self l)).
Proof.
  revert self l. induction ws as [ | w ws IH ]; intros self l Hun.
  - constructor.
  - rewrite run_loop_cons. cbn [snd]. constructor.
    + now apply unwired_iteration.
    + apply IH. eapply unwired_settings; [ | exact Hun ].
      apply run_iteration_settings.
Qed.

Lemma unwired_plugin_never_calls_witness :
  Forall (fun calls => calls = [])
    (snd (run_loop [Sample.world 12 0 (inr (Sample.ok Sample.equinox));
                    Sample.world 21 0 (inr (Sample.ok Sample.equinox))]
            Scenario.idle unbound)).
Proof.
  apply (unwired_plugin_never_calls
           [Sample.world 12 0 (inr (Sample.ok Sample.equinox));
            Sample.world 21 0 (inr (Sample.ok Sample.equinox))]
           Scenario.idle unbound).
  split; [ | reflexivity ].
  repeat constructor; cbn; lia.
Defined.

(** ** The flags of a day with sunrise and sunset *)

(** X9. On a day with sunrise and sunset the evaluation returns, its day
    flag says [sunrise < now < sunset], its bright flag says
    [sunrise + offset < now < sunset - offset], and the flag of every
    twilight pair that is present says [begin < now < end], with strict
    comparisons: on an edge itself the flag is not set. *)
Theorem flags_are_windows self r b sr ss now local_now l :
  sun_day self r b sr ss ->
  exists l' bits sleep info,
    evaluate self r now local_now l = (l', inr (bits, sleep, info)) /\
    (daylight bits = true <-> sr < now < ss) /\
    (bright bits = true <->
     sr + minutes (_bright_offset self) < now
     < ss - minutes (_bright_offset self)) /\
    (forall cb ce, b_civil_beg b = Some cb -> b_civil_end b = Some ce ->
       (civil bits = true <-> cb < now < ce)) /\
    (forall nb ne, b_nautical_beg b = Some nb -> b_nautical_end b = Some ne ->
       (nautical bits = true <-> nb < now < ne)) /\
    (forall ab ae, b_astronomical_beg b = Some ab ->
                   b_astronomical_end b = Some ae ->
       (astronomical bits = true <-> ab < now < ae)).
Proof.
  intros Hday.
  rewrite (evaluate_sun_day _ _ _ _ _ now local_now l Hday).
  do 4 eexists. split; [ reflexivity | ].
  unfold daylight, bright, civil, nautical, astronomical, item, sun_flags.
  cbn [nth]. unfold twilight_flag, bright_flag.
  split; [ apply window_spec | ].
  split.
  { rewrite andb_true_iff, window_spec, Z.ltb_lt. split; [ tauto | ].
    intros H. split; [ lia | exact H ]. }
  split; [ | split ]; intros x y -> ->; apply window_spec.
Qed.

Lemma flags_are_windows_witness :
  exists l' bits sleep info,
    evaluate Sample.plugin Sample.equinox (Sample.instant 6 0)
      (Sample.instant 6 0) unbound = (l', inr (bits, sleep, info)) /\
    (daylight bits = true <->
     Sample.instant 6 0 < Sample.instant 6 0 < Sample.instant 20 0) /\
    (bright bits = true <->
     Sample.instant 6 0 + minutes (_bright_offset Sample.plugin)
     < Sample.instant 6 0
     < Sample.instant 20 0 - minutes (_bright_offset Sample.plugin)) /\
    (forall cb ce,
       b_civil_beg (Sample.boundaries Sample.equinox) = Some cb ->
       b_civil_end (Sample.boundaries Sample.equinox) = Some ce ->
       (civil bits = true <-> cb < Sample.instant 6 0 < ce)) /\
    (forall nb ne,
       b_nautical_beg (Sample.boundaries Sample.equinox) = Some nb ->
       b_nautical_end (Sample.boundaries Sample.equinox) = Some ne ->
       (nautical bits = true <-> nb < Sample.instant 6 0 < ne)) /\
    (forall ab ae,
       b_astronomical_beg (Sample.boundaries Sample.equinox) = Some ab ->
       b_astronomical_end (Sample.boundaries Sample.equinox) = Some ae ->
       (astronomical bits = true <-> ab < Sample.instant 6 0 < ae)).
Proof.
  apply (flags_are_windows Sample.plugin Sample.equinox
           (Sample.boundaries Sample.equinox)
           (Sample.instant 6 0) (Sample.instant 20 0)).
  exact equinox_day.
Defined.

(** X10. On a day with sunrise and sunset, the nautical flag of an absent
    nautical pair is the negation of the civil flag, and the astronomical
    flag of an absent astronomical pair is the negation of the nautical
    flag (lines 274-276 and 285-287). *)
Theorem twilight_fallbacks_negate self r b sr ss now local_now l :
  sun_day self r b sr ss ->
  exists l' bits sleep info,
    evaluate self r now local_now l = (l', inr (bits, sleep, info)) /\
    (present (b_nautical_beg b) (b_nautical_end b) = false ->
     nautical bits = negb (civil bits)) /\
    (present (b_astronomical_beg b) (b_astronomical_end b) = false ->
     astronomical bits = negb (nautical bits)).
Proof.
  intros Hday.
  rewrite (evaluate_sun_day _ _ _ _ _ now local_now l Hday).
  do 4 eexists. split; [ reflexivity | ].
  unfold civil, nautical, astronomical, item, sun_flags. cbn [nth].
  unfold twilight_flag at 1 3.
  split; intros Habsent.
  - destruct (b_nautical_beg b), (b_nautical_end b); try discriminate;
      reflexivity.
  - destruct (b_astronomical_beg b), (b_astronomical_end b);
      try discriminate; reflexivity.
Qed.

Lemma twilight_fallbacks_negate_witness :
  exists l' bits sleep info,
    evaluate Sample.plugin Sample.midsummer (Sample.instant 23 0)
      (Sample.instant 23 0) unbound = (l', inr (bits, sleep, info)) /\
    (present (b_nautical_beg (Sample.boundaries Sample.midsummer))
       (b_nautical_end (Sample.boundaries Sample.midsummer)) = false ->
     nautical bits = negb (civil bits)) /\
    (present (b_astronomical_beg (Sample.boundaries Sample.midsummer))
       (b_astronomical_end (Sample.boundaries Sample.midsummer)) = false ->
     astronomical bits = negb (nautical bits)).
Proof.
  apply (twilight_fallbacks_negate Sample.plugin Sample.midsummer
           (Sample.boundaries Sample.midsummer)
           (Sample.instant 3 30) (Sample.instant 20 0)).
  apply (sample_sun_day 60); try reflexivity. repeat split; reflexivity.
Defined.

(** ** Days without sunrise or sunset *)

(** X11. Once an earlier iteration has assigned [bright_beg] and
    [bright_end], an answer without any boundary pair is a polar day: the
    evaluation returns five set flags under the name [polar day], every
    output whose bit is greater than -1 is set with action 237, and the
    sleep ends five seconds after the next local midnight. *)
Theorem polar_day_sets_every_bit w self l data b x y :
  _enabled self = true ->
  data_in_use w self = inr data ->
  Api.status data = "OK"%string ->
  parsed (Api.body data) b ->
  present (b_sunrise b) (b_sunset b) = false ->
  present (b_civil_beg b) (b_civil_end b) = false ->
  present (b_nautical_beg b) (b_nautical_end b) = false ->
  present (b_astronomical_beg b) (b_astronomical_end b) = false ->
  bright_beg l = Some x -> bright_end l = Some y ->
  evaluate self (Api.body data) (utcnow w) (local_now w) l
  = (l, inr ([true; true; true; true; true],
             _seconds_to_tomorrow (local_now w), "polar day"%string)) /\
  exists self' calls,
    run_iteration w self l = (self', l, calls) /\
    filter is_set_bit calls
    = map (fun o => do_basic_action 237 (snd o))
          (filter (fun o => snd o >? -1) (outputs self)) /\
    wake_delta w self' = _seconds_to_tomorrow (local_now w) + 5 * second.
Proof.
  intros Hen Hdata Hok Hp Hs Hc Hn Ha Hx Hy.
  pose proof (polar_day_with_stale_locals self _ _ (utcnow w) (local_now w)
                l x y Hp Hs Hc Hn Ha Hx Hy) as Hev.
  split; [ exact Hev | ].
  rewrite (run_iteration_evaluated _ _ _ _ _ _ _ _ Hen Hdata Hok Hev).
  do 2 eexists. split; [ reflexivity | ]. split.
  - rewrite filter_set_bits. unfold set_bits, outputs.
    cbn [flat_map filter snd].
    destruct (_bright_bit self >? -1), (_horizon_bit self >? -1),
      (_civil_bit self >? -1), (_nautical_bit self >? -1),
      (_astronomical_bit self >? -1); reflexivity.
  - rewrite <- Z.add_assoc. apply wake_delta_sleep.
Qed.

Lemma polar_day_sets_every_bit_witness :
  evaluate Sample.plugin (Api.body (Sample.ok Sample.polar))
    (utcnow (Sample.world 12 0 (inr (Sample.ok Sample.polar))))
    (local_now (Sample.world 12 0 (inr (Sample.ok Sample.polar))))
    Scenario.stale
  = (Scenario.stale,
     inr ([true; true; true; true; true],
          _seconds_to_tomorrow
            (local_now (Sample.world 12 0 (inr (Sample.ok Sample.polar)))),
          "polar day"%string)) /\
  exists self' calls,
    run_iteration (Sample.world 12 0 (inr (Sample.ok Sample.polar)))
      Sample.plugin Scenario.stale = (self', Scenario.stale, calls) /\
    filter is_set_bit calls
    = map (fun o => do_basic_action 237 (snd o))
          (filter (fun o => snd o >? -1) (outputs Sample.plugin)) /\
    wake_delta (Sample.world 12 0 (inr (Sample.ok Sample.polar))) self'
    = _seconds_to_tomorrow
        (local_now (Sample.world 12 0 (inr (Sample.ok Sample.polar))))
      + 5 * second.
Proof.
  apply (polar_day_sets_every_bit
           (Sample.world 12 0 (inr (Sample.ok Sample.polar)))
           Sample.plugin Scenario.stale (Sample.ok Sample.polar)
           (Sample.boundaries Sample.polar)
           (Sample.instant 7 0) (Sample.instant 19 0));
    try reflexivity.
  repeat split; reflexivity.
Defined.

(** With [sunrise] absent the comparison [now < sunrise] of lines 272, 283
    and 294 raises: a twilight level that is present returns only inside
    its window. *)
Lemma analyse_twilight_no_sunrise i beg end_ broader d now bits sleep l :
  sunrise d = None ->
  analyse_twilight i (present beg end_) beg end_ broader d now (bits, sleep) l
  = match beg, end_ with
    | Some p, Some q =>
        if window p q now
        then (l, inr (store i true bits, Z.min sleep (q - now)))
        else (l, inl TypeError)
    | _, _ =>
        (l, inr (store i (if broader then negb (item (Nat.pred i) bits)
                          else false) bits, sleep))
    end.
Proof.
  intros Hsr. unfold analyse_twilight, window. rewrite Hsr.
  destruct beg as [p | ], end_ as [q | ];
    cbn [present is_not_None andb negb];
    try (destruct broader; reflexivity).
  unfold bind, between, lt, seconds_between, bind, ret, raise.
  destruct (p <? now); cbn [andb]; [ | reflexivity ].
  destruct (now <? q); reflexivity.
Qed.

Lemma evaluate_no_sunrise self r b now local_now l x y :
  parsed r b ->
  b_sunrise b = None ->
  bright_beg l = Some x -> bright_end l = Some y ->
  misses (b_civil_beg b) (b_civil_end b) now = true \/
  misses (b_nautical_beg b) (b_nautical_end b) now = true \/
  misses (b_astronomical_beg b) (b_astronomical_end b) now = true ->
  evaluate self r now local_now l = (l, inl TypeError).
Proof.
  intros Hp Hsr Hx Hy Hout.
  unfold evaluate, bind at 1.
  rewrite (load_data_no_sun self r b l x y Hp) by
    (try assumption; rewrite Hsr; reflexivity).
  unfold analyse_data.
  cbn [has_sun has_civil has_nautical has_astronomical civil_beg civil_end
       nautical_beg nautical_end astronomical_beg astronomical_end orb].
  assert (Hsome : present (b_civil_beg b) (b_civil_end b)
                  || present (b_nautical_beg b) (b_nautical_end b)
                  || present (b_astronomical_beg b) (b_astronomical_end b)
                  = true).
  { unfold misses, present in *.
    destruct (b_civil_beg b), (b_civil_end b), (b_nautical_beg b),
      (b_nautical_end b), (b_astronomical_beg b), (b_astronomical_end b);
      cbn; try reflexivity;
      destruct Hout as [H | [H | H]]; discriminate. }
  rewrite Hsome. cbn [negb].
  unfold bind at 1. unfold analyse_bright at 1.
  cbn [has_bright negb]. unfold ret at 1.
  unfold bind at 1. unfold analyse_day at 1.
  cbn [has_sun negb]. unfold ret at 1.
  unfold bind at 1. rewrite analyse_twilight_no_sunrise by (rewrite Hsr; reflexivity).
  unfold misses in Hout.
  destruct (b_civil_beg b) as [cb | ], (b_civil_end b) as [ce | ];
    try destruct (window cb ce now); try reflexivity;
    (unfold bind at 1;
     rewrite analyse_twilight_no_sunrise by (rewrite Hsr; reflexivity);
     destruct (b_nautical_beg b) as [nb | ], (b_nautical_end b) as [ne | ];
     try destruct (window nb ne now); try reflexivity;
     (unfold bind at 1;
      rewrite analyse_twilight_no_sunrise by (rewrite Hsr; reflexivity);
      destruct (b_astronomical_beg b) as [ab | ],
        (b_astronomical_end b) as [ae | ];
      try destruct (window ab ae now); try reflexivity;
      exfalso; destruct Hout as [H | [H | H]]; discriminate)).
Qed.

Lemma handler_outcome w self l l' :
  run_iteration w self l
  = (sleep_until_tomorrow w (after_fetch w self), l', []) ->
  exists self',
    run_iteration w self l = (self', l', []) /\
    _previous_bits self' = _previous_bits self /\
    wake_delta w self' = _seconds_to_tomorrow (local_now w) + 5 * second.
Proof.
  intros ->. eexists. split; [ reflexivity | ].
  destruct (after_fetch_config w self) as (_ & Hprev & _).
  unfold sleep_until_tomorrow. split.
  - rewrite previous_bits_sleep. exact Hprev.
  - rewrite <- Z.add_assoc. apply wake_delta_sleep.
Qed.

(** X12. When the answer has no sunrise, an earlier iteration has assigned
    the two locals, and some twilight pair is present whose window does not
    hold [now], the evaluation raises [TypeError] at the comparison
    [now < sunrise]: the iteration ends in the exception handler, calls
    nothing, and sleeps until five seconds after the next local midnight,
    past the edges of that day. *)
Theorem missing_sunrise_raises w self l data b x y :
  _enabled self = true ->
  data_in_use w self = inr data ->
  Api.status data = "OK"%string ->
  parsed (Api.body data) b ->
  b_sunrise b = None ->
  bright_beg l = Some x -> bright_end l = Some y ->
  misses (b_civil_beg b) (b_civil_end b) (utcnow w) = true \/
  misses (b_nautical_beg b) (b_nautical_end b) (utcnow w) = true \/
  misses (b_astronomical_beg b) (b_astronomical_end b) (utcnow w) = true ->
  evaluate self (Api.body data) (utcnow w) (local_now w) l
  = (l, inl TypeError) /\
  exists self',
    run_iteration w self l = (self', l, []) /\
    _previous_bits self' = _previous_bits self /\
    wake_delta w self' = _seconds_to_tomorrow (local_now w) + 5 * second.
Proof.
  intros Hen Hdata Hok Hp Hsr Hx Hy Hout.
  pose proof (evaluate_no_sunrise self _ _ (utcnow w) (local_now w) l x y
                Hp Hsr Hx Hy Hout) as Hev.
  split; [ exact Hev | ].
  apply handler_outcome.
  now apply run_iteration_raised with (data := data) (e := TypeError).
Qed.

Lemma missing_sunrise_raises_witness :
  evaluate Sample.plugin (Api.body (Sample.ok Sample.white_night))
    (utcnow (Sample.world 0 30 (inr (Sample.ok Sample.white_night))))
    (local_now (Sample.world 0 30 (inr (Sample.ok Sample.white_night))))
    Scenario.stale
  = (Scenario.stale, inl TypeError) /\
  exists self',
    run_iteration (Sample.world 0 30 (inr (Sample.ok Sample.white_night)))
      Sample.plugin Scenario.stale = (self', Scenario.stale, []) /\
    _previous_bits self' = _previous_bits Sample.plugin /\
    wake_delta (Sample.world 0 30 (inr (Sample.ok Sample.white_night))) self'
    = _seconds_to_tomorrow
        (local_now (Sample.world 0 30 (inr (Sample.ok Sample.white_night))))
      + 5 * second.
Proof.
  apply (missing_sunrise_raises
           (Sample.world 0 30 (inr (Sample.ok Sample.white_night)))
           Sample.plugin Scenario.stale (Sample.ok Sample.white_night)
           (Sample.boundaries Sample.white_night)
           (Sample.instant 7 0) (Sample.instant 19 0));
    try reflexivity.
  - repeat split; reflexivity.
  - left. reflexivity.
Defined.

(** ** Timestamps that do not parse, offsets that do not fit *)

Lemma evaluate_unparsed self r now local_now l :
  ~ (exists b, parsed r b) ->
  exists l' e, evaluate self r now local_now l = (l', inl e).
Proof.
  intros Hno. unfold evaluate, bind at 1.
  assert (Hload : exists l' e, load_data self r l = (l', inl e)).
  { unfold load_data, bind, lift.
    destruct (_convert (Api.sunrise r)) as [e | v1] eqn:H1; [ eauto | ].
    destruct (_convert (Api.sunset r)) as [e | v2] eqn:H2; [ eauto | ].
    destruct (load_bright (_bright_offset self) v1 v2 l) as [l1 [e | hb]];
      [ eauto | ].
    destruct (_convert (Api.civil_twilight_begin r)) as [e | v3] eqn:H3;
      [ eauto | ].
    destruct (_convert (Api.civil_twilight_end r)) as [e | v4] eqn:H4;
      [ eauto | ].
    destruct (_convert (Api.nautical_twilight_begin r)) as [e | v5] eqn:H5;
      [ eauto | ].
    destruct (_convert (Api.nautical_twilight_end r)) as [e | v6] eqn:H6;
      [ eauto | ].
    destruct (_convert (Api.astronomical_twilight_begin r)) as [e | v7] eqn:H7;
      [ eauto | ].
    destruct (_convert (Api.astronomical_twilight_end r)) as [e | v8] eqn:H8;
      [ eauto | ].
    exfalso. apply Hno.
    exists {| b_sunrise := v1; b_sunset := v2; b_civil_beg := v3;
              b_civil_end := v4; b_nautical_beg := v5; b_nautical_end := v6;
              b_astronomical_beg := v7; b_astronomical_end := v8 |}.
    repeat split; assumption. }
  destruct Hload as (l' & e & ->). eauto.
Qed.

(** X13. When one of the eight timestamps of an answer with status [OK]
    cannot be read, the iteration computes no flag and ends in the exception
    handler: it calls nothing, keeps [_previous_bits], and sleeps until five
    seconds after the next local midnight. *)
Theorem unreadable_timestamp_aborts w self l data :
  _enabled self = true ->
  data_in_use w self = inr data ->
  Api.status data = "OK"%string ->
  ~ (exists b, parsed (Api.body data) b) ->
  exists self' l',
    run_iteration w self l = (self', l', []) /\
    _previous_bits self' = _previous_bits self /\
    wake_delta w self' = _seconds_to_tomorrow (local_now w) + 5 * second.
Proof.
  intros Hen Hdata Hok Hno.
  destruct (evaluate_unparsed self (Api.body data) (utcnow w) (local_now w)
              l Hno) as (l' & e & Hev).
  pose proof (run_iteration_raised _ _ _ _ _ _ Hen Hdata Hok Hev) as Hrun.
  destruct (handler_outcome _ _ _ _ Hrun) as (self' & H1 & H2 & H3).
  eauto.
Qed.

Lemma unreadable_timestamp_aborts_witness :
  exists self' l',
    run_iteration (Sample.world 12 0 (inr (Sample.ok Scenario.garbled)))
      Sample.plugin unbound = (self', l', []) /\
    _previous_bits self' = _previous_bits Sample.plugin /\
    wake_delta (Sample.world 12 0 (inr (Sample.ok Scenario.garbled))) self'
    = _seconds_to_tomorrow
        (local_now (Sample.world 12 0 (inr (Sample.ok Scenario.garbled))))
      + 5 * second.
Proof.
  apply (unreadable_timestamp_aborts
           (Sample.world 12 0 (inr (Sample.ok Scenario.garbled)))
           Sample.plugin unbound (Sample.ok Scenario.garbled));
    try reflexivity.
  intros (b & _ & _ & H & _). discriminate H.
Defined.

(** X14. A bright offset so large that [sunrise + offset] is no datetime
    makes line 212 raise [OverflowError] with no local assigned; one for
    which only [sunset - offset] is no datetime makes line 213 raise with
    [bright_beg] assigned and [bright_end] as it was.  Either way the
    iteration ends in the exception handler and calls nothing. *)
Theorem offset_overflow_aborts w self l data sr ss :
  _enabled self = true ->
  data_in_use w self = inr data ->
  Api.status data = "OK"%string ->
  _convert (Api.sunrise (Api.body data)) = inr (Some sr) ->
  _convert (Api.sunset (Api.body data)) = inr (Some ss) ->
  representable (sr + minutes (_bright_offset self)) = false \/
  representable (ss - minutes (_bright_offset self)) = false ->
  evaluate self (Api.body data) (utcnow w) (local_now w) l
  = ((if representable (sr + minutes (_bright_offset self))
      then {| bright_beg := Some (sr + minutes (_bright_offset self));
              bright_end := bright_end l |}
      else l),
     inl OverflowError) /\
  exists self' l',
    run_iteration w self l = (self', l', []) /\
    _previous_bits self' = _previous_bits self /\
    wake_delta w self' = _seconds_to_tomorrow (local_now w) + 5 * second.
Proof.
  intros Hen Hdata Hok Hsr Hss Hover.
  assert (Hev : evaluate self (Api.body data) (utcnow w) (local_now w) l
                = ((if representable (sr + minutes (_bright_offset self))
                    then {| bright_beg :=
                              Some (sr + minutes (_bright_offset self));
                            bright_end := bright_end l |}
                    else l),
                   inl OverflowError)).
  { unfold evaluate, load_data, bind, lift. rewrite Hsr, Hss.
    unfold load_bright, bind, datetime_add, assign_bright_beg, ret, raise.
    replace (ss + - minutes (_bright_offset self))
      with (ss - minutes (_bright_offset self)) by lia.
    destruct (representable (sr + minutes (_bright_offset self)));
      [ | reflexivity ].
    destruct Hover as [H | H]; [ discriminate | ].
    rewrite H. reflexivity. }
  split; [ exact Hev | ].
  pose proof (run_iteration_raised _ _ _ _ _ _ Hen Hdata Hok Hev) as Hrun.
  destruct (handler_outcome _ _ _ _ Hrun) as (self' & H1 & H2 & H3).
  eauto.
Qed.

Lemma offset_overflow_aborts_witness :
  evaluate (Sample.configured Scenario.far_offset)
    (Api.body (Sample.ok Sample.equinox))
    (utcnow (Sample.world 12 0 (inr (Sample.ok Sample.equinox))))
    (local_now (Sample.world 12 0 (inr (Sample.ok Sample.equinox))))
    unbound
  = ((if representable
           (Sample.instant 6 0
            + minutes (_bright_offset (Sample.configured Scenario.far_offset)))
      then {| bright_beg :=
                Some (Sample.instant 6 0
                      + minutes (_bright_offset
                                   (Sample.configured Scenario.far_offset)));
              bright_end := bright_end unbound |}
      else unbound),
     inl OverflowError) /\
  exists self' l',
    run_iteration (Sample.world 12 0 (inr (Sample.ok Sample.equinox)))
      (Sample.configured Scenario.far_offset) unbound = (self', l', []) /\
    _previous_bits self'
    = _previous_bits (Sample.configured Scenario.far_offset) /\
    wake_delta (Sample.world 12 0 (inr (Sample.ok Sample.equinox))) self'
    = _seconds_to_tomorrow
        (local_now (Sample.world 12 0 (inr (Sample.ok Sample.equinox))))
      + 5 * second.
Proof.
  apply (offset_overflow_aborts
           (Sample.world 12 0 (inr (Sample.ok Sample.equinox)))
           (Sample.configured Scenario.far_offset) unbound
           (Sample.ok Sample.equinox)
           (Sample.instant 6 0) (Sample.instant 20 0));
    try reflexivity.
  right. reflexivity.
Defined.

(** ** From one iteration to the next *)

Lemma previous_bits_zone_change (s : Astro) (bits : list bool) :
  _previous_bits (fst (zone_change s bits)) = map Some bits.
Proof.
  unfold zone_change.
  destruct (flags_eqb (_previous_bits s) (map Some bits)) eqn:Heq;
    cbn [negb fst]; [ | reflexivity ].
  now apply flags_eqb_eq.
Qed.

Lemma zone_change_unchanged (s : Astro) (bits : list bool) :
  _previous_bits s = map Some bits -> zone_change s bits = (s, []).
Proof.
  intros H. unfold zone_change.
  apply flags_eqb_eq in H. rewrite H. reflexivity.
Qed.

(** X15. When two consecutive iterations evaluate to the same flags, the
    second one sets the same bits again and nothing else: it does not call
    the group action, and [_previous_bits] stays the flags. *)
Theorem unchanged_flags_call_no_group_action
    w1 w2 self l data1 data2 l1 l2 bits sleep1 sleep2 info1 info2 :
  _enabled self = true ->
  data_in_use w1 self = inr data1 ->
  Api.status data1 = "OK"%string ->
  evaluate self (Api.body data1) (utcnow w1) (local_now w1) l
    = (l1, inr (bits, sleep1, info1)) ->
  data_in_use w2 (fst (fst (run_iteration w1 self l))) = inr data2 ->
  Api.status data2 = "OK"%string ->
  evaluate self (Api.body data2) (utcnow w2) (local_now w2) l1
    = (l2, inr (bits, sleep2, info2)) ->
  snd (fst (run_iteration w1 self l)) = l1 /\
  snd (run_iteration w2 (fst (fst (run_iteration w1 self l))) l1)
  = set_bits self bits /\
  _previous_bits
    (fst (fst (run_iteration w2 (fst (fst (run_iteration w1 self l))) l1)))
  = map Some bits.
Proof.
  intros Hen Hd1 Hok1 Hev1 Hd2 Hok2 Hev2.
  pose proof (run_iteration_settings w1 self l) as Hset.
  rewrite (run_iteration_evaluated _ _ _ _ _ _ _ _ Hen Hd1 Hok1 Hev1)
    in Hd2, Hset |- *.
  cbn [fst snd] in *. split; [ reflexivity | ].
  set (self1 := _sleep (fst (zone_change (after_fetch w1 self) bits))
                       (time_time w1 + sleep1 + 5 * second)) in *.
  assert (Hprev1 : _previous_bits self1 = map Some bits).
  { unfold self1. rewrite previous_bits_sleep.
    apply previous_bits_zone_change. }
  destruct Hset as (Hout & Hoff & _ & Hen1 & _).
  rewrite Hen in Hen1. symmetry in Hen1.
  rewrite (evaluate_offset self self1) in Hev2 by exact Hoff.
  rewrite (run_iteration_evaluated _ _ _ _ _ _ _ _ Hen1 Hd2 Hok2 Hev2).
  cbn [fst snd].
  destruct (after_fetch_config w2 self1) as (_ & Hprev2 & _).
  rewrite zone_change_unchanged by (rewrite Hprev2; exact Hprev1).
  cbn [fst snd]. rewrite app_nil_r, previous_bits_sleep.
  split; [ symmetry; now apply set_bits_outputs | ].
  rewrite Hprev2. exact Hprev1.
Qed.

Lemma unchanged_flags_call_no_group_action_witness :
  snd (fst (run_iteration
              (Sample.world 12 0 (inr (Sample.ok Sample.equinox)))
              Sample.plugin unbound)) = Scenario.stale /\
  snd (run_iteration (Sample.world 13 0 (inr (Sample.ok Sample.equinox)))
         (fst (fst (run_iteration
                      (Sample.world 12 0 (inr (Sample.ok Sample.equinox)))
                      Sample.plugin unbound)))
         Scenario.stale)
  = set_bits Sample.plugin [true; true; true; true; true] /\
  _previous_bits
    (fst (fst (run_iteration
                 (Sample.world 13 0 (inr (Sample.ok Sample.equinox)))
                 (fst (fst (run_iteration
                              (Sample.world 12 0
                                 (inr (Sample.ok Sample.equinox)))
                              Sample.plugin unbound)))
                 Scenario.stale)))
  = map Some [true; true; true; true; true].
Proof.
  apply (unchanged_flags_call_no_group_action
           (Sample.world 12 0 (inr (Sample.ok Sample.equinox)))
           (Sample.world 13 0 (inr (Sample.ok Sample.equinox)))
           Sample.plugin unbound
           (Sample.ok Sample.equinox) (Sample.ok Sample.equinox)
           Scenario.stale Scenario.stale [true; true; true; true; true]
           (Sample.instant 19 0 - Sample.instant 12 0)
           (Sample.instant 19 0 - Sample.instant 13 0)
           "day (bright)"%string "day (bright)"%string);
    try reflexivity; vm_compute; reflexivity.
Defined.

Lemma fresh_flags_differ (bits : list bool) :
  flags_eqb no_previous_bits (map Some bits) = false.
Proof. destruct bits; reflexivity. Qed.

Lemma read_config_previous_bits (config : Config) (self : Astro) :
  _previous_bits (fst (_read_config config self)) = no_previous_bits.
Proof.
  unfold _read_config.
  destruct (Re.matchb coordinates_re _); [ | reflexivity ].
  destruct (groups _). reflexivity.
Qed.

(** X16. After [_read_config], whatever [_previous_bits] held before, the
    first iteration that evaluates calls the group action when one is
    configured, even if the flags are those of the last iteration before the
    reload, and stores the flags. *)
Theorem reload_recomputes config self0 w l data l' bits sleep info :
  _enabled (fst (_read_config config self0)) = true ->
  data_in_use w (fst (_read_config config self0)) = inr data ->
  Api.status data = "OK"%string ->
  evaluate (fst (_read_config config self0)) (Api.body data)
    (utcnow w) (local_now w) l = (l', inr (bits, sleep, info)) ->
  _group_action (fst (_read_config config self0)) <> -1 ->
  snd (run_iteration w (fst (_read_config config self0)) l)
  = set_bits (fst (_read_config config self0)) bits
    ++ [do_basic_action 2 (_group_action (fst (_read_config config self0)))]
  /\
  _previous_bits (fst (fst (run_iteration w (fst (_read_config config self0))
                              l)))
  = map Some bits.
Proof.
  intros Hen Hdata Hok Hev Hga.
  rewrite (run_iteration_evaluated _ _ _ _ _ _ _ _ Hen Hdata Hok Hev).
  cbn [fst snd]. rewrite previous_bits_sleep, previous_bits_zone_change.
  split; [ | reflexivity ]. f_equal.
  destruct (after_fetch_config w (fst (_read_config config self0)))
    as (_ & Hprev & Hga' & _).
  unfold zone_change.
  rewrite Hprev, read_config_previous_bits, fresh_flags_differ, Hga'.
  cbn [negb snd]. apply Z.eqb_neq in Hga. rewrite Hga. reflexivity.
Qed.

Lemma reload_recomputes_witness :
  snd (run_iteration (Sample.world 12 0 (inr (Sample.ok Sample.equinox)))
         (fst (_read_config Scenario.wired Sample.cached)) Scenario.stale)
  = set_bits (fst (_read_config Scenario.wired Sample.cached))
      [true; true; true; true; true]
    ++ [do_basic_action 2
          (_group_action (fst (_read_config Scenario.wired Sample.cached)))]
  /\
  _previous_bits
    (fst (fst (run_iteration
                 (Sample.world 12 0 (inr (Sample.ok Sample.equinox)))
                 (fst (_read_config Scenario.wired Sample.cached))
                 Scenario.stale)))
  = map Some [true; true; true; true; true].
Proof.
  apply (reload_recomputes Scenario.wired Sample.cached
           (Sample.world 12 0 (inr (Sample.ok Sample.equinox)))
           Scenario.stale (Sample.ok Sample.equinox) Scenario.stale
           [true; true; true; true; true]
           (Sample.instant 19 0 - Sample.instant 12 0)
           "day (bright)"%string);
    try reflexivity; try (vm_compute; reflexivity).
  vm_compute. discriminate.
Defined.

(** X17. An answer with a status other than [OK] is cached like any other:
    it replaces the answer cached before, so that when the next request
    fails the iteration falls back on the refused answer, calls nothing and
    sleeps until after the next local midnight, whatever was cached
    earlier. *)
Theorem refused_answer_replaces_the_cache w1 w2 self l refused e :
  _enabled self = true ->
  answer w1 = inr refused ->
  Api.status refused <> "OK"%string ->
  answer w2 = inl e ->
  sunrise_data (fst (fst (run_iteration w1 self l))) = Some refused /\
  run_iteration w2 (fst (fst (run_iteration w1 self l))) l
  = (sleep_until_tomorrow w2 (fst (fst (run_iteration w1 self l))), l, []) /\
  snd (run_iteration w1 self l) = [] /\
  _previous_bits (fst (fst (run_iteration w1 self l))) = _previous_bits self.
Proof.
  intros Hen Ha1 Hbad Ha2.
  apply String.eqb_neq in Hbad.
  assert (H1 : run_iteration w1 self l
               = (sleep_until_tomorrow w1 (set_sunrise_data self refused),
                  l, [])).
  { unfold run_iteration, get_sun_data_or_cached. rewrite Hen, Ha1.
    cbn [set_sunrise_data sunrise_data]. rewrite Hbad. reflexivity. }
  rewrite H1. cbn [fst snd].
  repeat split.
  unfold run_iteration, get_sun_data_or_cached. rewrite Ha2.
  cbn [sleep_until_tomorrow _sleep set_sunrise_data sunrise_data _enabled].
  rewrite Hen, Hbad. reflexivity.
Qed.

Lemma refused_answer_replaces_the_cache_witness :
  sunrise_data
    (fst (fst (run_iteration (Sample.world 12 0 (inr Scenario.refused))
                 Sample.cached unbound))) = Some Scenario.refused /\
  run_iteration (Sample.world 13 0 (inl RequestException))
    (fst (fst (run_iteration (Sample.world 12 0 (inr Scenario.refused))
                 Sample.cached unbound))) unbound
  = (sleep_until_tomorrow (Sample.world 13 0 (inl RequestException))
       (fst (fst (run_iteration (Sample.world 12 0 (inr Scenario.refused))
                    Sample.cached unbound))),
     unbound, []) /\
  snd (run_iteration (Sample.world 12 0 (inr Scenario.refused))
         Sample.cached unbound) = [] /\
  _previous_bits
    (fst (fst (run_iteration (Sample.world 12 0 (inr Scenario.refused))
                 Sample.cached unbound)))
  = _previous_bits Sample.cached.
Proof.
  apply (refused_answer_replaces_the_cache
           (Sample.world 12 0 (inr Scenario.refused))
           (Sample.world 13 0 (inl RequestException))
           Sample.cached unbound Scenario.refused RequestException);
    try reflexivity.
  discriminate.
Defined.

(** ** The coordinates that [_read_config] takes *)

Lemma digit_not_space (c : ascii) : Re.digit c = true -> is_space c = false.
Proof.
  unfold Re.digit, is_space. intros H.
  apply andb_true_iff in H as (H1 & H2).
  apply Nat.leb_le in H1. apply Nat.leb_le in H2.
  destruct (Nat.eqb_spec (nat_of_ascii c) 32); [ lia | ].
  destruct (Nat.leb_spec 9 (nat_of_ascii c)); [ | reflexivity ].
  destruct (Nat.leb_spec (nat_of_ascii c) 13); [ lia | reflexivity ].
Qed.

Lemma lstrip_spaces (ws t : list ascii) :
  forallb is_space ws = true -> lstrip (ws ++ t) = lstrip t.
Proof.
  induction ws as [ | c ws IH ]; cbn; [ reflexivity | ].
  intros H. apply andb_true_iff in H as (Hc & Hws).
  rewrite Hc. now apply IH.
Qed.

Lemma lstrip_trimmed (c : ascii) (t : list ascii) :
  is_space c = false -> lstrip (c :: t) = c :: t.
Proof. intros H. cbn. now rewrite H. Qed.

Lemma strip_padded (ws1 ws2 t : list ascii) :
  forallb is_space ws1 = true -> forallb is_space ws2 = true ->
  trimmed t -> strip (ws1 ++ t ++ ws2) = t.
Proof.
  intros H1 H2 Ht. unfold strip. rewrite lstrip_spaces by assumption.
  destruct t as [ | c t ].
  - cbn [app]. rewrite <- (app_nil_r ws2), lstrip_spaces by assumption.
    reflexivity.
  - destruct Ht as (Hc & Hlast).
    change ((c :: t) ++ ws2) with (c :: (t ++ ws2)).
    rewrite lstrip_trimmed by assumption.
    change (c :: t ++ ws2) with ((c :: t) ++ ws2).
    rewrite rev_app_distr, lstrip_spaces by now apply forallb_rev.
    destruct (exists_last (l := c :: t)) as (t' & x & Heq);
      [ discriminate | ].
    rewrite Heq in Hlast |- *. rewrite last_last in Hlast.
    rewrite rev_app_distr. cbn [rev app].
    rewrite lstrip_trimmed by assumption.
    change (x :: rev t') with ([x] ++ rev t').
    rewrite rev_app_distr, rev_involutive. reflexivity.
Qed.

Lemma number_ends (a : list ascii) :
  is_number a ->
  exists c t, a = c :: t /\ Re.digit c = true /\
              Re.digit (last a c) = true.
Proof.
  intros (Hne & Hall). destruct a as [ | c t ]; [ contradiction | ].
  exists c, t. split; [ reflexivity | ].
  rewrite forallb_forall in Hall. split.
  - apply Hall. now left.
  - destruct (exists_last (l := c :: t)) as (t' & x & Heq);
      [ discriminate | ].
    rewrite Heq, last_last. apply Hall. rewrite Heq.
    apply in_or_app. right. now left.
Qed.

Lemma lat_long_trimmed (s : list ascii) : lat_long s -> trimmed s.
Proof.
  intros (a & b & c & d & Ha & _ & _ & Hd & ->).
  destruct (number_ends a Ha) as (x & a' & -> & Hx & _).
  destruct (number_ends d Hd) as (y & d' & Hdeq & _ & Hy).
  cbn [app trimmed]. split; [ now apply digit_not_space | ].
  change (x :: a' ++ "."%char :: b ++ ";"%char :: c ++ "."%char :: d)
    with ((x :: a') ++ "."%char :: b ++ ";"%char :: c ++ "."%char :: d).
  replace ((x :: a') ++ "."%char :: b ++ ";"%char :: c ++ "."%char :: d)
    with (((x :: a') ++ "."%char :: b ++ ";"%char :: c ++ ["."%char]) ++ d)
    by (repeat (rewrite <- app_assoc || rewrite <- app_comm_cons
                || cbn [app]); reflexivity).
  destruct (exists_last (l := d)) as (d'' & z & Hz);
    [ rewrite Hdeq; discriminate | ].
  rewrite Hz in Hy |- *. rewrite app_assoc, !last_last in *.
  now apply digit_not_space.
Qed.

Lemma strip_lat_long (s : list ascii) : lat_long s -> strip s = s.
Proof.
  intros H. apply lat_long_trimmed in H.
  rewrite <- (strip_padded [] [] s) at 2 by (try reflexivity; assumption).
  cbn [app]. now rewrite app_nil_r.
Qed.

Lemma read_config_taken config self a b c d :
  is_number a -> is_number b -> is_number c -> is_number d ->
  strip (coordinates_entry config)
  = a ++ "."%char :: b ++ ";"%char :: c ++ "."%char :: d ->
  _enabled (fst (_read_config config self)) = true /\
  _latitude (fst (_read_config config self))
  = Some (string_of_list_ascii (a ++ "."%char :: b)) /\
  _longitude (fst (_read_config config self))
  = Some (string_of_list_ascii (c ++ "."%char :: d)) /\
  _sleep_until (fst (_read_config config self)) = 0 /\
  snd (_read_config config self) = false.
Proof.
  intros Ha Hb Hc Hd Hs.
  assert (Hm : Re.matchb coordinates_re (strip (coordinates_entry config))
               = true).
  { apply matchb_lat_long. rewrite Hs. exists a, b, c, d. auto. }
  unfold _read_config. fold (coordinates_entry config).
  rewrite Hm, Hs, groups_lat_long by assumption.
  repeat split.
Qed.

(** X18. When [_read_config] enables the plugin, the latitude and the
    longitude it stores are the two numbers of the entry: joined by a
    semicolon they give back the entry without its surrounding whitespace.
    The deadline of the sleep is reset to 0 and no geocoding is started. *)
Theorem read_config_stores_the_numbers (config : Config) (self : Astro) :
  _enabled (fst (_read_config config self)) = true ->
  exists lat lng,
    _latitude (fst (_read_config config self))
    = Some (string_of_list_ascii lat) /\
    _longitude (fst (_read_config config self))
    = Some (string_of_list_ascii lng) /\
    lat ++ ";"%char :: lng = strip (coordinates_entry config) /\
    Re.matchb decimal lat = true /\ Re.matchb decimal lng = true /\
    _sleep_until (fst (_read_config config self)) = 0 /\
    snd (_read_config config self) = false.
Proof.
  intros Hen.
  destruct (read_config_enabled config self) as (Hm & _).
  rewrite Hen in Hm. symmetry in Hm.
  apply matchb_lat_long in Hm as (a & b & c & d & Ha & Hb & Hc & Hd & Hs).
  destruct (read_config_taken config self a b c d Ha Hb Hc Hd Hs)
    as (_ & Hlat & Hlng & Hsleep & Hth).
  exists (a ++ "."%char :: b), (c ++ "."%char :: d).
  repeat split; try assumption.
  - rewrite Hs, <- app_assoc. reflexivity.
  - apply matchb_matches, decimal_matches. eauto.
  - apply matchb_matches, decimal_matches. eauto.
Qed.

Lemma read_config_stores_the_numbers_witness :
  exists lat lng,
    _latitude (fst (_read_config Sample.brussels Sample.plugin))
    = Some (string_of_list_ascii lat) /\
    _longitude (fst (_read_config Sample.brussels Sample.plugin))
    = Some (string_of_list_ascii lng) /\
    lat ++ ";"%char :: lng = strip (coordinates_entry Sample.brussels) /\
    Re.matchb decimal lat = true /\ Re.matchb decimal lng = true /\
    _sleep_until (fst (_read_config Sample.brussels Sample.plugin)) = 0 /\
    snd (_read_config Sample.brussels Sample.plugin) = false.
Proof.
  apply (read_config_stores_the_numbers Sample.brussels Sample.plugin).
  reflexivity.
Defined.

(** X19. Whitespace around the coordinates does not count: an entry made
    of two numbers [a.b] and [c.d] with a semicolon between them, with any
    whitespace before and after, enables the plugin with latitude [a.b] and
    longitude [c.d]. *)
Theorem padded_coordinates_are_taken config self ws1 ws2 a b c d :
  forallb is_space ws1 = true -> forallb is_space ws2 = true ->
  is_number a -> is_number b -> is_number c -> is_number d ->
  coordinates_entry config
  = ws1 ++ (a ++ "."%char :: b ++ ";"%char :: c ++ "."%char :: d) ++ ws2 ->
  _enabled (fst (_read_config config self)) = true /\
  _latitude (fst (_read_config config self))
  = Some (string_of_list_ascii (a ++ "."%char :: b)) /\
  _longitude (fst (_read_config config self))
  = Some (string_of_list_ascii (c ++ "."%char :: d)) /\
  snd (_read_config config self) = false.
Proof.
  intros H1 H2 Ha Hb Hc Hd Hentry.
  assert (Hs : strip (coordinates_entry config)
               = a ++ "."%char :: b ++ ";"%char :: c ++ "."%char :: d).
  { rewrite Hentry. apply strip_padded; try assumption.
    apply lat_long_trimmed. exists a, b, c, d. auto. }
  destruct (read_config_taken config self a b c d Ha Hb Hc Hd Hs)
    as (Hen & Hlat & Hlng & _ & Hth).
  auto.
Qed.

Lemma padded_coordinates_are_taken_witness :
  _enabled (fst (_read_config Sample.brussels Sample.plugin)) = true /\
  _latitude (fst (_read_config Sample.brussels Sample.plugin))
  = Some (string_of_list_ascii
            (list_ascii_of_string "50" ++ "."%char
               :: list_ascii_of_string "85")) /\
  _longitude (fst (_read_config Sample.brussels Sample.plugin))
  = Some (string_of_list_ascii
            (list_ascii_of_string "4" ++ "."%char
               :: list_ascii_of_string "35")) /\
  snd (_read_config Sample.brussels Sample.plugin) = false.
Proof.
  apply (padded_coordinates_are_taken Sample.brussels Sample.plugin
           [" "%char] [" "%char]
           (list_ascii_of_string "50") (list_ascii_of_string "85")
           (list_ascii_of_string "4") (list_ascii_of_string "35"));
    try reflexivity; split; try discriminate; reflexivity.
Defined.

(** ** Geocoding *)

Lemma next_wait_after (n : nat) : next_wait (wait_after n) = wait_after (S n).
Proof.
  unfold next_wait. destruct n as [ | n ]; [ reflexivity | ].
  unfold wait_after.
  destruct (Z.eqb_spec (Z.min 60 (5 * Z.of_nat (S n))) 0); [ lia | ].
  destruct (Z.eqb_spec (Z.min 60 (5 * Z.of_nat (S n))) 1); [ lia | ].
  destruct (Z.ltb_spec (Z.min 60 (5 * Z.of_nat (S n))) 60); lia.
Qed.

Lemma wait_after_bounds (n : nat) : 1 <= wait_after n <= 60.
Proof. destruct n; cbn [wait_after]; lia. Qed.

Lemma translate_loop_waits attempts n wait config self :
  next_wait wait = wait_after n ->
  snd (fst (translate_loop attempts wait config self))
  = map wait_after
      (seq n (List.length
                (snd (fst (translate_loop attempts wait config self))))).
Proof.
  revert n wait. induction attempts as [ | a rest IH ]; intros n wait Hw;
    cbn [translate_loop]; [ reflexivity | ].
  destruct (geocoder a); [ reflexivity | ].
  destruct (enabled_after_wait a).
  - cbn. now rewrite Hw.
  - specialize (IH (S n) (next_wait wait)).
    destruct (translate_loop rest (next_wait wait) config self)
      as [[[c' s'] waits] e].
    cbn [fst snd] in *. cbn [List.length seq map]. rewrite Hw. f_equal.
    apply IH. rewrite Hw. apply next_wait_after.
Qed.

Lemma translate_loop_length attempts wait config self :
  (List.length (snd (fst (translate_loop attempts wait config self)))
   <= List.length attempts)%nat.
Proof.
  revert wait. induction attempts as [ | att rest IH ]; intros wait;
    cbn [translate_loop]; [ cbn; lia | ].
  destruct (geocoder att); [ cbn; lia | ].
  destruct (enabled_after_wait att); [ cbn; lia | ].
  specialize (IH (next_wait wait)).
  destruct (translate_loop rest (next_wait wait) config self)
    as [[[c' s'] waits] e].
  cbn [fst snd List.length] in *. lia.
Qed.

(** X20. The waits between the attempts of [_translate_address] follow one
    schedule, whatever the answers are: one minute after the first failure,
    then five, ten, fifteen and so on up to sixty minutes, and sixty from
    then on; no wait is shorter than a minute or longer than an hour. *)
Theorem geocoding_waits_follow_the_schedule (attempts : list Attempt)
    (config : Config) (self : Astro) :
  snd (fst (_translate_address attempts config self))
  = map wait_after
      (seq 0 (List.length
                (snd (fst (_translate_address attempts config self))))) /\
  Forall (fun wait => 1 <= wait <= 60)
    (snd (fst (_translate_address attempts config self))) /\
  (List.length (snd (fst (_translate_address attempts config self)))
   <= List.length attempts)%nat.
Proof.
  assert (Hsched : snd (fst (_translate_address attempts config self))
                   = map wait_after
                       (seq 0 (List.length
                                 (snd (fst (_translate_address attempts
                                              config self)))))).
  { unfold _translate_address.
    destruct (strip _); [ reflexivity | ].
    now apply translate_loop_waits. }
  split; [ exact Hsched | ]. split.
  - rewrite Hsched. apply Forall_forall. intros x Hx.
    apply in_map_iff in Hx as (n & <- & _). apply wait_after_bounds.
  - unfold _translate_address.
    destruct (strip _); [ cbn; lia | apply translate_loop_length ].
Qed.

Lemma translate_loop_success failures answered rest n wait lat lng config
    self :
  next_wait wait = wait_after n ->
  Forall (fun a => geocoder a = Failed /\ enabled_after_wait a = false)
    failures ->
  geocoder answered = Located lat lng ->
  translate_loop (failures ++ answered :: rest) wait config self
  = (set_config_coordinates config (lat ++ ";" ++ lng)%string,
     _enable_plugin (set_coordinates self lat lng),
     map wait_after (seq n (List.length failures)),
     Geocoded).
Proof.
  intros Hw Hfail Hans. revert n wait Hw.
  induction Hfail as [ | first others (Hg & Hen) _ IH ]; intros n wait Hw.
  - cbn. rewrite Hans. reflexivity.
  - cbn [app translate_loop]. rewrite Hg, Hen.
    rewrite (IH (S n) (next_wait wait))
      by (rewrite Hw; apply next_wait_after).
    cbn [List.length seq map]. rewrite Hw. reflexivity.
Qed.

(** X21. With a location configured, the first attempt that the geocoding
    service answers ends the thread: after [n] failed attempts the waits
    slept are the first [n] of the schedule, the coordinates entry of the
    configuration becomes [lat;lng], the instance is enabled with that
    latitude and longitude, [_previous_bits] and the deadline of the sleep
    are reset, and no later attempt is made. *)
Theorem geocoding_ends_at_the_first_answer
    failures answered rest lat lng config self :
  strip (list_ascii_of_string (get (location config) ""%string)) <> [] ->
  Forall (fun a => geocoder a = Failed /\ enabled_after_wait a = false)
    failures ->
  geocoder answered = Located lat lng ->
  _translate_address (failures ++ answered :: rest) config self
  = (set_config_coordinates config (lat ++ ";" ++ lng)%string,
     _enable_plugin (set_coordinates self lat lng),
     map wait_after (seq 0 (List.length failures)),
     Geocoded) /\
  _enabled (_enable_plugin (set_coordinates self lat lng)) = true /\
  _latitude (_enable_plugin (set_coordinates self lat lng)) = Some lat /\
  _longitude (_enable_plugin (set_coordinates self lat lng)) = Some lng /\
  _previous_bits (_enable_plugin (set_coordinates self lat lng))
  = no_previous_bits /\
  _sleep_until (_enable_plugin (set_coordinates self lat lng)) = 0.
Proof.
  intros Hloc Hfail Hans. split; [ | repeat split ].
  unfold _translate_address.
  destruct (strip _); [ contradiction | ].
  now apply translate_loop_success.
Qed.

Lemma geocoding_ends_at_the_first_answer_witness :
  _translate_address
    ([ {| geocoder := Failed; enabled_after_wait := false |};
       {| geocoder := Failed; enabled_after_wait := false |} ]
     ++ {| geocoder := Located "50.85" "4.35"; enabled_after_wait := false |}
     :: [])
    (fst (Scenario.located "Brussels,Belgium" "50.85" "4.35"))
    Scenario.disabled
  = (set_config_coordinates
       (fst (Scenario.located "Brussels,Belgium" "50.85" "4.35"))
       ("50.85" ++ ";" ++ "4.35")%string,
     _enable_plugin (set_coordinates Scenario.disabled "50.85" "4.35"),
     map wait_after
       (seq 0 (List.length
                 [ {| geocoder := Failed; enabled_after_wait := false |};
                   {| geocoder := Failed; enabled_after_wait := false |} ])),
     Geocoded) /\
  _enabled (_enable_plugin (set_coordinates Scenario.disabled "50.85" "4.35"))
  = true /\
  _latitude (_enable_plugin (set_coordinates Scenario.disabled "50.85" "4.35"))
  = Some "50.85"%string /\
  _longitude
    (_enable_plugin (set_coordinates Scenario.disabled "50.85" "4.35"))
  = Some "4.35"%string /\
  _previous_bits
    (_enable_plugin (set_coordinates Scenario.disabled "50.85" "4.35"))
  = no_previous_bits /\
  _sleep_until
    (_enable_plugin (set_coordinates Scenario.disabled "50.85" "4.35")) = 0.
Proof.
  apply (geocoding_ends_at_the_first_answer
           [ {| geocoder := Failed; enabled_after_wait := false |};
             {| geocoder := Failed; enabled_after_wait := false |} ]
           {| geocoder := Located "50.85" "4.35";
              enabled_after_wait := false |}
           [] "50.85"%string "4.35"%string
           (fst (Scenario.located "Brussels,Belgium" "50.85" "4.35"))
           Scenario.disabled).
  - vm_compute. discriminate.
  - repeat constructor.
  - reflexivity.
Defined.

Lemma lstrip_all_spaces (s : list ascii) :
  forallb is_space s = true -> lstrip s = [].
Proof.
  intros H. rewrite <- (app_nil_r s). now rewrite lstrip_spaces.
Qed.

(** X22. Without a location, or with one that is only whitespace,
    [_translate_address] asks the geocoding service nothing: the thread ends
    at once, the plugin stays as it is and so does the configuration. *)
Theorem blank_location_asks_nothing (attempts : list Attempt)
    (config : Config) (self : Astro) :
  forallb is_space (list_ascii_of_string (get (location config) ""%string))
  = true ->
  _translate_address attempts config self = (config, self, [], NoLocation).
Proof.
  intros H. unfold _translate_address, strip.
  rewrite (lstrip_all_spaces _ H). reflexivity.
Qed.

Lemma blank_location_asks_nothing_witness :
  _translate_address Scenario.third_time_lucky Sample.sydney Scenario.disabled
  = (Sample.sydney, Scenario.disabled, [], NoLocation).
Proof.
  apply (blank_location_asks_nothing Scenario.third_time_lucky Sample.sydney
           Scenario.disabled).
  reflexivity.
Defined.

Lemma list_ascii_of_string_app (s1 s2 : string) :
  list_ascii_of_string (s1 ++ s2)%string
  = list_ascii_of_string s1 ++ list_ascii_of_string s2.
Proof.
  induction s1 as [ | c s1 IH ]; cbn; [ reflexivity | ]. now rewrite IH.
Qed.

Lemma one_semicolon (l1 r1 l2 r2 : list ascii) :
  (forall x, In x l2 -> x <> ";"%char) ->
  (forall x, In x r2 -> x <> ";"%char) ->
  l1 ++ ";"%char :: r1 = l2 ++ ";"%char :: r2 -> l1 = l2 /\ r1 = r2.
Proof.
  revert l2. induction l1 as [ | c l1 IH ]; intros [ | c' l2 ] Hl Hr Heq;
    cbn in Heq.
  - injection Heq as <-. auto.
  - injection Heq as <- _. exfalso. apply (Hl ";"%char); [ now left | ].
    reflexivity.
  - injection Heq as -> <-. exfalso. apply (Hr ";"%char); [ | reflexivity ].
    apply in_or_app. right. now left.
  - injection Heq as <- Heq.
    destruct (IH l2) as (-> & ->); try assumption; [ | auto ].
    intros x Hx. apply Hl. now right.
Qed.

Lemma decimal_no_semicolon (a b : list ascii) (x : ascii) :
  is_number a -> is_number b -> In x (a ++ "."%char :: b) -> x <> ";"%char.
Proof.
  intros (_ & Ha) (_ & Hb) Hx ->.
  rewrite forallb_forall in Ha, Hb.
  apply in_app_or in Hx as [Hx | [Hx | Hx]].
  - apply Ha in Hx. discriminate.
  - discriminate.
  - apply Hb in Hx. discriminate.
Qed.

Lemma translate_loop_geocoded attempts wait config self config' self' waits :
  translate_loop attempts wait config self = (config', self', waits, Geocoded)
  ->
  exists lat lng,
    config' = set_config_coordinates config (lat ++ ";" ++ lng)%string /\
    self' = _enable_plugin (set_coordinates self lat lng).
Proof.
  revert wait waits. induction attempts as [ | att rest IH ];
    intros wait waits; cbn [translate_loop]; [ discriminate | ].
  destruct (geocoder att) as [lat lng | ].
  - intros H. injection H as <- <- _. exists lat, lng. split; reflexivity.
  - destruct (enabled_after_wait att); [ discriminate | ].
    destruct (translate_loop rest (next_wait wait) config self)
      as [[[c1 s1] w1] e1] eqn:Hrest.
    intros H. injection H as -> -> _ ->. eapply IH. exact Hrest.
Qed.

(** X23. The coordinates that [_translate_address] writes to the
    configuration are read back by [_read_config] only when both are
    written with digits and a dot: then a reload enables the plugin with the
    same latitude and longitude without geocoding.  When the latitude or the
    longitude is written with a minus sign, a reload leaves the plugin
    disabled and starts the geocoding again. *)
Theorem geocoded_coordinates_on_reload
    attempts config self config' self' waits :
  _translate_address attempts config self = (config', self', waits, Geocoded)
  ->
  exists lat lng,
    _latitude self' = Some lat /\ _longitude self' = Some lng /\
    coordinates config' = Some (lat ++ ";" ++ lng)%string /\
    (lat_long (list_ascii_of_string lat ++ ";"%char
                 :: list_ascii_of_string lng) ->
     forall other,
       _enabled (fst (_read_config config' other)) = true /\
       _latitude (fst (_read_config config' other)) = Some lat /\
       _longitude (fst (_read_config config' other)) = Some lng /\
       snd (_read_config config' other) = false) /\
    (In "-"%char (list_ascii_of_string lat) \/
     In "-"%char (list_ascii_of_string lng) ->
     forall other,
       _enabled (fst (_read_config config' other)) = false /\
       snd (_read_config config' other) = true).
Proof.
  unfold _translate_address.
  destruct (strip _) as [ | ch tl ]; [ discriminate | ].
  intros H. apply translate_loop_geocoded in H as (lat & lng & -> & ->).
  exists lat, lng.
  assert (Hentry : coordinates_entry
                     (set_config_coordinates config (lat ++ ";" ++ lng))
                   = list_ascii_of_string lat ++ ";"%char
                       :: list_ascii_of_string lng).
  { unfold coordinates_entry. cbn [coordinates set_config_coordinates get].
    rewrite list_ascii_of_string_app. reflexivity. }
  split; [ reflexivity | ]. split; [ reflexivity | ].
  split; [ reflexivity | ]. split.
  - intros Hll other.
    pose proof (strip_lat_long _ Hll) as Hstrip.
    destruct Hll as (a & b & c & d & Ha & Hb & Hc & Hd & Heq).
    assert (Hsplit : list_ascii_of_string lat = a ++ "."%char :: b /\
                     list_ascii_of_string lng = c ++ "."%char :: d).
    { apply one_semicolon.
      - intros x. now apply decimal_no_semicolon.
      - intros x. now apply decimal_no_semicolon.
      - rewrite Heq, <- app_assoc. reflexivity. }
    destruct Hsplit as (Hlat & Hlng).
    destruct (read_config_taken
                (set_config_coordinates config (lat ++ ";" ++ lng)) other
                a b c d Ha Hb Hc Hd) as (Hen & Hla & Hlo & _ & Hth).
    { rewrite Hentry, Hstrip. exact Heq. }
    rewrite <- Hlat, string_of_list_ascii_of_string in Hla.
    rewrite <- Hlng, string_of_list_ascii_of_string in Hlo.
    auto.
  - intros Hminus other.
    destruct (read_config_enabled
                (set_config_coordinates config (lat ++ ";" ++ lng)) other)
      as (Hen & Hth).
    rewrite Hen, Hth.
    destruct (Re.matchb coordinates_re _) eqn:Hm; [ exfalso | auto ].
    apply matchb_lat_long in Hm.
    assert (Hin : In "-"%char
                    (strip (coordinates_entry
                              (set_config_coordinates config
                                 (lat ++ ";" ++ lng))))).
    { apply strip_in; [ | reflexivity ]. rewrite Hentry.
      apply in_or_app. destruct Hminus; [ now left | right; now right ]. }
    destruct (lat_long_characters _ _ Hm Hin) as [H | [H | H]]; discriminate.
Qed.

Lemma geocoded_coordinates_on_reload_witness :
  exists lat lng,
    _latitude (_enable_plugin
                 (set_coordinates Scenario.disabled "-33.86" "151.21"))
    = Some lat /\
    _longitude (_enable_plugin
                  (set_coordinates Scenario.disabled "-33.86" "151.21"))
    = Some lng /\
    coordinates
      (set_config_coordinates
         (fst (Scenario.located "Sydney" "-33.86" "151.21"))
         "-33.86;151.21")
    = Some (lat ++ ";" ++ lng)%string /\
    (lat_long (list_ascii_of_string lat ++ ";"%char
                 :: list_ascii_of_string lng) ->
     forall other,
       _enabled
         (fst (_read_config
                 (set_config_coordinates
                    (fst (Scenario.located "Sydney" "-33.86" "151.21"))
                    "-33.86;151.21") other)) = true /\
       _latitude
         (fst (_read_config
                 (set_config_coordinates
                    (fst (Scenario.located "Sydney" "-33.86" "151.21"))
                    "-33.86;151.21") other)) = Some lat /\
       _longitude
         (fst (_read_config
                 (set_config_coordinates
                    (fst (Scenario.located "Sydney" "-33.86" "151.21"))
                    "-33.86;151.21") other)) = Some lng /\
       snd (_read_config
              (set_config_coordinates
                 (fst (Scenario.located "Sydney" "-33.86" "151.21"))
                 "-33.86;151.21") other) = false) /\
    (In "-"%char (list_ascii_of_string lat) \/
     In "-"%char (list_ascii_of_string lng) ->
     forall other,
       _enabled
         (fst (_read_config
                 (set_config_coordinates
                    (fst (Scenario.located "Sydney" "-33.86" "151.21"))
                    "-33.86;151.21") other)) = false /\
       snd (_read_config
              (set_config_coordinates
                 (fst (Scenario.located "Sydney" "-33.86" "151.21"))
                 "-33.86;151.21") other) = true).
Proof.
  apply (geocoded_coordinates_on_reload
           (snd (Scenario.located "Sydney" "-33.86" "151.21"))
           (fst (Scenario.located "Sydney" "-33.86" "151.21"))
           Scenario.disabled
           (set_config_coordinates
              (fst (Scenario.located "Sydney" "-33.86" "151.21"))
              "-33.86;151.21")
           (_enable_plugin
              (set_coordinates Scenario.disabled "-33.86" "151.21"))
           []).
  reflexivity.
Defined.

(** ** The sleep manager *)

Lemma manager_passes_spec (times : list Z) (self : Astro) (is_set : bool) :
  manager_passes times (self, is_set)
  = (self, is_set || existsb (fun t => _sleep_until self <? t) times).
Proof.
  unfold manager_passes. revert is_set.
  induction times as [ | t times IH ]; intros is_set; cbn [fold_left existsb].
  - now rewrite orb_false_r.
  - unfold manager_pass at 2.
    destruct is_set; cbn [negb andb orb].
    + rewrite IH. reflexivity.
    + destruct (_sleep_until self <? t); rewrite IH; reflexivity.
Qed.

(** X24. After [_sleep(timestamp)] has stored its deadline and cleared the
    event, the passes of [_sleep_manager] set the event exactly when one of
    them reads a clock that is past the deadline: the sleeper is not
    released before its deadline, and the first pass after it releases it.
    After [_enable_plugin], which puts the deadline at 0, any pass does, and
    no pass writes the instance. *)
Theorem manager_releases_after_the_deadline (times : list Z) (s : Sleeper)
    (timestamp : Z) :
  manager_passes times (begin_sleep timestamp s)
  = (_sleep (fst s) timestamp, existsb (fun t => timestamp <? t) times) /\
  manager_passes times (_enable_plugin (fst s), false)
  = (_enable_plugin (fst s), existsb (fun t => 0 <? t) times).
Proof.
  unfold begin_sleep. rewrite !manager_passes_spec. split; reflexivity.
Qed.
